(** * oracle-cron: the scheduled price/band synchronisation job

    A shallow embedding of the route handlers of the repository
    (src/app/api/run/route.js, which holds two handlers, and the two
    further handler files of the same job) and the verification of the
    properties stated about them.

    Conventions of the embedding.
    - A JavaScript string is a [string]; its characters stand for the code
      units U+0000..U+00FF.  White space is the part of the JavaScript
      white-space set that lies in this range.  The case mappings are
      those of the ASCII letters, which is what JavaScript does on ASCII
      text; JavaScript also maps letters outside ASCII (é to É), so a
      property that depends on the case of an arbitrary text is stated
      for ASCII text.
    - A JavaScript Number is an IEEE 754 binary64 value, a [spec_float]
      of the standard library with precision 53 and maximal exponent 1024;
      arithmetic is the correctly rounded one of [SpecFloat].
    - A BigInt is a [Z].
    - Everything outside the process (the clock, the RPC provider, the
      oracle contract, the HTTP endpoints) is an environment that answers
      each request as a function of the history of the invocation. *)

From Stdlib Require Import ZArith Lia String Ascii List Bool.
From Stdlib Require Import Floats.SpecFloat.
From stdpp Require Import base gmap strings list pretty.
Import ListNotations.

Local Open Scope string_scope.
Local Open Scope list_scope.
Local Open Scope Z_scope.

(** ** JavaScript strings *)

Module JsString.

Definition code (c : ascii) : Z := Z.of_N (N_of_ascii c).

(** The white-space and line-terminator characters below U+0100:
    TAB, LF, VT, FF, CR, SP and NBSP.  This is what [\s] matches and
    what [trim] removes. *)
Definition isWhiteSpace (c : ascii) : bool :=
  let n := code c in
  ((9 <=? n) && (n <=? 13)) || (n =? 32) || (n =? 160).

Definition isDigit (c : ascii) : bool :=
  let n := code c in (48 <=? n) && (n <=? 57).

Definition isUpper (c : ascii) : bool :=
  let n := code c in (65 <=? n) && (n <=? 90).

Definition isLower (c : ascii) : bool :=
  let n := code c in (97 <=? n) && (n <=? 122).

Definition lowerChar (c : ascii) : ascii :=
  if isUpper c then ascii_of_N (N_of_ascii c + 32) else c.

Definition upperChar (c : ascii) : ascii :=
  if isLower c then ascii_of_N (N_of_ascii c - 32) else c.

Fixpoint mapChars (f : ascii -> ascii) (s : string) : string :=
  match s with
  | EmptyString => EmptyString
  | String c r => String (f c) (mapChars f r)
  end.

(** [s.toLowerCase()] and [s.toUpperCase()] for an ASCII text [s]; a
    character outside ASCII is kept as it is. *)
Definition toLowerCase : string -> string := mapChars lowerChar.
Definition toUpperCase : string -> string := mapChars upperChar.

(** [s.replace(/[...]/g, "")] for a character class given as a
    predicate; [/[...]+/g] removes the same characters. *)
Fixpoint removeAll (p : ascii -> bool) (s : string) : string :=
  match s with
  | EmptyString => EmptyString
  | String c r => if p c then removeAll p r else String c (removeAll p r)
  end.

Fixpoint trimStart (s : string) : string :=
  match s with
  | EmptyString => EmptyString
  | String c r => if isWhiteSpace c then trimStart r else s
  end.

Fixpoint allWhiteSpace (s : string) : bool :=
  match s with
  | EmptyString => true
  | String c r => isWhiteSpace c && allWhiteSpace r
  end.

Fixpoint trimEnd (s : string) : string :=
  match s with
  | EmptyString => EmptyString
  | String c r => if allWhiteSpace s then EmptyString else String c (trimEnd r)
  end.

Definition trim (s : string) : string := trimEnd (trimStart s).

Definition isEmpty (s : string) : bool :=
  match s with EmptyString => true | _ => false end.

Fixpoint startsWith (p s : string) : bool :=
  match p, s with
  | EmptyString, _ => true
  | String a p', String b s' => Ascii.eqb a b && startsWith p' s'
  | String _ _, EmptyString => false
  end.

(** [s.includes(sub)] *)
Fixpoint includes (s sub : string) : bool :=
  startsWith sub s ||
  match s with
  | EmptyString => false
  | String _ r => includes r sub
  end.

(** [/^-/.test(s)] *)
Definition startsWithMinus (s : string) : bool :=
  match s with
  | String c _ => Ascii.eqb c "-"
  | EmptyString => false
  end.

(** [s.replace(/^-/, "")] *)
Definition dropLeadingMinus (s : string) : string :=
  match s with
  | String c r => if Ascii.eqb c "-" then r else s
  | EmptyString => EmptyString
  end.

(** [s.split(sep)] for a one-character separator: never empty. *)
Fixpoint split (sep : ascii) (s : string) : list string :=
  match s with
  | EmptyString => [EmptyString]
  | String c r =>
      if Ascii.eqb c sep then EmptyString :: split sep r
      else match split sep r with
           | [] => [String c EmptyString]
           | p :: ps => String c p :: ps
           end
  end.

(** The part before the first [sep] and, if there is one, the part
    after it. *)
Fixpoint cut (sep : ascii) (s : string) : string * option string :=
  match s with
  | EmptyString => (EmptyString, None)
  | String c r =>
      if Ascii.eqb c sep then (EmptyString, Some r)
      else let '(a, b) := cut sep r in (String c a, b)
  end.

Fixpoint spanDigits (s : string) : string * string :=
  match s with
  | EmptyString => (EmptyString, EmptyString)
  | String c r =>
      if isDigit c then let '(d, t) := spanDigits r in (String c d, t)
      else (EmptyString, s)
  end.

End JsString.

(** ** JavaScript Numbers: IEEE 754 binary64 *)

Module JsNumber.
Import JsString.

Definition prec : Z := 53.
Definition emax : Z := 1024.

Definition Number := spec_float.

Definition NaN : Number := S754_nan.
Definition fmul : Number -> Number -> Number := SFmul prec emax.
Definition fdiv : Number -> Number -> Number := SFdiv prec emax.

(** The Number nearest to an integer (exact below 2^53). *)
Definition ofZ (n : Z) : Number := binary_normalize prec emax n 0 false.

(** The Number nearest to [m * 10^e10] (ties to even), with sign
    [neg]: the value of a decimal literal with digits [m], rounded as
    the engines round it. *)
Definition ofDecimal (neg : bool) (m e10 : Z) : Number :=
  match m with
  | Z0 => S754_zero neg
  | Zneg _ => S754_nan
  | Zpos p =>
      if 0 <=? e10
      then binary_normalize prec emax
             (cond_Zopp neg (Zpos p * 10 ^ e10)) 0 neg
      else
        let '(q, e, l) :=
          SFdiv_core_binary prec emax (Zpos p) 0 (10 ^ (- e10)) 0 in
        binary_round_aux prec emax neg q e l
  end.

Definition isFinite (x : Number) : bool :=
  match x with
  | S754_zero _ | S754_finite _ _ _ => true
  | S754_infinity _ | S754_nan => false
  end.

(** The sign bit is set and the value is not a zero: [x < 0]. *)
Definition isNegative (x : Number) : bool :=
  match x with
  | S754_finite s _ _ | S754_infinity s => s
  | S754_zero _ | S754_nan => false
  end.

(** [x > 0] *)
Definition gtZero (x : Number) : bool := SFltb (S754_zero false) x.

(** [floor(x + 1/2)] of a finite nonzero Number, in exact arithmetic. *)
Definition roundHalfUp (s : bool) (m : positive) (e : Z) : Z :=
  match e with
  | Zneg k => (2 * cond_Zopp s (Zpos m) + 2 ^ Zpos k) / 2 ^ (Zpos k + 1)
  | _ => cond_Zopp s (Zpos m) * 2 ^ e
  end.

(** [floor(x)] of a finite nonzero Number, in exact arithmetic. *)
Definition floorZ (s : bool) (m : positive) (e : Z) : Z :=
  match e with
  | Zneg k => cond_Zopp s (Zpos m) / 2 ^ Zpos k
  | _ => cond_Zopp s (Zpos m) * 2 ^ e
  end.

(** An integer as a Number, keeping the sign [s] of the argument when
    the integer is zero ([Math.round(-0.2)] is [-0]). *)
Definition ofInteger (s : bool) (n : Z) : Number :=
  match n with
  | Z0 => S754_zero s
  | _ => binary_normalize prec emax n 0 s
  end.

(** [Math.round(x)]: the nearest integer, ties towards +infinity. *)
Definition Math_round (x : Number) : Number :=
  match x with
  | S754_finite s m (Zneg k) => ofInteger s (roundHalfUp s m (Zneg k))
  | _ => x
  end.

(** [Math.floor(x)] *)
Definition Math_floor (x : Number) : Number :=
  match x with
  | S754_finite s m (Zneg k) => ofInteger s (floorZ s m (Zneg k))
  | _ => x
  end.

(** The integer a Number stands for, if it is one. *)
Definition toInteger (x : Number) : option Z :=
  match x with
  | S754_zero _ => Some 0
  | S754_finite s m (Zneg k) =>
      if Zpos m mod 2 ^ Zpos k =? 0
      then Some (cond_Zopp s (Zpos m / 2 ^ Zpos k))
      else None
  | S754_finite s m e => Some (cond_Zopp s (Zpos m) * 2 ^ e)
  | S754_infinity _ | S754_nan => None
  end.

(** *** Conversion from strings *)

Definition digitValue (c : ascii) : Z := code c - 48.

Fixpoint digitsValueFrom (acc : Z) (s : string) : Z :=
  match s with
  | EmptyString => acc
  | String c r => digitsValueFrom (10 * acc + digitValue c) r
  end.

Definition digitsValue : string -> Z := digitsValueFrom 0.

Definition strlen (s : string) : Z := Z.of_nat (String.length s).

(** ExponentPart: [e] or [E], an optional sign, at least one digit;
    nothing may follow. *)
Definition parseExponent (s : string) : option Z :=
  match s with
  | EmptyString => Some 0
  | String c r =>
      if Ascii.eqb c "e" || Ascii.eqb c "E" then
        let '(neg, r') :=
          match r with
          | String "+" t => (false, t)
          | String "-" t => (true, t)
          | _ => (false, r)
          end in
        let '(ds, rest) := spanDigits r' in
        if isEmpty ds || negb (isEmpty rest) then None
        else Some (cond_Zopp neg (digitsValue ds))
      else None
  end.

(** StrUnsignedDecimalLiteral, without [Infinity]: the digits as an
    integer and the power of ten that scales it. *)
Definition parseUnsignedDecimal (s : string) : option (Z * Z) :=
  let '(ip, r1) := spanDigits s in
  let '(fp, r2) :=
    match r1 with
    | String "." t => spanDigits t
    | _ => (EmptyString, r1)
    end in
  if isEmpty ip && isEmpty fp then None
  else match parseExponent r2 with
       | Some e => Some (digitsValue (String.append ip fp), e - strlen fp)
       | None => None
       end.

Definition parseSignedDecimal (s : string) : Number :=
  let '(neg, r) :=
    match s with
    | String "+" t => (false, t)
    | String "-" t => (true, t)
    | _ => (false, s)
    end in
  if String.eqb r "Infinity" then S754_infinity neg
  else match parseUnsignedDecimal r with
       | Some (m, e) => ofDecimal neg m e
       | None => NaN
       end.

(** The value of a digit in a radix up to 16, if it is one. *)
Definition radixDigit (radix : Z) (c : ascii) : option Z :=
  let n := code c in
  let v := if isDigit c then n - 48
           else if (97 <=? n) && (n <=? 102) then n - 87
           else if (65 <=? n) && (n <=? 70) then n - 55
           else 16 in
  if v <? radix then Some v else None.

Fixpoint radixValueFrom (radix acc : Z) (s : string) : option Z :=
  match s with
  | EmptyString => Some acc
  | String c r =>
      match radixDigit radix c with
      | Some v => radixValueFrom radix (radix * acc + v) r
      | None => None
      end
  end.

(** NonDecimalIntegerLiteral: [0x], [0o] or [0b] and at least one digit
    of that radix. *)
Definition parseNonDecimal (s : string) : option Number :=
  match s with
  | String "0" (String p ds) =>
      let radix :=
        if Ascii.eqb p "x" || Ascii.eqb p "X" then 16
        else if Ascii.eqb p "o" || Ascii.eqb p "O" then 8
        else if Ascii.eqb p "b" || Ascii.eqb p "B" then 2
        else 0 in
      if radix =? 0 then None
      else if isEmpty ds then Some NaN
      else match radixValueFrom radix 0 ds with
           | Some v => Some (ofZ v)
           | None => Some NaN
           end
  | _ => None
  end.

(** [Number(s)] for a string [s]: StringToNumber of ECMA-262. *)
Definition ofString (s : string) : Number :=
  let t := trim s in
  if isEmpty t then S754_zero false
  else match parseNonDecimal t with
       | Some x => x
       | None => parseSignedDecimal t
       end.

(** [Number.parseInt(s, 10)] *)
Definition parseInt10 (s : string) : Number :=
  let t := trimStart s in
  let '(neg, r) :=
    match t with
    | String "+" u => (false, u)
    | String "-" u => (true, u)
    | _ => (false, t)
    end in
  let '(ds, _) := spanDigits r in
  if isEmpty ds then NaN else ofDecimal neg (digitsValue ds) 0.

End JsNumber.

(** ** The parsed page

    What [cheerio.load] makes of the markup, as far as the handlers look
    at it: the [table] elements in document order, each with its row
    groups, rows and cells.  Tables are not nested. *)

Module Dom.

Inductive CellTag := TD | TH.

(** A cell: its tag, its text content and the [href] attribute (if any)
    of each [a] element inside it, in document order. *)
Record Cell := {
  cell_tag : CellTag;
  cell_text : string;
  cell_links : list (option string)
}.

Definition Row := list Cell.

Inductive GroupTag := THEAD | TBODY | TFOOT.

(** A row group with its [tr] children. *)
Record Group := {
  group_tag : GroupTag;
  group_rows : list Row
}.

Definition Table := list Group.
Definition Document := list Table.

Definition isTD (c : Cell) : bool :=
  match cell_tag c with TD => true | TH => false end.

Definition isTH (c : Cell) : bool :=
  match cell_tag c with TH => true | TD => false end.

Definition isTHEAD (g : Group) : bool :=
  match group_tag g with THEAD => true | _ => false end.

Definition isTBODY (g : Group) : bool :=
  match group_tag g with TBODY => true | _ => false end.

(** [$(tbl).find("thead tr:first-child td, th")]: a selector list of two
    alternatives, the [td] cells of the first row of a [thead], and
    every [th] cell of the table. *)
Definition selectHeaders (tbl : Table) : list Cell :=
  flat_map
    (fun g =>
       match group_rows g with
       | [] => []
       | first :: rest =>
           List.filter (fun c => isTH c || (isTD c && isTHEAD g)) first
           ++ flat_map (List.filter isTH) rest
       end)
    tbl.

(** [$table.find("tbody tr")] *)
Definition bodyRows (tbl : Table) : list Row :=
  flat_map (fun g => if isTBODY g then group_rows g else []) tbl.

(** [$(tr).find("td")] *)
Definition tds (tr : Row) : list Cell := List.filter isTD tr.

(** [$td.eq(i).text()]: the empty string when there is no such cell. *)
Definition textAt (td : list Cell) (i : nat) : string :=
  match td !! i with
  | Some c => cell_text c
  | None => EmptyString
  end.

(** [$td.eq(0).find("a").attr("href")]: the attribute of the first
    link of the first cell, [None] for [undefined]. *)
Definition firstHref (td : list Cell) : option string :=
  match td !! 0%nat with
  | Some c => match cell_links c with
              | h :: _ => h
              | [] => None
              end
  | None => None
  end.

End Dom.

(** ** The helpers shared by all handler files *)

Module Helpers.
Import JsString JsNumber.

(** [TARGETS], an object, as its entries in insertion order. *)
Definition TARGETS : list (string * string) :=
  [ ("MTNN", "MTNN"); ("UBA", "UBA"); ("GTCO", "GTCO");
    ("ZENITHBANK", "ZENITHBANK"); ("ARADEL", "ARADEL");
    ("TOTALNG", "TOTALNG"); ("AIICO", "AIICO");
    ("CORNERST", "CORNERST"); ("OKOMUOIL", "OKOMUOIL");
    ("PRESCO", "PRESCO"); ("NESTLE", "NESTLE");
    ("DANGSUGAR", "DANGSUGAR") ].

(** [new Set(Object.values(TARGETS))] *)
Definition TARGET_SET : gset string := list_to_set (TARGETS.*2).

(** [TARGET_SET.has(code)] *)
Definition TARGET_SET_has (code : string) : bool :=
  bool_decide (code ∈ TARGET_SET).

Definition URL : string :=
  "https://african-markets.com/en/stock-markets/ngse/listed-companies".

Definition isCommaOrSpace (c : ascii) : bool :=
  Ascii.eqb c "," || Ascii.eqb c " ".

Definition toNumber (txt : string) : option Number :=
  if isEmpty txt then None
  else
    let clean := trim (removeAll isCommaOrSpace txt) in
    if String.eqb clean "-" || isEmpty clean then None
    else
      let n := ofString clean in
      if isFinite n then Some n else None.

(** The class [[\s,%+]] *)
Definition isPercentNoise (c : ascii) : bool :=
  isWhiteSpace c || Ascii.eqb c "," || Ascii.eqb c "%" || Ascii.eqb c "+".

Definition parsePercent (txt : string) : option Number :=
  if isEmpty txt then None
  else
    let t := trim (removeAll isPercentNoise txt) in
    if String.eqb t "-" || isEmpty t then None
    else
      let neg := startsWithMinus (trim txt) in
      let num := ofString (dropLeadingMinus t) in
      if negb (isFinite num) then None
      else Some (fmul (fdiv num (ofZ 100)) (if neg then ofZ (-1) else ofZ 1)).

(** *** [URLSearchParams]

    The query string is cut at [&]; each non-empty piece is cut at its
    first [=]; in name and value [+] stands for a space and [%XX] for
    the byte [XX].  (Escaped bytes above 0x7F, which the library reads
    as UTF-8, are outside the texts covered here; the byte is kept.) *)

Definition hexValue (c : ascii) : option Z := radixDigit 16 c.

Fixpoint percentDecode (s : string) : string :=
  match s with
  | EmptyString => EmptyString
  | String c r =>
      let keep := String (if Ascii.eqb c "+" then " "%char else c)
                         (percentDecode r) in
      if Ascii.eqb c "%" then
        match r with
        | String h (String l r') =>
            match hexValue h, hexValue l with
            | Some a, Some b =>
                String (ascii_of_N (Z.to_N (16 * a + b))) (percentDecode r')
            | _, _ => keep
            end
        | _ => keep
        end
      else keep
  end.

(** [new URLSearchParams(qs).get(name)] *)
Definition searchParam (qs name : string) : option string :=
  let pairs :=
    List.map (fun piece =>
                let '(n, v) := cut "=" piece in
                (percentDecode n, percentDecode (default EmptyString v)))
             (List.filter (fun piece => negb (isEmpty piece)) (split "&" qs)) in
  match List.find (fun nv => String.eqb (fst nv) name) pairs with
  | Some nv => Some (snd nv)
  | None => None
  end.

(** [a || ""] for a string or [undefined]: the empty string is falsy. *)
Definition orEmpty (a : option string) : string := default EmptyString a.

Definition extractCode (href : string) : string :=
  let qs := orEmpty (split "?" href !! 1%nat) in
  toUpperCase (orEmpty (searchParam qs "code")).

End Helpers.

(** ** Values handed to the oracle *)

(** A numeric field of a payload is a Number or a BigInt, as the handler
    built it. *)
Inductive Numeric :=
| Num (x : JsNumber.Number)
| Big (z : Z).

Definition zeroHash : string :=
  "0x0000000000000000000000000000000000000000000000000000000000000000".

Module PricePayload.
Record t := {
  priceE6 : Numeric;
  seq : Numeric;
  ts : Numeric;
  hcsMsgId : string
}.
End PricePayload.

Module BandPayload.
Record t := {
  midE6 : Numeric;
  widthBps : JsNumber.Number;
  ts : Numeric
}.
End BandPayload.

(** A line of [rows], printed by [console.table]. *)
Module TickerRow.
Record t := {
  ticker : string;
  price : JsNumber.Number;
  day : option JsNumber.Number;
  ytd : option JsNumber.Number
}.
End TickerRow.

(** ** Errors *)

(** A thrown value: an [Error] with its message (raised by the handler or
    by a library), or the [RangeError] of [BigInt(x)] for a Number that is
    not an integer. *)
Inductive Exn :=
| Error (message : string)
| BigIntRangeError (x : JsNumber.Number).

Inductive Res (A : Type) :=
| Ok (a : A)
| Throw (e : Exn).
Arguments Ok {A} a.
Arguments Throw {A} e.

(** ** The environment *)

Record Tx := { hash : string }.
Record Receipt := { status : Z }.
Record Block := { timestamp : JsNumber.Number }.

(** The band record read back by the audit; only [ts] is used. *)
Record BandRecord := { band_ts : Z }.

(** The body of the exchange-rate response, as far as the handlers read
    it: [null], an object without [data], or an object with [data] and
    the Number (if any) found at
    [data.CNGN[0].quote.USD.price]. *)
Inductive FxBody :=
| BodyNull
| BodyNoData
| BodyData (priceUSD : option JsNumber.Number).

Record FxResponse := {
  fx_status : Z;
  fx_json : Res FxBody
}.

(** What [Number.prototype.toFixed(2)] returns: the digits of
    [n / 100] with two decimals and a sign, or, for NaN and for
    magnitudes of 1e21 and above, [x.toString()]. *)
Inductive Fixed2 :=
| Fixed2Digits (neg : bool) (n : Z)
| Fixed2ToString (x : JsNumber.Number).

(** What the handlers write to the console. *)
Inductive Console :=
| warn_no_address (code : string)
| table_rows (rows : list TickerRow.t)
| log_assets (label : string) (assets : list string)
| log_band_payloads (payloads : list BandPayload.t)
| log_price_payloads (assets : list string) (payloads : list PricePayload.t)
| log_count (label : string) (n : nat)
| log_setPrices_ok (h : string) (st : Z)
| log_oracle_updated (h : string)
| warn_no_prices
| log_setBands_ok (h : string) (st : Z)
| warn_setBands_failed (e : Exn)
| log_setBand (i len : nat) (h : string) (st : Z)
| warn_no_setBands
| warn_no_bands
| log_fx_status (st : Z)
| log_fx_rate_fixed (rate : Fixed2)
| log_fx_rate (rate : JsNumber.Number)
| warn_fx_fallback (st : Z) (rate : JsNumber.Number)
| log_fx_setPrice (h : string) (st : Z)
| log_fx_setBand (h : string) (st : Z)
| log_fx_failed (e : Exn)
| log_freshness (asset : string) (t : Z) (fresh : bool)
| error_top (e : Exn).

(** What an invocation does, in the order in which it does it: the
    requests to the outside and the console output. *)
Inductive Event :=
| DateNow
| Connect (rpcUrl : string) (chainId : JsNumber.Number)
          (privateKey : string) (contract : option string)
| AxiosGet (url : string)
| GetBlock
| SetPrices (assets : list string) (payloads : list PricePayload.t)
| SetBands (assets : list string) (payloads : list BandPayload.t)
| SetBand (asset : string) (payload : BandPayload.t)
| SetPrice (asset : string) (payload : PricePayload.t)
| Wait (tx : Tx)
| Fetch (url : string)
| MaxStaleness
| GetBand (asset : string)
| Print (c : Console).

(** The history of an invocation, latest event first. *)
Definition History := list Event.

(** The environment answers a request as a function of the history up to
    and including that request. *)
Record Env := {
  (** [process.env] *)
  process_env : gmap string string;
  (** [Date.now()], in milliseconds *)
  dateNow : History -> Z;
  (** the constructors of the provider, the wallet and the contract *)
  connect : History -> Res unit;
  (** [axios.get] followed by [cheerio.load] *)
  axiosGet : History -> Res Dom.Document;
  (** [provider.getBlock("latest")] *)
  getBlock : History -> Res (option Block);
  (** [typeof oracleHub.setBands === "function"] *)
  hasSetBands : bool;
  (** [setPrices], [setBands], [setBand], [setPrice] *)
  send : History -> Res Tx;
  (** [tx.wait()] *)
  wait : History -> Res Receipt;
  (** [fetch] of the exchange rate *)
  fetch : History -> Res FxResponse;
  maxStaleness : History -> Res Z;
  getBand : History -> Res BandRecord
}.

(** ** The monad of the handlers: history and exceptions *)

Definition M (A : Type) : Type := History -> Res A * History.

Definition ret {A} (a : A) : M A := fun h => (Ok a, h).

Definition bind {A B} (m : M A) (k : A -> M B) : M B :=
  fun h =>
    match m h with
    | (Ok a, h') => k a h'
    | (Throw e, h') => (Throw e, h')
    end.

Definition throw {A} (e : Exn) : M A := fun h => (Throw e, h).

(** [try { m } catch (e) { handler e }] *)
Definition try_catch {A} (m : M A) (handler : Exn -> M A) : M A :=
  fun h =>
    match m h with
    | (Ok a, h') => (Ok a, h')
    | (Throw e, h') => handler e h'
    end.

(** A request to the environment. *)
Definition request {A} (ev : Event) (answer : History -> Res A) : M A :=
  fun h => (answer (ev :: h), ev :: h).

(** A reading that cannot fail. *)
Definition reading {A} (ev : Event) (answer : History -> A) : M A :=
  fun h => (Ok (answer (ev :: h)), ev :: h).

Definition console (c : Console) : M unit :=
  fun h => (Ok tt, Print c :: h).

Definition lift {A} (r : Res A) : M A := fun h => (r, h).

Declare Scope js_scope.
Delimit Scope js_scope with js.
Notation "'let*' x ':=' m 'in' k" := (bind m (fun x => k))
  (at level 10, x pattern, m at level 100, k at level 200) : js_scope.
Notation "'exec' m 'in' k" := (bind m (fun _ => k))
  (at level 10, m at level 100, k at level 200) : js_scope.
Local Open Scope js_scope.

(** [BigInt(x)] for a Number [x] *)
Definition BigInt (x : JsNumber.Number) : Res Z :=
  match JsNumber.toInteger x with
  | Some z => Ok z
  | None => Throw (BigIntRangeError x)
  end.

(** [arr.forEach] / [$(...).each] with a callback that threads the
    arrays it pushes to. *)
Fixpoint forEach {A S} (body : S -> A -> M S) (l : list A) (s : S) : M S :=
  match l with
  | [] => ret s
  | a :: l' => let* s' := body s a in forEach body l' s'
  end.

(** [for (let i = 0; i < n; i++)] with a body that threads the variables
    it assigns. *)
Definition forRange {S} (n : nat) (body : S -> nat -> M S) (s : S) : M S :=
  forEach body (seq 0 n) s.

(** ** The code common to the handler files *)

Module Pipeline.
Import JsString JsNumber Dom Helpers.

(** [process.env.NAME || fallback] *)
Definition envOr (vars : gmap string string) (name fallback : string) : string :=
  match vars !! name with
  | Some v => if isEmpty v then fallback else v
  | None => fallback
  end.

(** [process.env[name]] when it is truthy *)
Definition envTruthy (vars : gmap string string) (name : string) : option string :=
  match vars !! name with
  | Some v => if isEmpty v then None else Some v
  | None => None
  end.

Definition DEFAULT_BAND_WIDTH_BPS (vars : gmap string string) : Number :=
  parseInt10 (envOr vars "BAND_WIDTH_BPS" "150").

Definition million : Number := ofZ 1000000.

(** The RPC provider, the wallet and the contract. *)
Definition setup (env : Env) : M unit :=
  let vars := process_env env in
  let rpcUrl := envOr vars "RPC_URL" "https://testnet.hashio.io/api" in
  let chainId :=
    match envTruthy vars "CHAIN_ID" with
    | Some v => parseInt10 v
    | None => ofZ 296
    end in
  match envTruthy vars "PRIVATE_KEY" with
  | None => throw (Error "Private key missing")
  | Some privateKey =>
      request (Connect rpcUrl chainId privateKey (vars !! "ORACLEHUB_CONTRACT"))
              (connect env)
  end.

(** The filter of the table locator. *)
Definition isListingsTable (tbl : Table) : bool :=
  let headers := selectHeaders tbl in
  let texts := List.map (fun h => toLowerCase (cell_text h)) headers in
  (5 <=? length headers)%nat
  && existsb (fun t => includes t "company") texts
  && existsb (fun t => includes t "price") texts.

(** [$("table").filter(...).first()]: a selection of at most one
    table. *)
Definition locateTable (doc : Document) : list Table :=
  match List.filter isListingsTable doc with
  | tbl :: _ => [tbl]
  | [] => []
  end.

(** The scrape up to the check of the selection, as in route.js and
    the handler with [nowSec]. *)
Definition scrape (env : Env) : M (list Table) :=
  let* doc := request (AxiosGet URL) (axiosGet env) in
  let table := locateTable doc in
  if (length table =? 0)%nat
  then throw (Error "Could not locate listings table")
  else ret table.

(** What the row callback makes of a row before it builds payloads:
    this part is the same in every file. *)
Inductive RowReading :=
| Skipped
| Unmapped (code : string)
| Priced (code : string) (price : Number) (day ytd : option Number)
         (assetAddress : string).

Definition readRow (vars : gmap string string) (tr : Row) : RowReading :=
  let td := tds tr in
  let code := extractCode (orEmpty (firstHref td)) in
  if isEmpty code || negb (TARGET_SET_has code) then Skipped
  else
    let price := toNumber (trim (textAt td 2)) in
    let day := parsePercent (trim (textAt td 3)) in
    let ytd := parsePercent (trim (textAt td 4)) in
    match price with
    | None => Skipped
    | Some price =>
        match envTruthy vars code with
        | None => Unmapped code
        | Some assetAddress => Priced code price day ytd assetAddress
        end
    end.

(** The arrays the row callback pushes to. *)
Record Arrays := {
  rows : list TickerRow.t;
  priceAssets : list string;
  pricePayloads : list PricePayload.t;
  bandAssets : list string;
  bandPayloads : list BandPayload.t
}.

Definition noArrays : Arrays :=
  {| rows := []; priceAssets := []; pricePayloads := [];
     bandAssets := []; bandPayloads := [] |}.

(** The pushes of one row, given its fixed-point price and the stamps
    of the payloads. *)
Definition pushRow (acc : Arrays) (code : string) (price : Number)
    (day ytd : option Number) (assetAddress : string)
    (pxE6 : Z) (seq stamp : Numeric) (width : Number) : Arrays :=
  {| rows := rows acc ++ [ {| TickerRow.ticker := code; TickerRow.price := price;
                              TickerRow.day := day; TickerRow.ytd := ytd |} ];
     priceAssets := priceAssets acc ++ [assetAddress];
     pricePayloads := pricePayloads acc ++
       [ {| PricePayload.priceE6 := Big pxE6;
            PricePayload.seq := seq;
            PricePayload.ts := stamp;
            PricePayload.hcsMsgId := zeroHash |} ];
     bandAssets := bandAssets acc ++ [assetAddress];
     bandPayloads := bandPayloads acc ++
       [ {| BandPayload.midE6 := Big pxE6;
            BandPayload.widthBps := width;
            BandPayload.ts := stamp |} ] |}.

(** [BigInt(Math.round(price * 1e6))] *)
Definition toE6 (price : Number) : Res Z :=
  BigInt (Math_round (fmul price million)).

(** [Math.floor(Date.now() / 1000)] for a clock reading in
    milliseconds *)
Definition seconds (ms : Z) : Number :=
  Math_floor (fdiv (ofZ ms) (ofZ 1000)).

(** *** The price phase *)
Definition pricePhase (env : Env) (acc : Arrays) : M (option string) :=
  if (0 <? length (priceAssets acc))%nat then
    let* tx := request (SetPrices (priceAssets acc) (pricePayloads acc))
                       (send env) in
    let* rec := request (Wait tx) (wait env) in
    exec console (log_setPrices_ok (hash tx) (status rec)) in
    ret (Some (hash tx))
  else
    exec console warn_no_prices in
    ret None.

(** *** The band phase *)

(** One turn of the [setBand] loop; it assigns [bandTxHash]. *)
Definition setBandTurn (env : Env) (acc : Arrays)
    (bandTxHash : option string) (i : nat) : M (option string) :=
  match bandAssets acc !! i, bandPayloads acc !! i with
  | Some asset, Some payload =>
      let* tx1 := request (SetBand asset payload) (send env) in
      let* r1 := request (Wait tx1) (wait env) in
      exec console (log_setBand (S i) (length (bandAssets acc))
                                (hash tx1) (status r1)) in
      ret (Some (hash tx1))
  | _, _ =>
      (* not reached: both arrays have an entry at every [i] of the loop *)
      throw (Error "missing argument")
  end.

Definition setBandLoop (env : Env) (acc : Arrays) : M (option string) :=
  forRange (length (bandAssets acc)) (setBandTurn env acc) None.

(** The body of the [try] around the bulk call. *)
Definition setBandsCall (env : Env) (acc : Arrays) : M (option string) :=
  let* txb := request (SetBands (bandAssets acc) (bandPayloads acc))
                      (send env) in
  let* r := request (Wait txb) (wait env) in
  exec console (log_setBands_ok (hash txb) (status r)) in
  ret (Some (hash txb)).

Definition bandPhase (env : Env) (acc : Arrays) : M (option string) :=
  if (0 <? length (bandAssets acc))%nat then
    if hasSetBands env then
      try_catch
        (setBandsCall env acc)
        (fun e =>
           exec console (warn_setBands_failed e) in
           setBandLoop env acc)
    else
      exec console warn_no_setBands in
      setBandLoop env acc
  else
    exec console warn_no_bands in
    ret None.

Definition fxUrl : string :=
  "https://pro-api.coinmarketcap.com/v2/cryptocurrency/quotes/latest?CMC_PRO_API_KEY=4875743b-bb4e-4671-8ba4-b8d38ad861fe&symbol=cNGN".

Definition ngnAsset : string := "0x00000000000000000000000000000000006a1e8c".

End Pipeline.

(** ** The response of the route *)

Inductive Response :=
| Success (pricesUpdated bandsUpdated : nat)
          (priceTxHash bandTxHash : option string)
          (bandWidthBps : JsNumber.Number)
| SuccessCount (count : nat)
| Failure (error : Exn).
(** [Failure err] stands for [{ success: false, error: err.message ||
    String(err) }] with status 500, the two successes for the objects
    with [success: true] and status 200. *)

(** The outer [try]/[catch] of a handler. *)
Definition respond (body : M Response) : History -> Response * History :=
  fun h =>
    match body h with
    | (Ok r, h') => (r, h')
    | (Throw err, h') => (Failure err, Print (error_top err) :: h')
    end.

(** ** [Number.prototype.toFixed(2)] and the way back *)

Module JsFixed.
Import JsNumber.

(** [floor(m * 2^e * 100 + 1/2)]: of the two nearest integers the
    larger one. *)
Definition scaled100 (m : positive) (e : Z) : Z :=
  match e with
  | Zneg k => (2 * (Zpos m * 100) + 2 ^ Zpos k) / 2 ^ (Zpos k + 1)
  | _ => Zpos m * 100 * 2 ^ e
  end.

Definition toFixed2 (x : Number) : Fixed2 :=
  match x with
  | S754_zero _ => Fixed2Digits false 0
  | S754_finite s m e =>
      if SFleb (ofZ (10 ^ 21)) (SFabs x) then Fixed2ToString x
      else Fixed2Digits s (scaled100 m e)
  | S754_infinity _ | S754_nan => Fixed2ToString x
  end.

(** [Number(str)] for a string that [toFixed(2)] returned;
    [Number(x.toString())] is [x]. *)
Definition ofFixed2 (str : Fixed2) : Number :=
  match str with
  | Fixed2Digits neg n => ofDecimal neg n (-2)
  | Fixed2ToString x => x
  end.

End JsFixed.

(** ** route.js, first handler: the stamp is a constant of the module *)

Module RouteFirst.
Import JsString JsNumber JsFixed Dom Helpers Pipeline.

(** [const now = Math.floor(Date.now() / 1000)] at the top of the
    file: evaluated once, when the module is loaded at [loadTime]. *)
Definition now (loadTime : Z) : Number := seconds loadTime.

Definition eachRow (loadTime : Z) (env : Env) (acc : Arrays) (tr : Row)
  : M Arrays :=
  let vars := process_env env in
  match readRow vars tr with
  | Skipped => ret acc
  | Unmapped code =>
      exec console (warn_no_address code) in
      ret acc
  | Priced code price day ytd assetAddress =>
      let* pxE6 := lift (toE6 price) in
      let* seq := lift (BigInt (now loadTime)) in
      ret (pushRow acc code price day ytd assetAddress pxE6
                   (Big seq) (Num (now loadTime))
                   (DEFAULT_BAND_WIDTH_BPS vars))
  end.

(** [rate] is the Number 1500 or the string of [toFixed(2)]. *)
Inductive Rate :=
| RateDefault
| RateFixed (str : Fixed2).

(** [rate * 1e6] *)
Definition rateE6 (rate : Rate) : Number :=
  match rate with
  | RateDefault => fmul (ofZ 1500) million
  | RateFixed str => fmul (ofFixed2 str) million
  end.

(** The body of the [try] around the exchange-rate update; its value
    is the hash assigned to [bandTxHash] by its last statement. *)
Definition fxUpdate (loadTime : Z) (env : Env) : M string :=
  let* r := request (Fetch fxUrl) (fetch env) in
  exec console (log_fx_status (fx_status r)) in
  let* rate :=
    (if fx_status r =? 200 then
       let* body := lift (fx_json r) in
       let* price :=
         match body with
         | BodyNull => ret None
         | BodyNoData =>
             throw (Error "Cannot read properties of undefined (reading 'CNGN')")
         | BodyData p => ret p
         end in
       match price with
       | Some p =>
           if gtZero p then
             let rate := toFixed2 (fdiv (ofZ 1) p) in
             exec console (log_fx_rate_fixed rate) in
             ret (RateFixed rate)
           else ret RateDefault
       | None => ret RateDefault
       end
     else ret RateDefault) in
  let bandLoad :=
    {| BandPayload.midE6 := Num (rateE6 rate);
       BandPayload.widthBps := DEFAULT_BAND_WIDTH_BPS (process_env env);
       BandPayload.ts := Num (now loadTime) |} in
  let* seq := lift (BigInt (now loadTime)) in
  let priceLoad :=
    {| PricePayload.priceE6 := Num (rateE6 rate);
       PricePayload.seq := Big seq;
       PricePayload.ts := Num (now loadTime);
       PricePayload.hcsMsgId := zeroHash |} in
  let* tx3 := request (SetPrice ngnAsset priceLoad) (send env) in
  let* r3 := request (Wait tx3) (wait env) in
  exec console (log_fx_setPrice (hash tx3) (status r3)) in
  let* tx4 := request (SetBand ngnAsset bandLoad) (send env) in
  let* r4 := request (Wait tx4) (wait env) in
  exec console (log_fx_setBand (hash tx4) (status r4)) in
  ret (hash tx4).

(** The exchange-rate phase: [try { ... bandTxHash = tx4.hash }
    catch (error) { console.log(...) }]. *)
Definition fxPhase (loadTime : Z) (env : Env) (bandTxHash : option string)
  : M (option string) :=
  try_catch
    (let* h := fxUpdate loadTime env in ret (Some h))
    (fun error =>
       exec console (log_fx_failed error) in
       ret bandTxHash).

(** The statements of the handler up to the end of the band phase. *)
Definition equity (loadTime : Z) (env : Env)
  : M (Arrays * option string * option string) :=
  exec setup env in
  let* table := scrape env in
  let* acc := forEach (eachRow loadTime env) (flat_map bodyRows table)
                      noArrays in
  exec console (table_rows (rows acc)) in
  exec console (log_assets "Price assets:" (priceAssets acc)) in
  exec console (log_assets "Band assets:" (bandAssets acc)) in
  exec console (log_band_payloads (bandPayloads acc)) in
  let* priceTxHash := pricePhase env acc in
  let* bandTxHash := bandPhase env acc in
  ret (acc, priceTxHash, bandTxHash).

Definition GET (loadTime : Z) (env : Env) : History -> Response * History :=
  respond
    (let* (acc, priceTxHash, bandTxHash) := equity loadTime env in
     let* bandTxHash := fxPhase loadTime env bandTxHash in
     ret (Success (length (priceAssets acc)) (length (bandAssets acc))
                  priceTxHash bandTxHash
                  (DEFAULT_BAND_WIDTH_BPS (process_env env)))).

End RouteFirst.

(** ** route.js, second handler: every row reads the clock *)

Module RouteSecond.
Import JsString JsNumber Dom Helpers Pipeline.

Definition eachRow (env : Env) (acc : Arrays) (tr : Row) : M Arrays :=
  let vars := process_env env in
  match readRow vars tr with
  | Skipped => ret acc
  | Unmapped code =>
      exec console (warn_no_address code) in
      ret acc
  | Priced code price day ytd assetAddress =>
      let* ms := reading DateNow (dateNow env) in
      let now := seconds ms in
      let* pxE6 := lift (toE6 price) in
      let* seq := lift (BigInt now) in
      ret (pushRow acc code price day ytd assetAddress pxE6
                   (Big seq) (Num now) (DEFAULT_BAND_WIDTH_BPS vars))
  end.

Definition equity (env : Env)
  : M (Arrays * option string * option string) :=
  exec setup env in
  let* table := scrape env in
  let* acc := forEach (eachRow env) (flat_map bodyRows table) noArrays in
  exec console (table_rows (rows acc)) in
  exec console (log_count "Price assets:" (length (priceAssets acc))) in
  exec console (log_count "Band assets:" (length (bandAssets acc))) in
  let* priceTxHash := pricePhase env acc in
  let* bandTxHash := bandPhase env acc in
  ret (acc, priceTxHash, bandTxHash).

Definition GET (env : Env) : History -> Response * History :=
  respond
    (let* (acc, priceTxHash, bandTxHash) := equity env in
     ret (Success (length (priceAssets acc)) (length (bandAssets acc))
                  priceTxHash bandTxHash
                  (DEFAULT_BAND_WIDTH_BPS (process_env env)))).

End RouteSecond.

(** ** The handler with [nowSec]: one stamp per request *)

Module Part000.
Import JsString JsNumber Dom Helpers Pipeline.

(** A Number is truthy unless it is zero or NaN. *)
Definition truthy (x : Number) : bool :=
  match x with
  | S754_zero _ | S754_nan => false
  | _ => true
  end.

(** [nowSec(provider)]: the time of the latest block, or else the
    wall clock. *)
Definition nowSec (env : Env) : M Z :=
  let* chain :=
    try_catch
      (let* b := request GetBlock (getBlock env) in
       match b with
       | Some blk =>
           if truthy (timestamp blk)
           then let* t := lift (BigInt (timestamp blk)) in ret (Some t)
           else ret None
       | None => ret None
       end)
      (fun _ => ret None) in
  match chain with
  | Some t => ret t
  | None =>
      let* ms := reading DateNow (dateNow env) in
      lift (BigInt (seconds ms))
  end.

Definition eachRow (ts : Z) (env : Env) (acc : Arrays) (tr : Row)
  : M Arrays :=
  let vars := process_env env in
  match readRow vars tr with
  | Skipped => ret acc
  | Unmapped code =>
      exec console (warn_no_address code) in
      ret acc
  | Priced code price day ytd assetAddress =>
      let* pxE6 := lift (toE6 price) in
      ret (pushRow acc code price day ytd assetAddress pxE6
                   (Big ts) (Big ts) (DEFAULT_BAND_WIDTH_BPS vars))
  end.

(** The body of the [try] around the exchange-rate update. *)
Definition fxUpdate (env : Env) : M string :=
  let* tsFx := nowSec env in
  let* r := request (Fetch fxUrl) (fetch env) in
  let* rateNum :=
    (if fx_status r =? 200 then
       let* body := lift (fx_json r) in
       let priceUSD :=
         match body with
         | BodyData p => p
         | BodyNull | BodyNoData => None
         end in
       match priceUSD with
       | Some p =>
           if gtZero p then
             let rateNum := fdiv (ofZ 1) p in
             let rateNum := fdiv (Math_round (fmul rateNum (ofZ 100)))
                                 (ofZ 100) in
             exec console (log_fx_rate rateNum) in
             ret rateNum
           else ret (ofZ 1500)
       | None => ret (ofZ 1500)
       end
     else
       exec console (warn_fx_fallback (fx_status r) (ofZ 1500)) in
       ret (ofZ 1500)) in
  let* rateE6 := lift (toE6 rateNum) in
  let bandLoad :=
    {| BandPayload.midE6 := Big rateE6;
       BandPayload.widthBps := DEFAULT_BAND_WIDTH_BPS (process_env env);
       BandPayload.ts := Big tsFx |} in
  let priceLoad :=
    {| PricePayload.priceE6 := Big rateE6;
       PricePayload.seq := Big tsFx;
       PricePayload.ts := Big tsFx;
       PricePayload.hcsMsgId := zeroHash |} in
  let* tx3 := request (SetPrice ngnAsset priceLoad) (send env) in
  let* r3 := request (Wait tx3) (wait env) in
  exec console (log_fx_setPrice (hash tx3) (status r3)) in
  let* tx4 := request (SetBand ngnAsset bandLoad) (send env) in
  let* r4 := request (Wait tx4) (wait env) in
  exec console (log_fx_setBand (hash tx4) (status r4)) in
  ret (hash tx4).

Definition fxPhase (env : Env) (bandTxHash : option string)
  : M (option string) :=
  try_catch
    (let* h := fxUpdate env in ret (Some h))
    (fun error =>
       exec console (log_fx_failed error) in
       ret bandTxHash).

(** The freshness audit: [try { ... } catch (e) { }]. *)
Definition audit (env : Env) (acc : Arrays) : M unit :=
  try_catch
    (let* maxStale := request MaxStaleness (maxStaleness env) in
     let* nowChain := nowSec env in
     forEach
       (fun (_ : unit) a =>
          let* b := request (GetBand a) (getBand env) in
          let fresh := nowChain <=? band_ts b + maxStale in
          console (log_freshness a (band_ts b) fresh))
       (bandAssets acc) tt)
    (fun _ => ret tt).

(** The statements of the handler up to the end of the band phase. *)
Definition equity (env : Env)
  : M (Arrays * option string * option string) :=
  exec setup env in
  let* table := scrape env in
  let* ts := nowSec env in
  let* acc := forEach (eachRow ts env) (flat_map bodyRows table) noArrays in
  exec console (table_rows (rows acc)) in
  exec console (log_count "Price assets:" (length (priceAssets acc))) in
  exec console (log_count "Band assets:" (length (bandAssets acc))) in
  let* priceTxHash := pricePhase env acc in
  let* bandTxHash := bandPhase env acc in
  ret (acc, priceTxHash, bandTxHash).

Definition GET (env : Env) : History -> Response * History :=
  respond
    (let* (acc, priceTxHash, bandTxHash) := equity env in
     let* bandTxHash := fxPhase env bandTxHash in
     exec audit env acc in
     ret (Success (length (priceAssets acc)) (length (bandAssets acc))
                  priceTxHash bandTxHash
                  (DEFAULT_BAND_WIDTH_BPS (process_env env)))).

End Part000.

(** ** The handler that only sets prices *)

Module Part001.
Import JsString JsNumber Dom Helpers Pipeline.

Record Arrays := {
  rows : list TickerRow.t;
  assets : list string;
  payloads : list PricePayload.t
}.

Definition noArrays : Arrays :=
  {| rows := []; assets := []; payloads := [] |}.

(** The scrape of this file: its check is [if (!$table)], and a
    selection, empty or not, is an object. *)
Definition scrape (env : Env) : M (list Table) :=
  let* doc := request (AxiosGet URL) (axiosGet env) in
  ret (locateTable doc).

Definition eachRow (env : Env) (acc : Arrays) (tr : Row) : M Arrays :=
  let vars := process_env env in
  match readRow vars tr with
  | Skipped => ret acc
  | Unmapped code =>
      exec console (warn_no_address code) in
      ret acc
  | Priced code price day ytd assetAddress =>
      let* ms := reading DateNow (dateNow env) in
      let now := seconds ms in
      let* pxE6 := lift (toE6 price) in
      let* seq := lift (BigInt now) in
      ret {| rows := rows acc ++ [ {| TickerRow.ticker := code; TickerRow.price := price;
                                      TickerRow.day := day; TickerRow.ytd := ytd |} ];
             assets := assets acc ++ [assetAddress];
             payloads := payloads acc ++
               [ {| PricePayload.priceE6 := Big pxE6;
                    PricePayload.seq := Big seq;
                    PricePayload.ts := Num now;
                    PricePayload.hcsMsgId := zeroHash |} ] |}
  end.

Definition GET (env : Env) : History -> Response * History :=
  respond
    (exec setup env in
     let* table := scrape env in
     let* acc := forEach (eachRow env) (flat_map bodyRows table) noArrays in
     exec console (table_rows (rows acc)) in
     exec console (log_price_payloads (assets acc) (payloads acc)) in
     exec (if (0 <? length (assets acc))%nat then
             let* tx := request (SetPrices (assets acc) (payloads acc))
                                (send env) in
             let* _ := request (Wait tx) (wait env) in
             console (log_oracle_updated (hash tx))
           else console warn_no_prices) in
     ret (SuccessCount (length (assets acc)))).

End Part001.

(** ** Notions used to state the properties *)

Module NumberSpec.
Import JsNumber.

(** A finite Number is well formed when its mantissa fits in 53 bits;
    every result of the arithmetic is. *)
Definition wellFormed (x : Number) : Prop :=
  match x with
  | S754_finite _ m _ => Zpos (digits2_pos m) <= prec
  | _ => True
  end.

Definition signOf (x : Number) : option bool :=
  match x with
  | S754_zero s | S754_infinity s | S754_finite s _ _ => Some s
  | S754_nan => None
  end.

(** The integer nearest to a finite Number, ties towards +infinity. *)
Definition nearestInteger (x : Number) : Z :=
  match x with
  | S754_finite s m e => roundHalfUp s m e
  | _ => 0
  end.

(** The largest integer not above a finite Number. *)
Definition floorInteger (x : Number) : Z :=
  match x with
  | S754_finite s m e => floorZ s m e
  | _ => 0
  end.


(** The Number nearest to the rational [num / den] with [den] a power
    of ten [10 ^ k]: what a decimal literal denotes. *)
Definition literal (neg : bool) (num k : Z) : Number := ofDecimal neg num (- k).

End NumberSpec.

Module HelpersSpec.
Import JsString JsNumber Helpers.

(** The percentage parser in the words of its specification: white
    space, commas and [%] are removed everywhere, a [+] only where it
    leads. *)
Definition isPercentNoiseDescribed (c : ascii) : bool :=
  isWhiteSpace c || Ascii.eqb c "," || Ascii.eqb c "%".

Definition isPlus (c : ascii) : bool := Ascii.eqb c "+".

Definition dropLeadingPlus (s : string) : string :=
  match s with
  | String c r => if isPlus c then r else s
  | EmptyString => EmptyString
  end.

Definition parsePercent_described (txt : string) : option Number :=
  let t := dropLeadingPlus (trim (removeAll isPercentNoiseDescribed txt)) in
  if String.eqb t "-" || isEmpty t then None
  else
    let neg := startsWithMinus (trim txt) in
    let num := ofString (dropLeadingMinus t) in
    if negb (isFinite num) then None
    else Some (fmul (fdiv num (ofZ 100)) (if neg then ofZ (-1) else ofZ 1)).

(** No character of [s] satisfies [p]. *)
Fixpoint noneOf (p : ascii -> bool) (s : string) : bool :=
  match s with
  | EmptyString => true
  | String c r => negb (p c) && noneOf p r
  end.

End HelpersSpec.

Module PipelineSpec.
Import JsString JsNumber Dom Helpers Pipeline.

(** The ticker code the row callback extracts from a row. *)
Definition rowCode (tr : Row) : string :=
  extractCode (orEmpty (firstHref (tds tr))).

Definition inWatchlist (tr : Row) : bool :=
  negb (isEmpty (rowCode tr)) && TARGET_SET_has (rowCode tr).

(** The locator in the words of its specification: it looks at the
    cells of the first row of the table header. *)
Definition firstHeaderRow (tbl : Table) : list Cell :=
  match List.filter isTHEAD tbl with
  | g :: _ => match group_rows g with
              | r :: _ => r
              | [] => []
              end
  | [] => []
  end.

Definition isListingsTable_described (tbl : Table) : bool :=
  let headers := firstHeaderRow tbl in
  let texts := List.map (fun h => toLowerCase (cell_text h)) headers in
  (5 <=? length headers)%nat
  && existsb (fun t => includes t "company") texts
  && existsb (fun t => includes t "price") texts.

(** A table whose only header cells are those of the single row of the
    [thead] it starts with. *)
Definition plainGroup (g : Group) : bool :=
  negb (isTHEAD g) && forallb (forallb isTD) (group_rows g).

Definition plainTable (tbl : Table) : bool :=
  match tbl with
  | g :: rest =>
      isTHEAD g
      && match group_rows g with [_] => true | _ => false end
      && forallb plainGroup rest
  | [] => false
  end.

(** The rows that pass the watchlist filter, the price parsing and the
    asset lookup, with what the callback read from them. *)
Record PricedRow := {
  pr_code : string;
  pr_price : Number;
  pr_day : option Number;
  pr_ytd : option Number;
  pr_asset : string
}.

Definition pricedRow (vars : gmap string string) (tr : Row) : option PricedRow :=
  match readRow vars tr with
  | Priced code price day ytd assetAddress =>
      Some {| pr_code := code; pr_price := price; pr_day := day;
              pr_ytd := ytd; pr_asset := assetAddress |}
  | _ => None
  end.

Definition pricedRows (vars : gmap string string) (trs : list Row)
  : list PricedRow :=
  omap (pricedRow vars) trs.

(** [price * 1e6] *)
Definition scaled (price : Number) : Number := fmul price million.

(** The events of a history in the order in which they happened. *)
Definition chronological (h : History) : list Event := rev h.

(** The per-asset band calls of a list of events. *)
Definition bandCalls (evs : list Event) : list (string * BandPayload.t) :=
  omap (fun ev => match ev with
                  | SetBand a p => Some (a, p)
                  | _ => None
                  end) evs.

(** The arrays after the pushes for a list of priced rows. *)
Definition pushPriced (seq stamp : Numeric) (width : Number)
    (acc : Arrays) (r : PricedRow) : Arrays :=
  pushRow acc (pr_code r) (pr_price r) (pr_day r) (pr_ytd r) (pr_asset r)
          (NumberSpec.nearestInteger (scaled (pr_price r))) seq stamp width.

Definition unmappedCode (vars : gmap string string) (tr : Row) : option string :=
  match readRow vars tr with
  | Unmapped code => Some code
  | _ => None
  end.

(** The warnings of the loop, latest first. *)
Definition warningsOf (vars : gmap string string) (trs : list Row) : History :=
  List.map (fun code => Print (warn_no_address code))
           (rev (omap (unmappedCode vars) trs)).

Definition finitelyScaled (r : PricedRow) : Prop :=
  isFinite (scaled (pr_price r)) = true.

End PipelineSpec.

Module FxSpec.
Import Pipeline.

(** The update ends with the band call for the synthetic asset, its
    confirmation and a line on the console; its value is the hash of that
    call's transaction. *)
Definition endsWithFxBand (env : Env) (x : string) (h : History) : Prop :=
  exists payload before tx receipt,
    h = Print (log_fx_setBand (hash tx) (status receipt))
          :: Wait tx :: SetBand ngnAsset payload :: before
    /\ send env (SetBand ngnAsset payload :: before) = Ok tx
    /\ x = hash tx.

End FxSpec.

Module StampSpec.
Import JsNumber Pipeline.

(** The time of the latest block as [nowSec] takes it at history [h]:
    the block can be read, its timestamp is truthy and is an integer. *)
Definition chainTime (env : Env) (h : History) : option Z :=
  match getBlock env (GetBlock :: h) with
  | Ok (Some blk) =>
      if Part000.truthy (timestamp blk) then toInteger (timestamp blk)
      else None
  | _ => None
  end.

(** The wall clock in seconds, read after a failed reading of the
    chain. *)
Definition wallTime (env : Env) (h : History) : Res Z :=
  BigInt (seconds (dateNow env (DateNow :: GetBlock :: h))).



End StampSpec.

Module PayloadSpec.
Import JsNumber Dom Pipeline PipelineSpec.

(** A price payload whose fixed-point price is a BigInt that is not
    negative. *)
Definition nonnegPayload (p : PricePayload.t) : Prop :=
  exists z, PricePayload.priceE6 p = Big z /\ 0 <= z.

Definition notNegative (r : PricedRow) : Prop :=
  isNegative (pr_price r) = false.

(** The fixed-point price of a priced row: the integer nearest to
    [price * 1e6]. *)
Definition fixedPrice (r : PricedRow) : Z :=
  NumberSpec.nearestInteger (scaled (pr_price r)).

(** The payload [p], built for the priced row [r], has a fixed-point
    price that is not negative if the price of the row is not
    negative. *)
Definition nonnegFor (r : PricedRow) (p : PricePayload.t) : Prop :=
  notNegative r -> nonnegPayload p.

(** What a turn of a row callback does to its price payloads when it
    returns: nothing for a row that does not pass, one push for a row
    that does, of a payload that is not negative if the price of the
    row is not. *)
Definition buildsNonneg {A : Type} (payloadsOf : A -> list PricePayload.t)
    (vars : gmap string string) (body : A -> Row -> M A) : Prop :=
  forall acc tr h acc' h',
    body acc tr h = (Ok acc', h') ->
    match pricedRow vars tr with
    | None => payloadsOf acc' = payloadsOf acc
    | Some r =>
        exists p, payloadsOf acc' = payloadsOf acc ++ [p] /\ nonnegFor r p
    end.

End PayloadSpec.

Module BandSpec.
Import JsNumber Dom Pipeline PipelineSpec.

(** The turns of the per-asset loop that are completed: after [i] of them
    the history is [h] and [bandTxHash] is [last].  Each turn is a call
    for the asset at its index, answered with a transaction, then the
    wait for that transaction, answered with a receipt. *)
Inductive Turns (env : Env) (acc : Arrays) (h0 : History)
  : nat -> History -> option string -> Prop :=
| turns_none : Turns env acc h0 0 h0 None
| turns_next i h last asset payload tx receipt :
    Turns env acc h0 i h last ->
    bandAssets acc !! i = Some asset ->
    bandPayloads acc !! i = Some payload ->
    send env (SetBand asset payload :: h) = Ok tx ->
    wait env (Wait tx :: SetBand asset payload :: h) = Ok receipt ->
    Turns env acc h0 (S i)
      (Print (log_setBand (S i) (length (bandAssets acc))
                          (hash tx) (status receipt))
         :: Wait tx :: SetBand asset payload :: h)
      (Some (hash tx)).

(** The turn for index [i], begun at history [h], fails with [e] and
    leaves the history [h']: the call is rejected, or its confirmation
    is. *)
Inductive FailedTurn (env : Env) (acc : Arrays) (i : nat) (h : History)
    (e : Exn) : History -> Prop :=
| failed_call asset payload :
    bandAssets acc !! i = Some asset ->
    bandPayloads acc !! i = Some payload ->
    send env (SetBand asset payload :: h) = Throw e ->
    FailedTurn env acc i h e (SetBand asset payload :: h)
| failed_wait asset payload tx :
    bandAssets acc !! i = Some asset ->
    bandPayloads acc !! i = Some payload ->
    send env (SetBand asset payload :: h) = Ok tx ->
    wait env (Wait tx :: SetBand asset payload :: h) = Throw e ->
    FailedTurn env acc i h e (Wait tx :: SetBand asset payload :: h).

(** The band phase falls back to the loop, which starts at history
    [start]: the bulk call is not supported, or it threw. *)
Inductive Fallback (env : Env) (acc : Arrays) (h : History)
  : History -> Prop :=
| fallback_unsupported :
    hasSetBands env = false ->
    Fallback env acc h (Print warn_no_setBands :: h)
| fallback_threw e h' :
    hasSetBands env = true ->
    setBandsCall env acc h = (Throw e, h') ->
    Fallback env acc h (Print (warn_setBands_failed e) :: h').

(** The events of [h'] that came after [h]. *)
Definition since (h h' : History) : list Event :=
  chronological (take (length h' - length h) h').

(** The outcome of the loop: all turns completed, or some completed and
    the next failed. *)
Definition loopOutcome (env : Env) (acc : Arrays) (start : History)
    (out : Res (option string) * History) : Prop :=
  let n := length (bandAssets acc) in
  match out with
  | (Ok last, h') => Turns env acc start n h' last
  | (Throw e, h') =>
      exists i hi last,
        (i < n)%nat /\ Turns env acc start i hi last
        /\ FailedTurn env acc i hi e h'
  end.

(** What the band phase comes to when it falls back to the loop that
    starts at [start].  If it returns, every asset had its turn, the
    per-asset calls since [start] are those for all assets in their
    order, and [bandTxHash] is the hash of the transaction that answered
    the call for the last asset.  If it throws, the turn of some asset
    failed after the turns of the assets before it, and the calls since
    [start] are those for the assets up to and including that one. *)
Definition fallbackOutcome (env : Env) (acc : Arrays) (start : History)
    (out : Res (option string) * History) : Prop :=
  let n := length (bandAssets acc) in
  let pairs := zip (bandAssets acc) (bandPayloads acc) in
  match out with
  | (Ok last, h') =>
      Turns env acc start n h' last
      /\ bandCalls (since start h') = pairs
      /\ exists asset payload before tx,
           bandAssets acc !! (n - 1)%nat = Some asset
           /\ bandPayloads acc !! (n - 1)%nat = Some payload
           /\ send env (SetBand asset payload :: before) = Ok tx
           /\ last = Some (hash tx)
  | (Throw e, h') =>
      exists i hi last,
        (i < n)%nat /\ Turns env acc start i hi last
        /\ FailedTurn env acc i hi e h'
        /\ bandCalls (since start h') = take (S i) pairs
  end.

(** The arrays are built by pushes of rows whose stamps satisfy [P]. *)
Inductive Built (P : Numeric -> Numeric -> Prop) (acc0 : Arrays)
  : Arrays -> Prop :=
| built_none : Built P acc0 acc0
| built_push acc code price day ytd asset pxE6 seq stamp width :
    Built P acc0 acc -> P seq stamp ->
    Built P acc0 (pushRow acc code price day ytd asset pxE6 seq stamp width).


(** The five arrays have one length. *)
Definition aligned (acc : Arrays) : Prop :=
  length (priceAssets acc) = length (rows acc)
  /\ length (pricePayloads acc) = length (rows acc)
  /\ length (bandAssets acc) = length (rows acc)
  /\ length (bandPayloads acc) = length (rows acc).


End BandSpec.

(** ** Pages and environments for the examples *)

Module Examples.
Import JsString JsNumber Dom Helpers Pipeline.

Definition td (t : string) : Cell :=
  {| cell_tag := TD; cell_text := t; cell_links := [] |}.
Definition th (t : string) : Cell :=
  {| cell_tag := TH; cell_text := t; cell_links := [] |}.
Definition linked (t href : string) : Cell :=
  {| cell_tag := TD; cell_text := t; cell_links := [Some href] |}.

Definition listingRow (name code priceText dayText ytdText : string) : Row :=
  [ linked name ("/en/stock-markets/ngse/listed-companies/company?code=" +:+ code);
    td "Sector"; td priceText; td dayText; td ytdText ].

Definition header : Row :=
  [ th "Company"; th "Sector"; th "Price"; th "1D"; th "YTD" ].

Definition listing (trs : list Row) : Table :=
  [ {| group_tag := THEAD; group_rows := [header] |};
    {| group_tag := TBODY; group_rows := trs |} ].

Definition mtnn : Row := listingRow "MTN Nigeria" "mtnn" "250.50" "+1.20%" "-3.40%".
Definition uba : Row := listingRow "UBA" "UBA" "1,020.5" "-" "".
Definition zenith : Row := listingRow "Zenith Bank" "ZENITHBANK" "38.2" "0.00%" "+4.1%".
Definition outsider : Row := listingRow "Other Plc" "XYZ" "12.00" "+1.20%" "-3.40%".
Definition overflowing : Row := listingRow "MTN Nigeria" "MTNN" "1e305" "-" "-".
Definition negative : Row := listingRow "MTN Nigeria" "MTNN" "-5" "-" "-".

(** Two header cells in the header row, three more [th] cells in the
    body. *)
Definition sideHeaders : Table :=
  [ {| group_tag := THEAD; group_rows := [[th "Company"; th "Price"]] |};
    {| group_tag := TBODY;
       group_rows := [[th "a"; td "1"]; [th "b"; td "2"]; [th "c"; td "3"]] |} ].

Definition vars : gmap string string :=
  {[ "PRIVATE_KEY" := "0xkey"; "MTNN" := "0xAAA"; "ZENITHBANK" := "0xBBB" ]}.

Definition txOf (h : History) : Res Tx :=
  Ok {| hash := "tx" +:+ pretty (length h) |}.

Definition rate : FxResponse :=
  {| fx_status := 200;
     fx_json := Ok (BodyData (Some (ofString "0.00065"))) |}.

(** An environment in which every request succeeds, for a page, a clock
    and an answer to the oracle writes. *)
Definition world (doc : Document) (clock : History -> Z)
    (bulk : bool) (sending : History -> Res Tx)
    (fetching : History -> Res FxResponse) : Env :=
  {| process_env := vars;
     dateNow := clock;
     connect := fun _ => Ok tt;
     axiosGet := fun _ => Ok doc;
     getBlock := fun _ => Ok (Some {| timestamp := ofZ 1700000001 |});
     hasSetBands := bulk;
     send := sending;
     wait := fun _ => Ok {| status := 1 |};
     fetch := fetching;
     maxStaleness := fun _ => Ok 3600;
     getBand := fun _ => Ok {| band_ts := 1700000001 |} |}.

Definition steady : History -> Z := fun _ => 1700000000999.


Definition calm (doc : Document) : Env :=
  world doc steady false txOf (fun _ => Ok rate).

(** Every per-asset band call is rejected. *)
Definition rejectBand (h : History) : Res Tx :=
  match h with
  | SetBand _ _ :: _ => Throw (Error "execution reverted")
  | _ => txOf h
  end.

(** The bulk band call is rejected. *)
Definition rejectBands (h : History) : Res Tx :=
  match h with
  | SetBands _ _ :: _ => Throw (Error "execution reverted")
  | _ => txOf h
  end.

Definition offline : History -> Res FxResponse :=
  fun _ => Throw (Error "fetch failed").

End Examples.

(** ** Notions for the handlers as wholes *)

Module HandlerSpec.
Import JsString JsNumber Dom Helpers Pipeline PipelineSpec.

(** A request that writes to the oracle. *)
Definition isWrite (ev : Event) : bool :=
  match ev with
  | SetPrices _ _ | SetBands _ _ | SetBand _ _ | SetPrice _ _ => true
  | _ => false
  end.

(** The request that [setup] makes with the private key [key]. *)
Definition connectEvent (vars : gmap string string) (key : string) : Event :=
  Connect (envOr vars "RPC_URL" "https://testnet.hashio.io/api")
          (match envTruthy vars "CHAIN_ID" with
           | Some v => parseInt10 v
           | None => ofZ 296
           end)
          key (vars !! "ORACLEHUB_CONTRACT").

(** The statements of a handler up to the end of its loop over the rows
    and the console output that follows it: the part of [equity] before
    the price phase. *)
Definition gatherFirst (loadTime : Z) (env : Env) : M Arrays :=
  exec setup env in
  let* table := scrape env in
  let* acc := forEach (RouteFirst.eachRow loadTime env)
                      (flat_map bodyRows table) noArrays in
  exec console (table_rows (rows acc)) in
  exec console (log_assets "Price assets:" (priceAssets acc)) in
  exec console (log_assets "Band assets:" (bandAssets acc)) in
  exec console (log_band_payloads (bandPayloads acc)) in
  ret acc.

Definition gatherSecond (env : Env) : M Arrays :=
  exec setup env in
  let* table := scrape env in
  let* acc := forEach (RouteSecond.eachRow env)
                      (flat_map bodyRows table) noArrays in
  exec console (table_rows (rows acc)) in
  exec console (log_count "Price assets:" (length (priceAssets acc))) in
  exec console (log_count "Band assets:" (length (bandAssets acc))) in
  ret acc.

Definition gather000 (env : Env) : M Arrays :=
  exec setup env in
  let* table := scrape env in
  let* ts := Part000.nowSec env in
  let* acc := forEach (Part000.eachRow ts env)
                      (flat_map bodyRows table) noArrays in
  exec console (table_rows (rows acc)) in
  exec console (log_count "Price assets:" (length (priceAssets acc))) in
  exec console (log_count "Band assets:" (length (bandAssets acc))) in
  ret acc.

(** The two write phases, after the arrays are gathered. *)
Definition submit (env : Env) (acc : Arrays)
  : M (Arrays * option string * option string) :=
  let* priceTxHash := pricePhase env acc in
  let* bandTxHash := bandPhase env acc in
  ret (acc, priceTxHash, bandTxHash).

(** The integer that a payload field denotes. *)
Definition instant (x : Numeric) : option Z :=
  match x with
  | Big z => Some z
  | Num n => toInteger n
  end.

(** The sequence number is a BigInt, and the timestamp denotes the same
    integer. *)
Definition sameInstant (seq stamp : Numeric) : Prop :=
  exists z, seq = Big z /\ instant stamp = Some z.

(** The arrays hold, row by row, what the callback pushes for rows of
    the watchlist that have a configured address and a fixed-point
    price, with the band width [width]. *)
Inductive Collected (vars : gmap string string) (width : Number)
  : Arrays -> Prop :=
| collected_none : Collected vars width noArrays
| collected_push acc code price day ytd asset pxE6 seq stamp :
    Collected vars width acc ->
    TARGET_SET_has code = true ->
    envTruthy vars code = Some asset ->
    toE6 price = Ok pxE6 ->
    sameInstant seq stamp ->
    Collected vars width
      (pushRow acc code price day ytd asset pxE6 seq stamp width).

(** The row callback, when it returns, has pushed one such row or
    nothing. *)
Definition collects (vars : gmap string string) (width : Number)
    (body : Arrays -> Row -> M Arrays) : Prop :=
  forall acc tr h acc' h',
    body acc tr h = (Ok acc', h') ->
    acc' = acc
    \/ exists code price day ytd asset pxE6 seq stamp,
         TARGET_SET_has code = true
         /\ envTruthy vars code = Some asset
         /\ toE6 price = Ok pxE6
         /\ sameInstant seq stamp
         /\ acc' = pushRow acc code price day ytd asset pxE6 seq stamp width.

(** The entries at index [i] of the five arrays belong to one row: a
    ticker of the watchlist, the address configured for it in both
    asset arrays, the fixed-point price of the row's price in both
    payloads, the zero hash, the band width [width], one timestamp, and
    a sequence number that is that timestamp. *)
Definition entryAt (vars : gmap string string) (width : Number)
    (acc : Arrays) (i : nat) : Prop :=
  exists row asset p b z,
    rows acc !! i = Some row
    /\ priceAssets acc !! i = Some asset
    /\ bandAssets acc !! i = Some asset
    /\ pricePayloads acc !! i = Some p
    /\ bandPayloads acc !! i = Some b
    /\ TARGET_SET_has (TickerRow.ticker row) = true
    /\ envTruthy vars (TickerRow.ticker row) = Some asset
    /\ toE6 (TickerRow.price row) = Ok z
    /\ PricePayload.priceE6 p = Big z
    /\ BandPayload.midE6 b = Big z
    /\ PricePayload.hcsMsgId p = zeroHash
    /\ BandPayload.widthBps b = width
    /\ BandPayload.ts b = PricePayload.ts p
    /\ sameInstant (PricePayload.seq p) (PricePayload.ts p).

Definition rowByRow (vars : gmap string string) (width : Number)
    (acc : Arrays) : Prop :=
  BandSpec.aligned acc
  /\ forall i, (i < length (rows acc))%nat -> entryAt vars width acc i.

(** How the price phase can fail after history [h1], leaving [h2]: the
    call is rejected, or its confirmation is. *)
Definition priceFailure (acc : Arrays) (h1 h2 : History) : Prop :=
  let call := SetPrices (priceAssets acc) (pricePayloads acc) in
  h2 = call :: h1 \/ exists tx, h2 = Wait tx :: call :: h1.

End HandlerSpec.

(** ** Environments in which a step fails *)

Module Scenarios.
Import JsString JsNumber Dom Helpers Pipeline Examples.

(** The environment [base] with other variables. *)
Definition withVars (vs : gmap string string) (base : Env) : Env :=
  {| process_env := vs;
     dateNow := dateNow base;
     connect := connect base;
     axiosGet := axiosGet base;
     getBlock := getBlock base;
     hasSetBands := hasSetBands base;
     send := send base;
     wait := wait base;
     fetch := fetch base;
     maxStaleness := maxStaleness base;
     getBand := getBand base |}.

(** No private key is configured. *)
Definition keyless : Env :=
  withVars {[ "MTNN" := "0xAAA" ]} (calm [listing [mtnn]]).

(** The RPC endpoint cannot be reached. *)
Definition disconnected : Env :=
  {| process_env := vars;
     dateNow := steady;
     connect := fun _ => Throw (Error "could not detect network");
     axiosGet := fun _ => Ok [listing [mtnn]];
     getBlock := fun _ => Ok None;
     hasSetBands := false;
     send := txOf;
     wait := fun _ => Ok {| status := 1 |};
     fetch := fun _ => Ok rate;
     maxStaleness := fun _ => Ok 3600;
     getBand := fun _ => Ok {| band_ts := 1700000001 |} |}.

(** The page cannot be fetched. *)
Definition pageDown : Env :=
  {| process_env := vars;
     dateNow := steady;
     connect := fun _ => Ok tt;
     axiosGet := fun _ => Throw (Error "Request failed with status code 503");
     getBlock := fun _ => Ok None;
     hasSetBands := false;
     send := txOf;
     wait := fun _ => Ok {| status := 1 |};
     fetch := fun _ => Ok rate;
     maxStaleness := fun _ => Ok 3600;
     getBand := fun _ => Ok {| band_ts := 1700000001 |} |}.

(** The bulk price call is rejected. *)
Definition rejectPrices (h : History) : Res Tx :=
  match h with
  | SetPrices _ _ :: _ => Throw (Error "execution reverted")
  | _ => txOf h
  end.

Definition pricesRejected : Env :=
  world [listing [mtnn; zenith]] steady true rejectPrices (fun _ => Ok rate).

(** The exchange-rate service refuses the request. *)
Definition rateLimited : History -> Res FxResponse :=
  fun _ => Ok {| fx_status := 429;
                 fx_json := Throw (Error "Unexpected end of JSON input") |}.

(** The exchange-rate service answers with an object that has no
    [data]. *)
Definition withoutData : History -> Res FxResponse :=
  fun _ => Ok {| fx_status := 200; fx_json := Ok BodyNoData |}.

Definition fxRefused : Env :=
  world [listing [mtnn]] steady true txOf rateLimited.

Definition fxWithoutData : Env :=
  world [listing [mtnn]] steady true txOf withoutData.

End Scenarios.

(** ** Notions for the edge cases of the helpers *)

Module EdgeSpec.
Import JsString JsNumber Dom Helpers HelpersSpec.

(** A character outside ASCII. *)
Definition notAscii (c : ascii) : bool := 128 <=? code c.

(** An ASCII text: on such a text [toUpperCase] and [toLowerCase] are
    the case mappings of JavaScript. *)
Definition isAsciiText (s : string) : bool := noneOf notAscii s.

Definition isQuestion (c : ascii) : bool := Ascii.eqb c "?".

(** The characters with a meaning of their own in a query string. *)
Definition isReserved (c : ascii) : bool :=
  Ascii.eqb c "?" || Ascii.eqb c "&" || Ascii.eqb c "="
  || Ascii.eqb c "+" || Ascii.eqb c "%".

(** The table with [f] applied to the text of every cell. *)
Definition mapCell (f : string -> string) (c : Cell) : Cell :=
  {| cell_tag := cell_tag c; cell_text := f (cell_text c);
     cell_links := cell_links c |}.

Definition mapTexts (f : string -> string) (tbl : Table) : Table :=
  List.map (fun g => {| group_tag := group_tag g;
                        group_rows := List.map (List.map (mapCell f))
                                               (group_rows g) |})
           tbl.

(** Every cell of the table has an ASCII text. *)
Definition asciiTexts (tbl : Table) : bool :=
  forallb (fun g =>
             forallb (forallb (fun c => isAsciiText (cell_text c)))
                     (group_rows g))
          tbl.

End EdgeSpec.

(** ** Notions for what a part of a handler writes *)

Module EffectSpec.
Import JsString JsNumber Dom Helpers Pipeline HandlerSpec.

(** The oracle writes of a history. *)
Definition writesOf (h : History) : list Event := List.filter isWrite h.

(** A computation that writes nothing to the oracle, whether it returns
    or throws. *)
Definition quiet {A} (m : M A) : Prop :=
  forall h, writesOf (snd (m h)) = writesOf h.

(** The answer of the exchange-rate service gives no usable price: the
    status is not 200, or the body is [null], or it has no price, or a
    price that is not above zero. *)
Definition noRate (r : FxResponse) : Prop :=
  fx_status r <> 200
  \/ fx_json r = Ok BodyNull
  \/ fx_json r = Ok (BodyData None)
  \/ exists p, fx_json r = Ok (BodyData (Some p)) /\ gtZero p = false.

(** The first oracle write that happened after history [h] in [h']. *)
Definition firstWriteSince (h h' : History) : option Event :=
  head (List.filter isWrite (BandSpec.since h h')).

(** The price payload and the band payload of the exchange-rate update
    agree: one mid, one timestamp, a sequence number that is the
    timestamp, the zero hash and the band width [width]. *)
Definition fxAgree (width : Number) (p : PricePayload.t) (b : BandPayload.t)
  : Prop :=
  BandPayload.midE6 b = PricePayload.priceE6 p
  /\ BandPayload.ts b = PricePayload.ts p
  /\ BandPayload.widthBps b = width
  /\ PricePayload.hcsMsgId p = zeroHash
  /\ sameInstant (PricePayload.seq p) (PricePayload.ts p).

End EffectSpec.

(** ** Notions for the events of the loop over the rows *)

Module LoopSpec.
Import JsString JsNumber Dom Helpers Pipeline PipelineSpec HandlerSpec EffectSpec.

(** What the row callback of the handlers with one stamp leaves in the
    history for a row: a warning for a row of the watchlist that has a
    price and no configured address, nothing for any other row. *)
Definition rowEvents (vars : gmap string string) (tr : Row) : list Event :=
  match readRow vars tr with
  | Unmapped code => [Print (warn_no_address code)]
  | _ => []
  end.

(** The same for the callbacks that stamp each row: these read the
    clock for a row that they push. *)
Definition rowEventsClocked (vars : gmap string string) (tr : Row)
  : list Event :=
  match readRow vars tr with
  | Unmapped code => [Print (warn_no_address code)]
  | Priced _ _ _ _ _ => [DateNow]
  | Skipped => []
  end.

(** The row, if it is priced, has a price whose product with 1e6 is
    finite. *)
Definition finitelyScaledRow (vars : gmap string string) (tr : Row) : Prop :=
  match pricedRow vars tr with
  | Some r => finitelyScaled r
  | None => True
  end.

(** The events of a loop over [trs], latest first. *)
Definition loopEvents (events : Row -> list Event) (trs : list Row)
  : History :=
  rev (flat_map events trs).

(** The computation writes nothing, or it makes one bulk price call and
    no other write. *)
Definition atMostPrices {X} (m : History -> X * History) : Prop :=
  forall h,
    writesOf (snd (m h)) = writesOf h
    \/ exists assets payloads,
         writesOf (snd (m h)) = SetPrices assets payloads :: writesOf h.

End LoopSpec.

(** ** Numbers that are integers *)

Module ExactSpec.
Import JsNumber.

(** The Number [x] is the integer [n], exactly. *)
Definition integral (x : Number) (n : Z) : Prop :=
  match x with
  | S754_zero _ => n = 0
  | S754_finite s m e => e <= 0 /\ cond_Zopp s (Zpos m) = n * 2 ^ (- e)
  | S754_infinity _ | S754_nan => False
  end.

(** A text of decimal digits, at least one. *)
Fixpoint allDigits (s : string) : bool :=
  match s with
  | EmptyString => true
  | String c r => JsString.isDigit c && allDigits r
  end.

Definition isWhole (s : string) : bool :=
  negb (JsString.isEmpty s) && allDigits s.

End ExactSpec.

(** ** Notions for the payloads of one row *)

Module RowSpec.
Import JsString JsNumber Dom Helpers Pipeline.

(** The row callback has pushed one row with the asset [asset] and the
    fixed-point price [n], in the price payload and as the band's
    mid. *)
Definition pushedExactly (acc acc' : Arrays) (asset : string) (n : Z) : Prop :=
  exists p b,
    priceAssets acc' = priceAssets acc ++ [asset]
    /\ bandAssets acc' = bandAssets acc ++ [asset]
    /\ pricePayloads acc' = pricePayloads acc ++ [p]
    /\ bandPayloads acc' = bandPayloads acc ++ [b]
    /\ PricePayload.priceE6 p = Big n
    /\ BandPayload.midE6 b = Big n.

(** The same for the handler that only sets prices. *)
Definition pushedPriceOnly (acc acc' : Part001.Arrays) (asset : string)
    (n : Z) : Prop :=
  exists p,
    Part001.assets acc' = Part001.assets acc ++ [asset]
    /\ Part001.payloads acc' = Part001.payloads acc ++ [p]
    /\ PricePayload.priceE6 p = Big n.

End RowSpec.

(** ** The numeric literals that [Number] converts *)

Module LiteralSpec.
Import JsString JsNumber ExactSpec.

(** An optional sign: nothing, [+] or [-]; [true] stands for [-]. *)
Inductive Sign : string -> bool -> Prop :=
| sign_none : Sign "" false
| sign_plus : Sign "+" false
| sign_minus : Sign "-" true.

(** An optional exponent part and the exponent it denotes: [e] or [E],
    an optional sign and at least one digit. *)
Inductive Exponent : string -> Z -> Prop :=
| exponent_none : Exponent "" 0
| exponent_part (c : ascii) sg neg ds :
    c = "e"%char \/ c = "E"%char ->
    Sign sg neg ->
    isWhole ds = true ->
    Exponent (String c (sg +:+ ds)) (cond_Zopp neg (digitsValue ds)).

(** An optional fraction and its digits: a point and digits, possibly
    none. *)
Inductive Fraction : string -> string -> Prop :=
| fraction_none : Fraction "" ""
| fraction_point fp : allDigits fp = true -> Fraction (String "." fp) fp.

(** A decimal literal and the Number it denotes: an optional sign,
    digits, an optional fraction, with at least one digit before or
    after the point, and an optional exponent part. *)
Inductive DecimalLiteral : string -> Number -> Prop :=
| decimal_literal sg neg ip frac fp ex e :
    Sign sg neg ->
    allDigits ip = true ->
    Fraction frac fp ->
    isEmpty ip && isEmpty fp = false ->
    Exponent ex e ->
    DecimalLiteral (sg +:+ ip +:+ frac +:+ ex)
      (ofDecimal neg (digitsValue (ip +:+ fp)) (e - strlen fp)).

(** The radix that the letter after a leading [0] announces. *)
Definition radixOf (p : ascii) : option Z :=
  if Ascii.eqb p "x" || Ascii.eqb p "X" then Some 16
  else if Ascii.eqb p "o" || Ascii.eqb p "O" then Some 8
  else if Ascii.eqb p "b" || Ascii.eqb p "B" then Some 2
  else None.

(** A hexadecimal, octal or binary integer literal, which has no sign,
    and the Number it denotes. *)
Inductive RadixLiteral : string -> Number -> Prop :=
| radix_literal p radix ds v :
    radixOf p = Some radix ->
    isEmpty ds = false ->
    radixValueFrom radix 0 ds = Some v ->
    RadixLiteral (String "0" (String p ds)) (ofZ v).

(** The texts that [Number] converts to a Number other than NaN and the
    infinities, apart from the empty text. *)
Definition NumericLiteral (s : string) (x : Number) : Prop :=
  DecimalLiteral s x \/ RadixLiteral s x.

(** The sign and the rest of a text that may begin with a sign. *)
Definition splitSign (s : string) : bool * string :=
  match s with
  | String "+" t => (false, t)
  | String "-" t => (true, t)
  | _ => (false, s)
  end.

Definition startsWithSign (s : string) : bool :=
  match s with
  | String c _ => Ascii.eqb c "+" || Ascii.eqb c "-"
  | EmptyString => false
  end.

Definition startsWithDigit (s : string) : bool :=
  match s with
  | String c _ => isDigit c
  | EmptyString => false
  end.

Definition startsWithPoint (s : string) : bool :=
  match s with
  | String c _ => Ascii.eqb c "."
  | EmptyString => false
  end.

(** The factor that [parsePercent] multiplies with. *)
Definition signFactor (neg : bool) : Number :=
  if neg then ofZ (-1) else ofZ 1.

(** [-x] when [neg] holds, [x] when it does not. *)
Definition negateIf (neg : bool) (x : Number) : Number :=
  if neg then SFopp x else x.

End LiteralSpec.

(** * Verification *)

(** ** Facts about Numbers *)

Module NumberFacts.
Import JsNumber NumberSpec.

Lemma digits2_pos_size p : digits2_pos p = Pos.size p.
Proof. induction p; simpl; congruence. Qed.

Lemma Zdigits2_log2 m : 0 < m -> Zdigits2 m = Z.log2 m + 1.
Proof.
destruct m as [|p|p]; try lia. intros _. simpl.
rewrite digits2_pos_size. destruct p; simpl; lia.
Qed.

Lemma Zdigits2_nonneg m : 0 <= Zdigits2 m.
Proof. destruct m; simpl; lia. Qed.

(* shr_1 halves *)
Lemma shr_1_m mrs : 0 <= shr_m mrs -> shr_m (shr_1 mrs) = shr_m mrs / 2.
Proof.
destruct mrs as [m r s]. simpl. intros H.
destruct m as [|p|p]; try lia; simpl.
- reflexivity.
- destruct p; simpl.
  + rewrite Pos2Z.inj_xI. apply Z.div_unique with 1; lia.
  + rewrite Pos2Z.inj_xO. apply Z.div_unique with 0; lia.
  + reflexivity.
Qed.

Lemma shr_1_nonneg mrs : 0 <= shr_m mrs -> 0 <= shr_m (shr_1 mrs).
Proof. intros H. rewrite shr_1_m by assumption. apply Z.div_pos; lia. Qed.

Lemma pow2_xO p : 2 ^ Zpos p~0 = 2 ^ Zpos p * 2 ^ Zpos p.
Proof.
replace (Zpos p~0) with (Zpos p + Zpos p) by lia.
apply Z.pow_add_r; lia.
Qed.

Lemma pow2_xI p : 2 ^ Zpos p~1 = 2 * (2 ^ Zpos p * 2 ^ Zpos p).
Proof.
replace (Zpos p~1) with (Z.succ (Zpos p~0)) by lia.
rewrite Z.pow_succ_r by lia. now rewrite pow2_xO.
Qed.

Lemma iter_shr_m p : forall mrs, 0 <= shr_m mrs ->
shr_m (SpecFloat.iter_pos shr_1 p mrs) = shr_m mrs / 2 ^ Zpos p.
Proof.
induction p as [p IH|p IH|]; intros mrs H; simpl SpecFloat.iter_pos.
- assert (H1 := shr_1_nonneg _ H).
  rewrite IH.
  2:{ rewrite IH by assumption. apply Z.div_pos; lia. }
  rewrite IH by assumption. rewrite shr_1_m by assumption.
  rewrite !Z.div_div by lia.
  f_equal. symmetry. apply pow2_xI.
- rewrite IH.
  2:{ rewrite IH by assumption. apply Z.div_pos; lia. }
  rewrite IH by assumption.
  rewrite !Z.div_div by lia.
  f_equal. symmetry. apply pow2_xO.
- rewrite shr_1_m by assumption. reflexivity.
Qed.

Lemma shr_record_of_loc_m m l : shr_m (shr_record_of_loc m l) = m.
Proof. destruct l as [|[]]; reflexivity. Qed.

Lemma Zdigits2_div m n : 0 <= m -> 0 <= n ->
Zdigits2 (m / 2 ^ n) <= Z.max 0 (Zdigits2 m - n).
Proof.
intros Hm Hn.
assert (Hp : 0 < 2 ^ n) by (apply Z.pow_pos_nonneg; lia).
destruct (Z.eq_dec (m / 2 ^ n) 0) as [E|E].
- rewrite E. simpl. lia.
- assert (0 < m / 2 ^ n).
  { assert (0 <= m / 2 ^ n) by (apply Z.div_pos; lia). lia. }
  assert (0 < m).
  { destruct (Z.eq_dec m 0); [subst; rewrite Zdiv_0_l in E; lia | lia]. }
  assert (2 ^ n <= m).
  { destruct (Z_lt_le_dec m (2 ^ n)) as [Hlt|]; [|assumption].
    rewrite Z.div_small in E by lia. lia. }
  assert (n <= Z.log2 m) by (apply Z.log2_le_pow2; assumption).
  rewrite !Zdigits2_log2 by assumption.
  rewrite <- Z.shiftr_div_pow2 by lia.
  rewrite Z.log2_shiftr by lia. lia.
Qed.

(* after shr_fexp the mantissa has at most [prec] digits *)
Lemma shr_fexp_digits m e l : 0 <= m ->
let '(mrs, e') := shr_fexp prec emax m e l in
0 <= shr_m mrs /\ Zdigits2 (shr_m mrs) <= prec.
Proof.
intros Hm. unfold shr_fexp, shr.
assert (Hd := Zdigits2_nonneg m).
destruct (fexp prec emax (Zdigits2 m + e) - e) as [|p|p] eqn:E.
- rewrite shr_record_of_loc_m. split; [assumption|].
  unfold fexp, emin, prec, emax in *. lia.
- rewrite iter_shr_m by (rewrite shr_record_of_loc_m; assumption).
  rewrite shr_record_of_loc_m. split; [apply Z.div_pos; lia|].
  etransitivity; [apply Zdigits2_div; lia|].
  unfold fexp, emin, prec, emax in *. lia.
- rewrite shr_record_of_loc_m. split; [assumption|].
  unfold fexp, emin, prec, emax in *. lia.
Qed.

Lemma round_nearest_even_nonneg m l : 0 <= m -> 0 <= round_nearest_even m l.
Proof. intros H. destruct l as [|[]]; simpl; try lia. destruct (Z.even m); lia. Qed.



Lemma binary_round_aux_shape s m e l : 0 <= m ->
let r := binary_round_aux prec emax s m e l in
signOf r = Some s /\ wellFormed r.
Proof.
intros Hm. unfold binary_round_aux.
pose proof (shr_fexp_digits m e l Hm) as H1.
destruct (shr_fexp prec emax m e l) as [mrs' e'].
destruct H1 as [H1 _].
pose proof (shr_fexp_digits (round_nearest_even (shr_m mrs') (loc_of_shr_record mrs')) e' loc_Exact
              (round_nearest_even_nonneg _ _ H1)) as H2.
destruct (shr_fexp prec emax _ e' loc_Exact) as [mrs'' e''].
destruct H2 as [H2 H3].
destruct (shr_m mrs'') as [|p|p]; simpl; try lia.
- auto.
- destruct (e'' <=? emax - prec); simpl; auto.
Qed.

Lemma iter_xO_value k : forall p, Zpos (Pos.iter xO p k) = Zpos p * 2 ^ Zpos k.
Proof.
induction k as [|k IH] using Pos.peano_ind; intros p.
- simpl. lia.
- rewrite Pos.iter_succ, Pos2Z.inj_xO, IH, Pos2Z.inj_succ.
  rewrite Z.pow_succ_r by lia. lia.
Qed.

Lemma iter_xO_digits k : forall p,
Zpos (digits2_pos (Pos.iter xO p k)) = Zpos (digits2_pos p) + Zpos k.
Proof.
induction k as [|k IH] using Pos.peano_ind; intros p.
- simpl. lia.
- rewrite Pos.iter_succ. simpl digits2_pos.
  rewrite Pos2Z.inj_succ, IH. lia.
Qed.

Lemma binary_round_aux_exact s m e :
Zpos (digits2_pos m) = prec -> emin prec emax <= e <= emax - prec ->
binary_round_aux prec emax s (Zpos m) e loc_Exact = S754_finite s m e.
Proof.
intros Hd He.
assert (Hs : shr_fexp prec emax (Zpos m) e loc_Exact
             = ({| shr_m := Zpos m; shr_r := false; shr_s := false |}, e)).
{ unfold shr_fexp. simpl Zdigits2. rewrite Hd.
  replace (fexp prec emax (prec + e) - e) with 0; [reflexivity|].
  unfold fexp. lia. }
unfold binary_round_aux. rewrite Hs. simpl. rewrite Hs. simpl.
destruct (e <=? emax - prec) eqn:E; [reflexivity | lia].
Qed.

(** An integer of at most 53 bits is a Number, exactly. *)
Lemma binary_round_small s p :
Zpos (digits2_pos p) <= prec ->
exists m e, binary_round prec emax s p 0 = S754_finite s m e
            /\ e <= 0 /\ Zpos m = Zpos p * 2 ^ (- e).
Proof.
intros Hd. unfold binary_round.
assert (Hf : fexp prec emax (Zpos (digits2_pos p) + 0) = Zpos (digits2_pos p) - prec).
{ unfold fexp, emin, prec, emax in *. lia. }
rewrite Hf. unfold shl_align.
destruct (Zpos (digits2_pos p) - prec - 0) as [|k|k] eqn:E; try lia.
- exists p, 0. split; [|split; [lia | simpl; lia]].
  apply binary_round_aux_exact; [lia | unfold emin, prec, emax; lia].
- exists (Pos.iter xO p k), (Zpos (digits2_pos p) - prec).
  split; [|split; [lia|]].
  + apply binary_round_aux_exact.
    * rewrite iter_xO_digits. lia.
    * unfold emin, prec, emax in *. lia.
  + rewrite iter_xO_value. f_equal. f_equal. lia.
Qed.

Lemma toInteger_small s m e p :
e <= 0 -> Zpos m = Zpos p * 2 ^ (- e) ->
toInteger (S754_finite s m e) = Some (cond_Zopp s (Zpos p)).
Proof.
intros He Hm. destruct e as [|k|k]; try lia.
- simpl in *. f_equal. destruct s; simpl; lia.
- cbn [toInteger]. change (- Zneg k) with (Zpos k) in Hm. rewrite Hm.
  assert (0 < 2 ^ Zpos k) by (apply Z.pow_pos_nonneg; lia).
  rewrite Z.mod_mul, Z.div_mul by lia. reflexivity.
Qed.

Lemma digits_le (p q : positive) : (p <= q)%positive ->
Zpos (digits2_pos p) <= Zpos (digits2_pos q).
Proof.
intros H.
change (Zdigits2 (Zpos p) <= Zdigits2 (Zpos q)).
rewrite !Zdigits2_log2 by lia.
assert (Z.log2 (Zpos p) <= Z.log2 (Zpos q)) by (apply Z.log2_le_mono; lia).
lia.
Qed.

Lemma toInteger_ofInteger s n (m : positive) :
Zpos (digits2_pos m) <= prec -> Z.abs n <= Zpos m ->
toInteger (ofInteger s n) = Some n.
Proof.
intros Hm Hn. destruct n as [|p|p]; simpl ofInteger.
- reflexivity.
- destruct (binary_round_small false p) as (m' & e & -> & He & Hv).
  { etransitivity; [apply digits_le|exact Hm]. lia. }
  now rewrite (toInteger_small _ _ _ p).
- destruct (binary_round_small true p) as (m' & e & -> & He & Hv).
  { etransitivity; [apply digits_le|exact Hm]. lia. }
  now rewrite (toInteger_small _ _ _ p).
Qed.

Lemma roundHalfUp_bound s m k :
Z.abs (roundHalfUp s m (Zneg k)) <= Zpos m
/\ (s = false -> 0 <= roundHalfUp s m (Zneg k)).
Proof.
unfold roundHalfUp.
assert (HP : 2 <= 2 ^ Zpos k).
{ change 2 with (2 ^ 1) at 1. apply Z.pow_le_mono_r; lia. }
assert (HQ : 2 ^ (Zpos k + 1) = 2 * 2 ^ Zpos k).
{ rewrite Z.pow_add_r by lia. lia. }
rewrite HQ. set (P := 2 ^ Zpos k) in *.
destruct s; simpl cond_Zopp.
- assert (- Zpos m <= (2 * - Zpos m + P) / (2 * P)).
  { apply Z.div_le_lower_bound; nia. }
  assert ((2 * - Zpos m + P) / (2 * P) <= 0).
  { assert ((2 * - Zpos m + P) / (2 * P) < 1); [|lia].
    apply Z.div_lt_upper_bound; lia. }
  split; [lia | discriminate].
- assert (0 <= (2 * Zpos m + P) / (2 * P)) by (apply Z.div_pos; lia).
  assert ((2 * Zpos m + P) / (2 * P) <= Zpos m).
  { assert ((2 * Zpos m + P) / (2 * P) < Zpos m + 1); [|lia].
    apply Z.div_lt_upper_bound; nia. }
  split; [lia | intros _; lia].
Qed.

Lemma floorZ_bound s m k : Z.abs (floorZ s m (Zneg k)) <= Zpos m.
Proof.
unfold floorZ.
assert (HP : 2 <= 2 ^ Zpos k).
{ change 2 with (2 ^ 1) at 1. apply Z.pow_le_mono_r; lia. }
set (P := 2 ^ Zpos k) in *.
destruct s; simpl cond_Zopp.
- assert (- Zpos m <= - Zpos m / P) by (apply Z.div_le_lower_bound; nia).
  assert (- Zpos m / P < 0) by (apply Z.div_lt_upper_bound; lia).
  lia.
- assert (0 <= Zpos m / P) by (apply Z.div_pos; lia).
  assert (Zpos m / P <= Zpos m).
  { assert (Zpos m / P < Zpos m + 1); [|lia]. apply Z.div_lt_upper_bound; nia. }
  lia.
Qed.



Lemma toInteger_Math_round x :
wellFormed x -> isFinite x = true ->
toInteger (Math_round x) = Some (nearestInteger x).
Proof.
intros Hw Hf. destruct x as [s|s| |s m e]; try discriminate.
- reflexivity.
- destruct e as [|k|k]; [reflexivity | reflexivity |].
  cbn [Math_round nearestInteger].
  apply (toInteger_ofInteger _ _ m); [exact Hw | apply roundHalfUp_bound].
Qed.

Lemma toInteger_Math_floor x :
wellFormed x -> isFinite x = true ->
toInteger (Math_floor x) = Some (floorInteger x).
Proof.
intros Hw Hf. destruct x as [s|s| |s m e]; try discriminate.
- reflexivity.
- destruct e as [|k|k]; [reflexivity | reflexivity |].
  cbn [Math_floor floorInteger].
  apply (toInteger_ofInteger _ _ m); [exact Hw | apply floorZ_bound].
Qed.

Lemma toInteger_not_finite x : isFinite x = false -> toInteger x = None.
Proof. destruct x; simpl; congruence. Qed.

Lemma Math_round_not_finite x : isFinite x = false -> Math_round x = x.
Proof. destruct x; simpl; congruence. Qed.

Lemma fmul_wellFormed x y : wellFormed (fmul x y).
Proof.
destruct x as [sx|sx| |sx mx ex], y as [sy|sy| |sy my ey]; simpl; trivial.
apply binary_round_aux_shape. lia.
Qed.

Lemma fdiv_wellFormed x y : wellFormed (fdiv x y).
Proof.
destruct x as [sx|sx| |sx mx ex], y as [sy|sy| |sy my ey]; simpl; trivial.
unfold fdiv, SFdiv.
destruct (SFdiv_core_binary prec emax (Zpos mx) ex (Zpos my) ey) as [[q e] l] eqn:E.
apply binary_round_aux_shape.
unfold SFdiv_core_binary in E.
destruct (Z.div_eucl _ (Zpos my)) as [q' r'] eqn:E2. inversion E; subst q'.
match type of E2 with Z.div_eucl ?a ?b = _ =>
  assert (Hq : q = a / b) by (unfold Z.div; now rewrite E2);
  assert (0 <= a) end.
{ destruct (ex - ey - _) as [|p|p]; try lia. rewrite Z.shiftl_mul_pow2 by lia.
  assert (0 < 2 ^ Zpos p) by (apply Z.pow_pos_nonneg; lia). lia. }
rewrite Hq. apply Z.div_pos; lia.
Qed.

Lemma fmul_sign x sy my ey :
isFinite x = true ->
signOf (fmul x (S754_finite sy my ey)) =
match x with
| S754_zero s | S754_finite s _ _ => Some (xorb s sy)
| _ => None
end.
Proof.
destruct x as [sx|sx| |sx mx ex]; try discriminate; intros _.
- reflexivity.
- simpl. apply binary_round_aux_shape. lia.
Qed.

End NumberFacts.

(** ** The field normalizer *)

Module HelpersFacts.
Import JsString JsNumber NumberSpec Helpers HelpersSpec.


Lemma removeAll_noneOf p s : noneOf p (removeAll p s) = true.
Proof.
  induction s as [|c r IH]; simpl; [reflexivity|].
  destruct (p c) eqn:E; simpl; [assumption|].
  now rewrite E.
Qed.

Lemma removeAll_id p s : noneOf p s = true -> removeAll p s = s.
Proof.
  induction s as [|c r IH]; simpl; [reflexivity|].
  destruct (p c); simpl; [discriminate|]. intros H. now rewrite IH.
Qed.

Lemma removeAll_compose p q s :
  removeAll (fun c => p c || q c) s = removeAll q (removeAll p s).
Proof.
  induction s as [|c r IH]; simpl; [reflexivity|].
  destruct (p c); simpl; [assumption|].
  destruct (q c); simpl; [assumption | now f_equal].
Qed.

Lemma noneOf_weaken (p q : ascii -> bool) s :
  (forall c, q c = true -> p c = true) -> noneOf p s = true -> noneOf q s = true.
Proof.
  intros Hpq. induction s as [|c r IH]; simpl; [reflexivity|].
  destruct (p c) eqn:E; simpl; [discriminate|]. intros H.
  destruct (q c) eqn:F; [rewrite (Hpq _ F) in E; discriminate|].
  simpl. auto.
Qed.

Lemma allWhiteSpace_noneOf c r :
  noneOf isWhiteSpace (String c r) = true -> allWhiteSpace (String c r) = false.
Proof. simpl. destruct (isWhiteSpace c); simpl; [discriminate | reflexivity]. Qed.

(** A text without white space is its own trimming. *)
Lemma trim_noneOf s : noneOf isWhiteSpace s = true -> trim s = s.
Proof.
  intros H. unfold trim.
  assert (Hs : trimStart s = s).
  { destruct s as [|c r]; [reflexivity|]. simpl in *.
    destruct (isWhiteSpace c); [discriminate | reflexivity]. }
  rewrite Hs. clear Hs.
  induction s as [|c r IH]; [reflexivity|].
  cbn [trimEnd]. rewrite (allWhiteSpace_noneOf _ _ H).
  f_equal. apply IH. simpl in H. now destruct (isWhiteSpace c).
Qed.


Lemma parsePercent_unfold txt :
  parsePercent txt =
    let t := trim (removeAll isPercentNoise txt) in
    if String.eqb t "-" || isEmpty t then None
    else
      let num := ofString (dropLeadingMinus t) in
      if negb (isFinite num) then None
      else Some (fmul (fdiv num (ofZ 100))
                      (if startsWithMinus (trim txt) then ofZ (-1) else ofZ 1)).
Proof. destruct txt; reflexivity. Qed.

Lemma removeAll_plus_leading s :
  noneOf isPlus (dropLeadingPlus s) = true ->
  removeAll isPlus s = dropLeadingPlus s.
Proof.
  destruct s as [|c r]; [reflexivity|]. simpl.
  destruct (isPlus c) eqn:E; intros H.
  - now apply removeAll_id.
  - simpl in H. rewrite E in H. simpl in H. now rewrite removeAll_id.
Qed.

Lemma described_no_space txt :
  noneOf isWhiteSpace (removeAll isPercentNoiseDescribed txt) = true.
Proof.
  apply noneOf_weaken with (p := isPercentNoiseDescribed);
    [|apply removeAll_noneOf].
  intros c H. unfold isPercentNoiseDescribed. now rewrite H.
Qed.

Lemma noneOf_removeAll p q s :
  noneOf p s = true -> noneOf p (removeAll q s) = true.
Proof.
  induction s as [|c r IH]; simpl; [reflexivity|].
  destruct (p c) eqn:E; simpl; [discriminate|]. intros H.
  destruct (q c); simpl; [auto|]. rewrite E. simpl. auto.
Qed.

End HelpersFacts.



(** ** The table locator and the watchlist filter *)

Module LocatorFacts.
Import JsString JsNumber Dom Helpers Pipeline PipelineSpec Examples.

Lemma filter_first {A} (p : A -> bool) (l : list A) (x : A) (rest : list A) :
  List.filter p l = x :: rest ->
  exists before after,
    l = before ++ x :: after /\ p x = true
    /\ forallb (fun a => negb (p a)) before = true.
Proof.
  induction l as [|a l IH]; simpl; [discriminate|].
  destruct (p a) eqn:E.
  - intros H. inversion H; subst. exists [], l. auto.
  - intros H. destruct (IH H) as (before & after & -> & Hx & Hb).
    exists (a :: before), after. simpl. rewrite E. auto.
Qed.

Lemma filter_before {A} (p : A -> bool) (before after : list A) (x : A) :
  p x = true -> forallb (fun a => negb (p a)) before = true ->
  exists rest, List.filter p (before ++ x :: after) = x :: rest.
Proof.
  intros Hx. induction before as [|a before IH]; simpl.
  - intros _. rewrite Hx. eauto.
  - destruct (p a); simpl; [discriminate | exact IH].
Qed.

Lemma filter_none {A} (p : A -> bool) (l : list A) :
  List.filter p l = [] <-> forallb (fun a => negb (p a)) l = true.
Proof.
  induction l as [|a l IH]; simpl; [tauto|].
  destruct (p a); simpl; [split; discriminate | exact IH].
Qed.

Lemma locateTable_found doc tbl :
  locateTable doc = [tbl] <->
  exists before after,
    doc = before ++ tbl :: after /\ isListingsTable tbl = true
    /\ forallb (fun t => negb (isListingsTable t)) before = true.
Proof.
  unfold locateTable. split.
  - destruct (List.filter isListingsTable doc) as [|t rest] eqn:E; [discriminate|].
    intros H. inversion H; subst. eapply filter_first; eauto.
  - intros (before & after & -> & Ht & Hb).
    destruct (filter_before isListingsTable before after tbl Ht Hb) as [rest ->].
    reflexivity.
Qed.

Lemma locateTable_none doc :
  locateTable doc = [] <->
  forallb (fun t => negb (isListingsTable t)) doc = true.
Proof.
  rewrite <- filter_none. unfold locateTable.
  destruct (List.filter isListingsTable doc); split; congruence.
Qed.

Lemma filter_isTH_none r : forallb isTD r = true -> List.filter isTH r = [].
Proof.
  induction r as [|c r IHr]; [reflexivity|]. cbn [forallb List.filter].
  intros [Hc Hr]%andb_prop. unfold isTH, isTD in *.
  destruct (cell_tag c); [auto | discriminate].
Qed.

Lemma filter_header_body g r :
  isTHEAD g = false -> forallb isTD r = true ->
  List.filter (fun c => isTH c || (isTD c && isTHEAD g)) r = [].
Proof.
  intros Hg. induction r as [|c r IHr]; [reflexivity|].
  cbn [forallb List.filter]. intros [Hc Hr]%andb_prop.
  destruct (isTH c || isTD c && isTHEAD g) eqn:E; [|auto].
  rewrite Hg, andb_false_r, orb_false_r in E.
  unfold isTH, isTD in *. destruct (cell_tag c); discriminate.
Qed.

Lemma filter_header_head g r :
  isTHEAD g = true ->
  List.filter (fun c => isTH c || (isTD c && isTHEAD g)) r = r.
Proof.
  intros Hg. induction r as [|c r IHr]; [reflexivity|].
  cbn [List.filter].
  destruct (isTH c || isTD c && isTHEAD g) eqn:E; [now f_equal|].
  rewrite Hg, andb_true_r in E.
  unfold isTH, isTD in *. destruct (cell_tag c); discriminate.
Qed.

Lemma flat_filter_isTH_none rows :
  forallb (forallb isTD) rows = true -> flat_map (List.filter isTH) rows = [].
Proof.
  induction rows as [|r rows IH]; [reflexivity|].
  cbn [forallb flat_map]. intros [Hr Ho]%andb_prop.
  now rewrite (filter_isTH_none r Hr), IH.
Qed.

Lemma selectHeaders_plain_rest rest :
  forallb plainGroup rest = true -> selectHeaders rest = [].
Proof.
  induction rest as [|g rest IH]; [reflexivity|].
  cbn [forallb]. intros [Hg Hr]%andb_prop. unfold selectHeaders in *.
  cbn [flat_map]. rewrite (IH Hr), app_nil_r.
  unfold plainGroup in Hg. apply andb_prop in Hg as [Hh Hc].
  apply negb_true_iff in Hh.
  destruct (group_rows g) as [|first others]; [reflexivity|].
  cbn [forallb] in Hc. apply andb_prop in Hc as [Hf Ho].
  now rewrite (filter_header_body g first Hh Hf), (flat_filter_isTH_none _ Ho).
Qed.

Lemma selectHeaders_plain tbl :
  plainTable tbl = true -> selectHeaders tbl = firstHeaderRow tbl.
Proof.
  destruct tbl as [|g rest]; [discriminate|]. cbn [plainTable].
  intros [[Hg Hrow]%andb_prop Hrest]%andb_prop.
  unfold firstHeaderRow. cbn [List.filter]. rewrite Hg.
  unfold selectHeaders. cbn [flat_map].
  fold (selectHeaders rest). rewrite (selectHeaders_plain_rest _ Hrest).
  destruct (group_rows g) as [|first [|second others]]; try discriminate.
  cbn [flat_map]. rewrite !app_nil_r.
  now apply filter_header_head.
Qed.

(** C5, as it fails: the header row of this table has two cells, so no
    table is as the specification asks; but its body has three more [th]
    cells, which the selector counts, and the table is selected. *)
Lemma locateTable_side_headers :
  isListingsTable_described sideHeaders = false
  /\ Pipeline.scrape (calm [sideHeaders]) []
     = (Ok [sideHeaders], [AxiosGet URL]).
Proof. split; vm_compute; reflexivity. Qed.

(** C5, amended. The locator goes through the tables in document order
    and selects the first one for which the [td] cells of the first row
    of its [thead] together with all [th] cells of the table are at
    least five, one of them with a lowercased text containing "company"
    and one with a lowercased text containing "price".  In route.js and
    in the handler with [nowSec] the invocation fails with "Could not
    locate listings table" if and only if no table of the page is such.
    For a table whose header cells are those of the one row of its
    [thead] this is the test of the first header row. *)
Theorem locateTable_correct :
  (forall doc tbl,
     locateTable doc = [tbl] <->
     exists before after,
       doc = before ++ tbl :: after /\ isListingsTable tbl = true
       /\ forallb (fun t => negb (isListingsTable t)) before = true)
  /\ (forall env h,
        Pipeline.scrape env h =
        match axiosGet env (AxiosGet URL :: h) with
        | Ok doc =>
            if forallb (fun t => negb (isListingsTable t)) doc
            then (Throw (Error "Could not locate listings table"),
                  AxiosGet URL :: h)
            else (Ok (locateTable doc), AxiosGet URL :: h)
        | Throw e => (Throw e, AxiosGet URL :: h)
        end)
  /\ (forall tbl,
        plainTable tbl = true ->
        isListingsTable tbl = isListingsTable_described tbl).
Proof.
  split; [exact locateTable_found|]. split.
  - intros env h. unfold scrape, bind, request.
    destruct (axiosGet env (AxiosGet URL :: h)) as [doc|e]; [|reflexivity].
    destruct (forallb _ doc) eqn:E.
    + apply locateTable_none in E. now rewrite E.
    + destruct (locateTable doc) as [|t l] eqn:F; [|reflexivity].
      apply locateTable_none in F. congruence.
  - intros tbl H. unfold isListingsTable, isListingsTable_described.
    now rewrite (selectHeaders_plain _ H).
Qed.

Lemma locateTable_correct_witness :
  isListingsTable (listing [mtnn]) = isListingsTable_described (listing [mtnn]).
Proof.
  apply (proj2 (proj2 locateTable_correct) (listing [mtnn])).
  vm_compute. reflexivity.
Defined.

(** The handler that only sets prices tests the selection itself, not
    its length, and so never reports a missing table. *)
Lemma Part001_scrape_total env h doc :
  axiosGet env (AxiosGet URL :: h) = Ok doc ->
  Part001.scrape env h = (Ok (locateTable doc), AxiosGet URL :: h).
Proof. intros H. unfold Part001.scrape, bind, request. now rewrite H. Qed.

Lemma readRow_outside vars tr :
  rowCode tr = EmptyString \/ rowCode tr ∉ TARGET_SET ->
  readRow vars tr = Skipped.
Proof.
  intros H. unfold readRow. fold (rowCode tr).
  destruct H as [-> | H]; [reflexivity|].
  unfold TARGET_SET_has. rewrite (bool_decide_eq_false_2 _ H).
  now rewrite orb_true_r.
Qed.

Lemma readRow_filtered vars tr :
  inWatchlist tr = false -> readRow vars tr = Skipped.
Proof.
  unfold inWatchlist, readRow. fold (rowCode tr).
  destruct (isEmpty (rowCode tr)); [reflexivity|]. simpl.
  now intros ->.
Qed.

Lemma forEach_skip {A S} (body : S -> A -> M S) (keep : A -> bool) :
  (forall s a h, keep a = false -> body s a h = (Ok s, h)) ->
  forall l s h, forEach body l s h = forEach body (List.filter keep l) s h.
Proof.
  intros Hskip. induction l as [|a l IH]; intros s h; [reflexivity|].
  cbn [List.filter]. destruct (keep a) eqn:E.
  - cbn [forEach]. unfold bind. destruct (body s a h) as [[s'|e] h']; auto.
  - cbn [forEach]. unfold bind. rewrite (Hskip _ _ _ E). apply IH.
Qed.

(** C6. The watchlist has twelve tickers.  A body row whose extracted
    code is empty or is not in the watchlist is left by the row callback
    at once: the arrays are what
    they were, whatever its price text is, and nothing is written or
    requested, so no warning about a missing address appears.  The loop
    over the rows does what it does for the rows of the watchlist
    alone. *)
Theorem watchlist_filter :
  size TARGET_SET = 12%nat
  /\ (forall loadTime env acc tr h,
        rowCode tr = EmptyString \/ rowCode tr ∉ TARGET_SET ->
        RouteFirst.eachRow loadTime env acc tr h = (Ok acc, h))
  /\ (forall loadTime env trs acc h,
        forEach (RouteFirst.eachRow loadTime env) trs acc h
        = forEach (RouteFirst.eachRow loadTime env)
                  (List.filter inWatchlist trs) acc h).
Proof.
  split; [vm_compute; reflexivity|]. split.
  - intros loadTime env acc tr h H. unfold RouteFirst.eachRow.
    now rewrite (readRow_outside _ _ H).
  - intros loadTime env. apply forEach_skip. intros s a h H.
    unfold RouteFirst.eachRow. now rewrite (readRow_filtered _ _ H).
Qed.

(** The row with code XYZ has a price that parses; it is skipped. *)
Lemma watchlist_filter_witness :
  toNumber (trim (textAt (tds outsider) 2)) <> None
  /\ RouteFirst.eachRow 1700000000000 (calm [listing [outsider]])
       noArrays outsider []
     = (Ok noArrays, []).
Proof.
  split; [vm_compute; discriminate|].
  apply (proj1 (proj2 watchlist_filter)). right.
  assert (H : TARGET_SET_has (rowCode outsider) = false)
    by (vm_compute; reflexivity).
  exact (proj1 (bool_decide_eq_false _) H).
Defined.

End LocatorFacts.

(** ** The payload builder *)

Module PayloadFacts.
Import JsString JsNumber NumberSpec NumberFacts Dom Helpers Pipeline PipelineSpec PayloadSpec Examples.

Lemma toE6_ok price :
  isFinite (scaled price) = true ->
  toE6 price = Ok (nearestInteger (scaled price)).
Proof.
  intros H. unfold toE6, BigInt.
  now rewrite (toInteger_Math_round _ (fmul_wellFormed price million) H).
Qed.

Lemma toE6_throw price :
  isFinite (scaled price) = false ->
  toE6 price = Throw (BigIntRangeError (scaled price)).
Proof.
  intros H. unfold toE6, BigInt. fold (scaled price).
  rewrite (Math_round_not_finite _ H).
  now rewrite (toInteger_not_finite _ H).
Qed.

Lemma toE6_inv price z :
  toE6 price = Ok z ->
  isFinite (scaled price) = true /\ z = nearestInteger (scaled price).
Proof.
  destruct (isFinite (scaled price)) eqn:E.
  - rewrite (toE6_ok _ E). intros [= <-]. auto.
  - now rewrite (toE6_throw _ E).
Qed.

Lemma million_value : million = S754_finite false 8589934592000000 (-33).
Proof. vm_compute. reflexivity. Qed.

Lemma nearestInteger_nonneg x :
  signOf x = Some false -> 0 <= nearestInteger x.
Proof.
  destruct x as [s|s| |s m e]; simpl; try lia.
  intros [= ->]. destruct e as [|k|k].
  - simpl. lia.
  - unfold roundHalfUp. simpl cond_Zopp.
    assert (0 < 2 ^ Zpos k) by (apply Z.pow_pos_nonneg; lia). lia.
  - now apply roundHalfUp_bound.
Qed.

(** A price that is not negative has a fixed-point price that is not
    negative. *)
Lemma scaled_nonneg price :
  isFinite price = true -> isNegative price = false ->
  0 <= nearestInteger (scaled price).
Proof.
  intros Hf Hn. unfold scaled. rewrite million_value.
  destruct price as [s|s| |s m e]; try discriminate Hf.
  - unfold fmul. simpl. lia.
  - simpl in Hn. subst s. apply nearestInteger_nonneg.
    now rewrite fmul_sign.
Qed.

Lemma toNumber_finite txt n : toNumber txt = Some n -> isFinite n = true.
Proof.
  unfold toNumber. destruct (isEmpty txt); [discriminate|].
  destruct (_ || _); [discriminate|].
  destruct (isFinite _) eqn:E; [|discriminate]. now intros [= <-].
Qed.

Lemma pricedRow_finite vars tr r :
  pricedRow vars tr = Some r -> isFinite (pr_price r) = true.
Proof.
  unfold pricedRow, readRow.
  destruct (_ || _); [discriminate|].
  destruct (toNumber _) as [p|] eqn:E; [|discriminate].
  destruct (envTruthy _ _); [|discriminate].
  intros [= <-]. simpl. eapply toNumber_finite; eauto.
Qed.

Lemma BigInt_seconds ms :
  isFinite (seconds ms) = true ->
  BigInt (seconds ms) = Ok (floorInteger (fdiv (ofZ ms) (ofZ 1000))).
Proof.
  unfold seconds, BigInt. intros H.
  destruct (isFinite (fdiv (ofZ ms) (ofZ 1000))) eqn:E.
  - now rewrite (toInteger_Math_floor _ (fdiv_wellFormed _ _) E).
  - destruct (fdiv (ofZ ms) (ofZ 1000)); simpl in *; congruence.
Qed.

Lemma pricedRows_cons vars tr trs :
  pricedRows vars (tr :: trs) =
  match pricedRow vars tr with
  | Some r => r :: pricedRows vars trs
  | None => pricedRows vars trs
  end.
Proof. reflexivity. Qed.

Lemma warningsOf_cons vars tr trs :
  warningsOf vars (tr :: trs) =
  match unmappedCode vars tr with
  | Some code => warningsOf vars trs ++ [Print (warn_no_address code)]
  | None => warningsOf vars trs
  end.
Proof.
  unfold warningsOf. change (omap (unmappedCode vars) (tr :: trs)) with
    (match unmappedCode vars tr with
     | Some c => c :: omap (unmappedCode vars) trs
     | None => omap (unmappedCode vars) trs
     end).
  destruct (unmappedCode vars tr); [|reflexivity].
  cbn [rev]. now rewrite map_app.
Qed.

(** The loop over the rows, for a callback that pushes with fixed
    stamps. *)
Lemma forEach_rows (body : Arrays -> Row -> M Arrays)
    (vars : gmap string string) (seq stamp : Numeric) (width : Number) :
  (forall acc tr h, readRow vars tr = Skipped -> body acc tr h = (Ok acc, h)) ->
  (forall acc tr h code, readRow vars tr = Unmapped code ->
     body acc tr h = (Ok acc, Print (warn_no_address code) :: h)) ->
  (forall acc tr h r, pricedRow vars tr = Some r -> finitelyScaled r ->
     body acc tr h = (Ok (pushPriced seq stamp width acc r), h)) ->
  forall trs acc h,
    Forall finitelyScaled (pricedRows vars trs) ->
    forEach body trs acc h
    = (Ok (fold_left (pushPriced seq stamp width) (pricedRows vars trs) acc),
       warningsOf vars trs ++ h).
Proof.
  intros Hskip Hwarn Hpush.
  induction trs as [|tr trs IH]; intros acc h Hall; [reflexivity|].
  cbn [forEach]. unfold bind.
  rewrite pricedRows_cons in *. rewrite warningsOf_cons.
  destruct (readRow vars tr) as [|code|code price day ytd asset] eqn:E.
  - rewrite (Hskip _ _ _ E).
    unfold pricedRow, unmappedCode in *. rewrite E in *. now apply IH.
  - rewrite (Hwarn _ _ _ _ E).
    unfold pricedRow, unmappedCode in *. rewrite E in *.
    rewrite IH by assumption. now rewrite <- app_assoc.
  - destruct (pricedRow vars tr) as [r|] eqn:F;
      [|unfold pricedRow in F; rewrite E in F; discriminate].
    inversion Hall as [|r' l Hr Hl]; subst.
    rewrite (Hpush _ _ _ _ F Hr).
    unfold unmappedCode. rewrite E. now apply IH.
Qed.

Lemma fold_pushPriced seq stamp width l : forall acc,
  let acc' := fold_left (pushPriced seq stamp width) l acc in
  priceAssets acc' = priceAssets acc ++ List.map pr_asset l
  /\ bandAssets acc' = bandAssets acc ++ List.map pr_asset l
  /\ pricePayloads acc' = pricePayloads acc ++
       List.map (fun r =>
                   {| PricePayload.priceE6 := Big (nearestInteger (scaled (pr_price r)));
                      PricePayload.seq := seq;
                      PricePayload.ts := stamp;
                      PricePayload.hcsMsgId := zeroHash |}) l
  /\ bandPayloads acc' = bandPayloads acc ++
       List.map (fun r =>
                   {| BandPayload.midE6 := Big (nearestInteger (scaled (pr_price r)));
                      BandPayload.widthBps := width;
                      BandPayload.ts := stamp |}) l.
Proof.
  induction l as [|r l IH]; intros acc; cbn [fold_left List.map].
  - now rewrite !app_nil_r.
  - destruct (IH (pushPriced seq stamp width acc r)) as (H1 & H2 & H3 & H4).
    cbv zeta. rewrite H1, H2, H3, H4. unfold pushPriced, pushRow. cbn.
    now rewrite <- !app_assoc.
Qed.

Lemma Part000_eachRow_spec ts env :
  let vars := process_env env in
  forall trs acc h,
    Forall finitelyScaled (pricedRows vars trs) ->
    forEach (Part000.eachRow ts env) trs acc h
    = (Ok (fold_left (pushPriced (Big ts) (Big ts) (DEFAULT_BAND_WIDTH_BPS vars))
                     (pricedRows vars trs) acc),
       warningsOf vars trs ++ h).
Proof.
  intros vars. apply forEach_rows; intros acc tr h.
  - intros E. unfold Part000.eachRow. fold vars. now rewrite E.
  - intros code E. unfold Part000.eachRow. fold vars. now rewrite E.
  - intros r E Hr. unfold Part000.eachRow, pricedRow in *. fold vars.
    destruct (readRow vars tr); try discriminate. injection E as <-.
    unfold finitelyScaled in Hr. cbn in Hr.
    unfold bind, lift. now rewrite (toE6_ok _ Hr).
Qed.

Lemma RouteFirst_eachRow_spec loadTime env :
  let vars := process_env env in
  isFinite (RouteFirst.now loadTime) = true ->
  forall trs acc h,
    Forall finitelyScaled (pricedRows vars trs) ->
    forEach (RouteFirst.eachRow loadTime env) trs acc h
    = (Ok (fold_left
             (pushPriced
                (Big (floorInteger (fdiv (ofZ loadTime) (ofZ 1000))))
                (Num (RouteFirst.now loadTime))
                (DEFAULT_BAND_WIDTH_BPS vars))
             (pricedRows vars trs) acc),
       warningsOf vars trs ++ h).
Proof.
  intros vars Hnow. apply forEach_rows; intros acc tr h.
  - intros E. unfold RouteFirst.eachRow. fold vars. now rewrite E.
  - intros code E. unfold RouteFirst.eachRow. fold vars. now rewrite E.
  - intros r E Hr. unfold RouteFirst.eachRow, pricedRow in *. fold vars.
    destruct (readRow vars tr); try discriminate. injection E as <-.
    unfold finitelyScaled in Hr. cbn in Hr.
    unfold bind, lift. rewrite (toE6_ok _ Hr).
    unfold RouteFirst.now in *. now rewrite (BigInt_seconds _ Hnow).
Qed.

(** C2, as it fails: the row passes the watchlist filter, the price
    parsing and the asset lookup, but its price times 1e6 is not finite;
    [BigInt] throws, the loop stops and the invocation fails. *)
Lemma payload_arrays_overflow :
  length (pricedRows vars [overflowing]) = 1%nat
  /\ forEach (Part000.eachRow 1700000001 (calm [listing [overflowing]]))
             [overflowing] noArrays []
     = (Throw (BigIntRangeError (S754_infinity false)), [])
  /\ fst (Part000.GET (calm [listing [overflowing]]) [])
     = Failure (BigIntRangeError (S754_infinity false)).
Proof. repeat split; vm_compute; reflexivity. Qed.

Lemma arrays_of_fold seq stamp width l :
  let acc := fold_left (pushPriced seq stamp width) l noArrays in
  length (pricePayloads acc) = length l
  /\ length (bandPayloads acc) = length l
  /\ List.map PricePayload.priceE6 (pricePayloads acc)
     = List.map (fun r => Big (fixedPrice r)) l
  /\ List.map BandPayload.midE6 (bandPayloads acc)
     = List.map (fun r => Big (fixedPrice r)) l
  /\ priceAssets acc = List.map pr_asset l
  /\ bandAssets acc = List.map pr_asset l.
Proof.
  destruct (fold_pushPriced seq stamp width l noArrays) as (H1 & H2 & H3 & H4).
  cbv zeta. rewrite H1, H2, H3, H4. cbn [noArrays pricePayloads bandPayloads
    priceAssets bandAssets app].
  rewrite !length_map, !map_map. cbn. repeat split; reflexivity.
Qed.

(** C2, amended. When N rows of the table pass the watchlist filter, the
    price parsing and the asset lookup, and the price of each of them
    times 1e6 is finite, the loop over the rows ends with N price
    payloads and N band payloads, for the assets of these rows in their
    order, and the fixed-point price and band midpoint of each are the
    BigInt of [Math.round(price * 1e6)] for the parsed price of its row:
    in the handler with [nowSec], and in the first handler of route.js
    (whose [now] is finite). *)
Theorem payload_arrays :
  (forall env ts trs h,
     let priced := pricedRows (process_env env) trs in
     Forall finitelyScaled priced ->
     exists acc h',
       forEach (Part000.eachRow ts env) trs noArrays h = (Ok acc, h')
       /\ length (pricePayloads acc) = length priced
       /\ length (bandPayloads acc) = length priced
       /\ List.map PricePayload.priceE6 (pricePayloads acc)
          = List.map (fun r => Big (fixedPrice r)) priced
       /\ List.map BandPayload.midE6 (bandPayloads acc)
          = List.map (fun r => Big (fixedPrice r)) priced
       /\ priceAssets acc = List.map pr_asset priced
       /\ bandAssets acc = List.map pr_asset priced
       /\ Forall (fun r => toE6 (pr_price r) = Ok (fixedPrice r)) priced)
  /\ (forall loadTime env trs h,
        let priced := pricedRows (process_env env) trs in
        isFinite (RouteFirst.now loadTime) = true ->
        Forall finitelyScaled priced ->
        exists acc h',
          forEach (RouteFirst.eachRow loadTime env) trs noArrays h = (Ok acc, h')
          /\ length (pricePayloads acc) = length priced
          /\ length (bandPayloads acc) = length priced
          /\ List.map PricePayload.priceE6 (pricePayloads acc)
             = List.map (fun r => Big (fixedPrice r)) priced
          /\ List.map BandPayload.midE6 (bandPayloads acc)
             = List.map (fun r => Big (fixedPrice r)) priced
          /\ priceAssets acc = List.map pr_asset priced
          /\ bandAssets acc = List.map pr_asset priced
          /\ Forall (fun r => toE6 (pr_price r) = Ok (fixedPrice r)) priced).
Proof.
  assert (Hfix : forall l, Forall finitelyScaled l ->
            Forall (fun r => toE6 (pr_price r) = Ok (fixedPrice r)) l).
  { intros l Hl. eapply Forall_impl; [exact Hl|].
    intros r Hr. now apply toE6_ok. }
  split.
  - intros env ts trs h priced Hall.
    eexists _, _. split; [apply Part000_eachRow_spec; exact Hall|].
    pose proof (arrays_of_fold (Big ts) (Big ts)
                  (DEFAULT_BAND_WIDTH_BPS (process_env env)) priced) as H.
    cbv zeta in H. destruct H as (H1 & H2 & H3 & H4 & H5 & H6).
    repeat split; auto.
  - intros loadTime env trs h priced Hnow Hall.
    eexists _, _. split; [apply RouteFirst_eachRow_spec; assumption|].
    pose proof (arrays_of_fold
                  (Big (floorInteger (fdiv (ofZ loadTime) (ofZ 1000))))
                  (Num (RouteFirst.now loadTime))
                  (DEFAULT_BAND_WIDTH_BPS (process_env env)) priced) as H.
    cbv zeta in H. destruct H as (H1 & H2 & H3 & H4 & H5 & H6).
    repeat split; auto.
Qed.

(** Four rows, two of which pass: UBA has no address and XYZ is not in
    the watchlist. *)
Lemma payload_arrays_witness :
  exists acc h',
    forEach (Part000.eachRow 1700000001
               (calm [listing [mtnn; outsider; uba; zenith]]))
            [mtnn; outsider; uba; zenith] noArrays [] = (Ok acc, h')
    /\ List.map PricePayload.priceE6 (pricePayloads acc)
       = [Big 250500000; Big 38200000].
Proof.
  destruct (proj1 payload_arrays
              (calm [listing [mtnn; outsider; uba; zenith]])
              1700000001 [mtnn; outsider; uba; zenith] [])
    as (acc & h' & H1 & _ & _ & H4 & _).
  { vm_compute. repeat constructor. }
  exists acc, h'. split; [exact H1|]. rewrite H4. vm_compute. reflexivity.
Defined.

Lemma pricedRow_of_reading vars tr code price day ytd asset :
  readRow vars tr = Priced code price day ytd asset ->
  pricedRow vars tr = Some {| pr_code := code; pr_price := price; pr_day := day;
                              pr_ytd := ytd; pr_asset := asset |}.
Proof. unfold pricedRow. now intros ->. Qed.

Lemma pricedRow_skipped vars tr :
  readRow vars tr = Skipped -> pricedRow vars tr = None.
Proof. unfold pricedRow. now intros ->. Qed.

Lemma pricedRow_unmapped vars tr code :
  readRow vars tr = Unmapped code -> pricedRow vars tr = None.
Proof. unfold pricedRow. now intros ->. Qed.

(** The payload with the fixed-point price of a row that passes. *)
Lemma nonnegFor_toE6 vars tr r z seq stamp :
  pricedRow vars tr = Some r -> toE6 (pr_price r) = Ok z ->
  nonnegFor r {| PricePayload.priceE6 := Big z;
                 PricePayload.seq := seq;
                 PricePayload.ts := stamp;
                 PricePayload.hcsMsgId := zeroHash |}.
Proof.
  intros Hr Hz Hneg. exists z. split; [reflexivity|].
  apply toE6_inv in Hz as [_ ->].
  apply scaled_nonneg; [|exact Hneg].
  eapply pricedRow_finite; eauto.
Qed.

Lemma RouteFirst_buildsNonneg loadTime env :
  buildsNonneg pricePayloads (process_env env)
               (RouteFirst.eachRow loadTime env).
Proof.
  intros acc tr h acc' h'. unfold RouteFirst.eachRow.
  destruct (readRow _ tr) as [|code|code price day ytd asset] eqn:E.
  - rewrite (pricedRow_skipped _ _ E). now intros [= <- <-].
  - rewrite (pricedRow_unmapped _ _ _ E).
    unfold bind, console, ret. now intros [= <- <-].
  - pose proof (pricedRow_of_reading _ _ _ _ _ _ _ E) as Hr. rewrite Hr.
    unfold bind, lift.
    destruct (toE6 price) as [z|e] eqn:Hz; [|discriminate].
    destruct (BigInt _) as [q|e]; [|discriminate].
    intros [= <- <-]. eexists. split; [reflexivity|].
    exact (nonnegFor_toE6 _ _ _ _ _ _ Hr Hz).
Qed.

Lemma RouteSecond_buildsNonneg env :
  buildsNonneg pricePayloads (process_env env) (RouteSecond.eachRow env).
Proof.
  intros acc tr h acc' h'. unfold RouteSecond.eachRow.
  destruct (readRow _ tr) as [|code|code price day ytd asset] eqn:E.
  - rewrite (pricedRow_skipped _ _ E). now intros [= <- <-].
  - rewrite (pricedRow_unmapped _ _ _ E).
    unfold bind, console, ret. now intros [= <- <-].
  - pose proof (pricedRow_of_reading _ _ _ _ _ _ _ E) as Hr. rewrite Hr.
    unfold bind, lift, reading.
    destruct (toE6 price) as [z|e] eqn:Hz; [|discriminate].
    destruct (BigInt _) as [q|e]; [|discriminate].
    intros [= <- <-]. eexists. split; [reflexivity|].
    exact (nonnegFor_toE6 _ _ _ _ _ _ Hr Hz).
Qed.

Lemma Part000_buildsNonneg ts env :
  buildsNonneg pricePayloads (process_env env) (Part000.eachRow ts env).
Proof.
  intros acc tr h acc' h'. unfold Part000.eachRow.
  destruct (readRow _ tr) as [|code|code price day ytd asset] eqn:E.
  - rewrite (pricedRow_skipped _ _ E). now intros [= <- <-].
  - rewrite (pricedRow_unmapped _ _ _ E).
    unfold bind, console, ret. now intros [= <- <-].
  - pose proof (pricedRow_of_reading _ _ _ _ _ _ _ E) as Hr. rewrite Hr.
    unfold bind, lift.
    destruct (toE6 price) as [z|e] eqn:Hz; [|discriminate].
    intros [= <- <-]. eexists. split; [reflexivity|].
    exact (nonnegFor_toE6 _ _ _ _ _ _ Hr Hz).
Qed.

Lemma Part001_buildsNonneg env :
  buildsNonneg Part001.payloads (process_env env) (Part001.eachRow env).
Proof.
  intros acc tr h acc' h'. unfold Part001.eachRow.
  destruct (readRow _ tr) as [|code|code price day ytd asset] eqn:E.
  - rewrite (pricedRow_skipped _ _ E). now intros [= <- <-].
  - rewrite (pricedRow_unmapped _ _ _ E).
    unfold bind, console, ret. now intros [= <- <-].
  - pose proof (pricedRow_of_reading _ _ _ _ _ _ _ E) as Hr. rewrite Hr.
    unfold bind, lift, reading.
    destruct (toE6 price) as [z|e] eqn:Hz; [|discriminate].
    destruct (BigInt _) as [q|e]; [|discriminate].
    intros [= <- <-]. eexists. split; [reflexivity|].
    exact (nonnegFor_toE6 _ _ _ _ _ _ Hr Hz).
Qed.

(** The payloads that a loop adds are those of the rows that pass, one
    for each and in their order, and the payload of a row whose price is
    not negative is not negative, whatever the other rows are. *)
Lemma forEach_nonnegFor {A : Type} (payloadsOf : A -> list PricePayload.t)
    vars body :
  buildsNonneg payloadsOf vars body ->
  forall trs acc h acc' h',
    forEach body trs acc h = (Ok acc', h') ->
    exists ps,
      payloadsOf acc' = payloadsOf acc ++ ps
      /\ Forall2 nonnegFor (pricedRows vars trs) ps.
Proof.
  intros Hbody. induction trs as [|tr trs IH]; intros acc h acc' h'.
  - cbn. intros [= <- <-]. exists []. split; [now rewrite app_nil_r | constructor].
  - cbn [forEach]. unfold bind.
    destruct (body acc tr h) as [[acc1|e] h1] eqn:E; [|discriminate].
    intros Hrest. destruct (IH _ _ _ _ Hrest) as (ps & Hps & Hall).
    rewrite pricedRows_cons. specialize (Hbody _ _ _ _ _ E).
    destruct (pricedRow vars tr) as [r|] eqn:Hr.
    + destruct Hbody as (p & Hpush & Hp).
      exists (p :: ps). split.
      * rewrite Hps, Hpush, <- app_assoc. reflexivity.
      * constructor; [exact Hp | exact Hall].
    + exists ps. split; [now rewrite Hps, Hbody | exact Hall].
Qed.

(** C7, as it fails: the price text ["-5"] parses to the Number -5, and
    the payload built for the row has the fixed-point price -5000000. *)
Lemma priceE6_negative :
  toNumber "-5" = Some (literal true 5 0)
  /\ exists acc h,
       forEach (RouteFirst.eachRow 1700000000000 (calm [listing [negative]]))
               [negative] noArrays [] = (Ok acc, h)
       /\ List.map PricePayload.priceE6 (pricePayloads acc) = [Big (-5000000)].
Proof.
  split; [vm_compute; reflexivity|].
  eexists _, _. split; vm_compute; reflexivity.
Qed.

(** C7, amended. Every price payload that the row callback builds for a
    row whose price text parses to a Number that is not negative has a
    fixed-point price that is not negative, whatever the other rows of
    the page are.  In every handler a turn of the callback that returns
    has pushed nothing for a row that does not pass and one price
    payload for a row that does, and that payload is a BigInt that is
    not negative if the price of the row is not negative.  So when the
    loop over the rows returns, its price payloads are those of the rows
    that pass, one for each and in their order, and the payload of each
    row with a price that is not negative is not negative. *)
Theorem priceE6_nonnegative :
  (forall loadTime env,
     buildsNonneg pricePayloads (process_env env)
                  (RouteFirst.eachRow loadTime env))
  /\ (forall env,
        buildsNonneg pricePayloads (process_env env) (RouteSecond.eachRow env))
  /\ (forall ts env,
        buildsNonneg pricePayloads (process_env env) (Part000.eachRow ts env))
  /\ (forall env,
        buildsNonneg Part001.payloads (process_env env) (Part001.eachRow env))
  /\ (forall loadTime env trs h acc h',
        forEach (RouteFirst.eachRow loadTime env) trs noArrays h = (Ok acc, h') ->
        Forall2 nonnegFor (pricedRows (process_env env) trs) (pricePayloads acc))
  /\ (forall env trs h acc h',
        forEach (RouteSecond.eachRow env) trs noArrays h = (Ok acc, h') ->
        Forall2 nonnegFor (pricedRows (process_env env) trs) (pricePayloads acc))
  /\ (forall ts env trs h acc h',
        forEach (Part000.eachRow ts env) trs noArrays h = (Ok acc, h') ->
        Forall2 nonnegFor (pricedRows (process_env env) trs) (pricePayloads acc))
  /\ (forall env trs h acc h',
        forEach (Part001.eachRow env) trs Part001.noArrays h = (Ok acc, h') ->
        Forall2 nonnegFor (pricedRows (process_env env) trs)
                (Part001.payloads acc)).
Proof.
  split; [exact RouteFirst_buildsNonneg|].
  split; [exact RouteSecond_buildsNonneg|].
  split; [exact Part000_buildsNonneg|].
  split; [exact Part001_buildsNonneg|].
  split; [|split; [|split]].
  - intros loadTime env trs h acc h' H.
    destruct (forEach_nonnegFor _ _ _ (RouteFirst_buildsNonneg loadTime env)
                _ _ _ _ _ H) as (ps & Hps & Hall).
    now rewrite Hps.
  - intros env trs h acc h' H.
    destruct (forEach_nonnegFor _ _ _ (RouteSecond_buildsNonneg env)
                _ _ _ _ _ H) as (ps & Hps & Hall).
    now rewrite Hps.
  - intros ts env trs h acc h' H.
    destruct (forEach_nonnegFor _ _ _ (Part000_buildsNonneg ts env)
                _ _ _ _ _ H) as (ps & Hps & Hall).
    now rewrite Hps.
  - intros env trs h acc h' H.
    destruct (forEach_nonnegFor _ _ _ (Part001_buildsNonneg env)
                _ _ _ _ _ H) as (ps & Hps & Hall).
    now rewrite Hps.
Qed.

(** A page on which a row with the price text ["-5"] comes before the
    row of MTNN: the payload of MTNN is not negative. *)
Lemma priceE6_nonnegative_witness :
  exists acc h' p0 p1,
    forEach (RouteFirst.eachRow 1700000000999
               (calm [listing [negative; mtnn]]))
            [negative; mtnn] noArrays [] = (Ok acc, h')
    /\ pricePayloads acc = [p0; p1]
    /\ nonnegPayload p1.
Proof.
  eexists _, _, _, _. split; [vm_compute; reflexivity|].
  split; [reflexivity|].
  pose proof (proj1 (proj2 (proj2 (proj2 (proj2 priceE6_nonnegative))))
                1700000000999
                (calm [listing [negative; mtnn]]) [negative; mtnn] [] _ []
                ltac:(vm_compute; reflexivity)) as H.
  vm_compute in H.
  inversion H as [|r0 q0 rs qs _ Hrest]; subst.
  inversion Hrest as [|r1 q1 rs' qs' H1 _]; subst.
  apply H1. reflexivity.
Defined.

End PayloadFacts.

(** ** The band phase *)

Module BandFacts.
Import JsString JsNumber Dom Helpers Pipeline PipelineSpec BandSpec Examples.

Lemma bandCalls_app l1 l2 : bandCalls (l1 ++ l2) = bandCalls l1 ++ bandCalls l2.
Proof. unfold bandCalls. apply omap_app. Qed.

Lemma since_app new h : since h (new ++ h) = rev new.
Proof.
  unfold since, chronological. rewrite length_app.
  replace (length new + length h - length h)%nat with (length new) by lia.
  now rewrite take_app_length.
Qed.

(** The completed turns are calls for the first assets, in their order. *)
Lemma Turns_calls env acc h0 i h last :
  Turns env acc h0 i h last ->
  exists new,
    h = new ++ h0
    /\ bandCalls (rev new) = take i (zip (bandAssets acc) (bandPayloads acc)).
Proof.
  induction 1 as [|i h last asset payload tx receipt _ IH Ha Hp Hs Hw].
  - exists []. split; reflexivity.
  - destruct IH as (new & -> & Hc).
    exists (Print (log_setBand (S i) (length (bandAssets acc)) (hash tx)
                               (status receipt))
            :: Wait tx :: SetBand asset payload :: new).
    split; [reflexivity|].
    cbn [rev]. rewrite <- !app_assoc, bandCalls_app, Hc. cbn.
    erewrite take_S_r; [reflexivity|].
    rewrite lookup_zip_with, Ha. cbn. now rewrite Hp.
Qed.

Lemma FailedTurn_calls env acc h0 i hi last e h' :
  Turns env acc h0 i hi last ->
  FailedTurn env acc i hi e h' ->
  exists new,
    h' = new ++ h0
    /\ bandCalls (rev new)
       = take (S i) (zip (bandAssets acc) (bandPayloads acc)).
Proof.
  intros Ht Hf. destruct (Turns_calls _ _ _ _ _ _ Ht) as (new & -> & Hc).
  assert (Hz : forall asset payload,
             bandAssets acc !! i = Some asset ->
             bandPayloads acc !! i = Some payload ->
             take (S i) (zip (bandAssets acc) (bandPayloads acc))
             = take i (zip (bandAssets acc) (bandPayloads acc))
               ++ [(asset, payload)]).
  { intros asset payload Ha Hp. erewrite take_S_r; [reflexivity|].
    rewrite lookup_zip_with, Ha. cbn. now rewrite Hp. }
  destruct Hf as [asset payload Ha Hp Hs | asset payload tx Ha Hp Hs Hw].
  - exists (SetBand asset payload :: new). split; [reflexivity|].
    cbn [rev]. rewrite bandCalls_app, Hc. cbn. now rewrite (Hz _ _ Ha Hp).
  - exists (Wait tx :: SetBand asset payload :: new). split; [reflexivity|].
    cbn [rev]. rewrite <- !app_assoc, bandCalls_app, Hc. cbn.
    now rewrite (Hz _ _ Ha Hp).
Qed.

(** The loop, from any turn on. *)
Lemma loop_from env acc h0 :
  length (bandAssets acc) = length (bandPayloads acc) ->
  forall n i h last,
    (i + n = length (bandAssets acc))%nat ->
    Turns env acc h0 i h last ->
    loopOutcome env acc h0
      (forEach (setBandTurn env acc) (seq i n) last h).
Proof.
  intros Hlen. induction n as [|n IH]; intros i h last Hi Ht.
  - cbn. replace (length (bandAssets acc)) with i by lia. exact Ht.
  - cbn [seq forEach]. unfold bind at 1. unfold setBandTurn at 1.
    destruct (lookup_lt_is_Some_2 (bandAssets acc) i) as [asset Ha]; [lia|].
    destruct (lookup_lt_is_Some_2 (bandPayloads acc) i) as [payload Hp]; [lia|].
    rewrite Ha, Hp. unfold bind, request, console, ret.
    destruct (send env (SetBand asset payload :: h)) as [tx|e] eqn:Hs.
    + destruct (wait env (Wait tx :: SetBand asset payload :: h))
        as [receipt|e] eqn:Hw.
      * apply IH; [lia|]. econstructor; eauto.
      * exists i, h, last. split; [lia|]. split; [exact Ht|].
        eapply failed_wait; eauto.
    + exists i, h, last. split; [lia|]. split; [exact Ht|].
      eapply failed_call; eauto.
Qed.

Lemma setBandLoop_outcome env acc h :
  length (bandAssets acc) = length (bandPayloads acc) ->
  loopOutcome env acc h (setBandLoop env acc h).
Proof.
  intros Hlen. unfold setBandLoop, forRange.
  apply loop_from; [assumption | lia | constructor].
Qed.

(** When the band phase falls back, it is the loop. *)
Lemma bandPhase_fallback env acc h start :
  (0 < length (bandAssets acc))%nat ->
  Fallback env acc h start ->
  bandPhase env acc h = setBandLoop env acc start.
Proof.
  intros Hpos Hf. unfold bandPhase.
  destruct (Nat.ltb_spec 0 (length (bandAssets acc))) as [_|]; [|lia].
  destruct Hf as [Hno | e h' Hyes Hthrow].
  - rewrite Hno. reflexivity.
  - rewrite Hyes. unfold try_catch. rewrite Hthrow. reflexivity.
Qed.

Lemma Turns_last env acc h0 i h last :
  Turns env acc h0 (S i) h last ->
  exists asset payload before tx,
    bandAssets acc !! i = Some asset
    /\ bandPayloads acc !! i = Some payload
    /\ send env (SetBand asset payload :: before) = Ok tx
    /\ last = Some (hash tx).
Proof. inversion 1; subst. eauto 10. Qed.

(** C1, as it fails: two assets, no bulk call, and the oracle rejects
    the per-asset call.  The loop makes the call for the first asset and
    no other, and the response is the failure. *)
Lemma band_fallback_stops :
  let env := world [listing [mtnn; zenith]] steady false rejectBand
                   (fun _ => Ok rate) in
  length (pricedRows vars [mtnn; zenith]) = 2%nat
  /\ fst (RouteFirst.GET 1700000000000 env [])
     = Failure (Error "execution reverted")
  /\ List.map fst
       (bandCalls (chronological (snd (RouteFirst.GET 1700000000000 env []))))
     = ["0xAAA"].
Proof. repeat split; vm_compute; reflexivity. Qed.

(** C1, amended. When the bulk band call is not supported, or throws
    (the call or its confirmation), the band phase makes the per-asset
    calls one after the other in the order of the N assets, each after
    the confirmation of the one before.  When none of them fails there
    are exactly N, one per asset, and [bandTxHash] is left as the hash of
    the last.  The first call or confirmation that fails ends the loop:
    the assets after it get no call, and the error leaves the band
    phase. *)
Theorem band_fallback env acc h start :
  length (bandAssets acc) = length (bandPayloads acc) ->
  (0 < length (bandAssets acc))%nat ->
  Fallback env acc h start ->
  fallbackOutcome env acc start (bandPhase env acc h).
Proof.
  intros Hlen Hpos Hf. rewrite (bandPhase_fallback _ _ _ _ Hpos Hf).
  pose proof (setBandLoop_outcome env acc start Hlen) as Hout.
  unfold loopOutcome, fallbackOutcome in *.
  destruct (setBandLoop env acc start) as [[last|e] h'].
  - split; [exact Hout|].
    destruct (Turns_calls _ _ _ _ _ _ Hout) as (new & -> & Hc).
    split.
    + rewrite since_app, Hc. apply take_ge.
      rewrite length_zip_with. lia.
    + destruct (length (bandAssets acc)) as [|n] eqn:E; [lia|].
      replace (S n - 1)%nat with n by lia.
      eapply Turns_last; eauto.
  - destruct Hout as (i & hi & last & Hi & Ht & Hfail).
    exists i, hi, last. repeat split; auto.
    destruct (FailedTurn_calls _ _ _ _ _ _ _ _ Ht Hfail) as (new & -> & Hc).
    now rewrite since_app.
Qed.

(** Two assets and an oracle without the bulk call: two calls, and the
    hash of the second. *)
Lemma band_fallback_witness :
  let env := calm [listing [mtnn; zenith]] in
  let acc := fold_left (pushPriced (Big 1700000001) (Big 1700000001)
                                   (DEFAULT_BAND_WIDTH_BPS vars))
                       (pricedRows vars [mtnn; zenith]) noArrays in
  fallbackOutcome env acc [Print warn_no_setBands] (bandPhase env acc [])
  /\ fst (bandPhase env acc []) = Ok (Some "tx5").
Proof.
  split; [|vm_compute; reflexivity].
  apply band_fallback.
  - vm_compute. reflexivity.
  - vm_compute. lia.
  - constructor. reflexivity.
Defined.


Lemma Built_aligned P acc0 acc :
  Built P acc0 acc -> aligned acc0 -> aligned acc.
Proof.
  induction 1 as [|acc code price day ytd asset z seq stamp width _ IH Hp];
    intros H0; [assumption|].
  destruct (IH H0) as (H1 & H2 & H3 & H4).
  unfold aligned, pushRow. cbn. rewrite !length_app. cbn. lia.
Qed.





Lemma aligned_noArrays : aligned noArrays.
Proof. repeat split. Qed.


End BandFacts.

(** ** The exchange-rate phase *)

Module FxFacts.
Import JsString JsNumber Dom Helpers Pipeline PipelineSpec FxSpec Examples.

Lemma bind_Ok_inv {A B} (m : M A) (k : A -> M B) h b h' :
  bind m k h = (Ok b, h') ->
  exists a h1, m h = (Ok a, h1) /\ k a h1 = (Ok b, h').
Proof.
  unfold bind. destruct (m h) as [[a|e] h1]; [eauto | discriminate].
Qed.

Lemma request_Ok_inv {A} ev (answer : History -> Res A) h a h' :
  request ev answer h = (Ok a, h') -> answer (ev :: h) = Ok a /\ h' = ev :: h.
Proof. unfold request. intros [= -> <-]. auto. Qed.

Lemma console_inv c h u h' : console c h = (Ok u, h') -> h' = Print c :: h.
Proof. unfold console. now intros [= <-]. Qed.

Lemma ret_inv {A} (a b : A) h h' : ret a h = (Ok b, h') -> a = b /\ h = h'.
Proof. unfold ret. intros [= -> ->]. auto. Qed.

Ltac bind_inv H :=
  repeat (apply bind_Ok_inv in H;
          let a := fresh "a" in
          let h := fresh "h" in
          let E := fresh "E" in
          destruct H as (a & h & E & H); cbv beta zeta in H).

Lemma RouteFirst_fxUpdate_Ok loadTime env h x h' :
  RouteFirst.fxUpdate loadTime env h = (Ok x, h') -> endsWithFxBand env x h'.
Proof.
  unfold RouteFirst.fxUpdate. intros H. bind_inv H.
  apply ret_inv in H as [<- <-].
  repeat match goal with
         | E : console _ _ = _ |- _ => apply console_inv in E; subst
         | E : request _ _ _ = _ |- _ =>
             apply request_Ok_inv in E; destruct E as [? ?]; subst
         end.
  unfold endsWithFxBand. eauto 10.
Qed.

Lemma Part000_fxUpdate_Ok env h x h' :
  Part000.fxUpdate env h = (Ok x, h') -> endsWithFxBand env x h'.
Proof.
  unfold Part000.fxUpdate. intros H. bind_inv H.
  apply ret_inv in H as [<- <-].
  repeat match goal with
         | E : console _ _ = _ |- _ => apply console_inv in E; subst
         | E : request _ _ _ = _ |- _ =>
             apply request_Ok_inv in E; destruct E as [? ?]; subst
         end.
  unfold endsWithFxBand. eauto 10.
Qed.

Lemma RouteFirst_fxPhase_cases loadTime env b h :
  RouteFirst.fxPhase loadTime env b h =
  match RouteFirst.fxUpdate loadTime env h with
  | (Ok x, h') => (Ok (Some x), h')
  | (Throw e, h') => (Ok b, Print (log_fx_failed e) :: h')
  end.
Proof.
  unfold RouteFirst.fxPhase, try_catch, bind, ret, console.
  now destruct (RouteFirst.fxUpdate loadTime env h) as [[x|e] h'].
Qed.

Lemma Part000_fxPhase_cases env b h :
  Part000.fxPhase env b h =
  match Part000.fxUpdate env h with
  | (Ok x, h') => (Ok (Some x), h')
  | (Throw e, h') => (Ok b, Print (log_fx_failed e) :: h')
  end.
Proof.
  unfold Part000.fxPhase, try_catch, bind, ret, console.
  now destruct (Part000.fxUpdate env h) as [[x|e] h'].
Qed.

(** The audit never throws. *)
Lemma audit_total env acc h : fst (Part000.audit env acc h) = Ok tt.
Proof.
  unfold Part000.audit, try_catch.
  destruct (bind _ _ h) as [[[]|e] h']; reflexivity.
Qed.

Lemma RouteFirst_GET_cases loadTime env h acc p b h1 :
  RouteFirst.equity loadTime env h = (Ok (acc, p, b), h1) ->
  RouteFirst.GET loadTime env h =
  let success := Success (length (priceAssets acc)) (length (bandAssets acc)) p in
  let width := DEFAULT_BAND_WIDTH_BPS (process_env env) in
  match RouteFirst.fxUpdate loadTime env h1 with
  | (Ok x, h2) => (success (Some x) width, h2)
  | (Throw e, h2) => (success b width, Print (log_fx_failed e) :: h2)
  end.
Proof.
  intros He. unfold RouteFirst.GET, respond, bind. rewrite He.
  rewrite RouteFirst_fxPhase_cases.
  now destruct (RouteFirst.fxUpdate loadTime env h1) as [[x|e] h2].
Qed.

Lemma Part000_GET_cases env h acc p b h1 :
  Part000.equity env h = (Ok (acc, p, b), h1) ->
  fst (Part000.GET env h) =
  let success := Success (length (priceAssets acc)) (length (bandAssets acc)) p in
  let width := DEFAULT_BAND_WIDTH_BPS (process_env env) in
  match Part000.fxUpdate env h1 with
  | (Ok x, _) => success (Some x) width
  | (Throw e, _) => success b width
  end.
Proof.
  intros He. unfold Part000.GET, respond, bind. rewrite He.
  rewrite Part000_fxPhase_cases.
  destruct (Part000.fxUpdate env h1) as [[x|e] h2].
  - pose proof (audit_total env acc h2) as Ha.
    destruct (Part000.audit env acc h2) as [[u|e] h3]; [reflexivity | discriminate].
  - pose proof (audit_total env acc (Print (log_fx_failed e) :: h2)) as Ha.
    destruct (Part000.audit env acc _) as [[u|e'] h3]; [reflexivity | discriminate].
Qed.

(** C4. Once the price and band phases have completed, a failure
    anywhere in the exchange-rate update is caught at the boundary of
    that phase: the response is the success, with the counts of the price
    and band arrays and with the hashes of the price and band phases, in
    the first handler of route.js and in the handler with [nowSec].
    Whatever the update does, the response is a success with these
    counts. *)
Theorem fx_isolated :
  (forall loadTime env h acc p b h1 e h2,
     RouteFirst.equity loadTime env h = (Ok (acc, p, b), h1) ->
     RouteFirst.fxUpdate loadTime env h1 = (Throw e, h2) ->
     RouteFirst.GET loadTime env h
     = (Success (length (priceAssets acc)) (length (bandAssets acc)) p b
                (DEFAULT_BAND_WIDTH_BPS (process_env env)),
        Print (log_fx_failed e) :: h2))
  /\ (forall env h acc p b h1 e h2,
        Part000.equity env h = (Ok (acc, p, b), h1) ->
        Part000.fxUpdate env h1 = (Throw e, h2) ->
        fst (Part000.GET env h)
        = Success (length (priceAssets acc)) (length (bandAssets acc)) p b
                  (DEFAULT_BAND_WIDTH_BPS (process_env env)))
  /\ (forall loadTime env h acc p b h1,
        RouteFirst.equity loadTime env h = (Ok (acc, p, b), h1) ->
        exists b',
          fst (RouteFirst.GET loadTime env h)
          = Success (length (priceAssets acc)) (length (bandAssets acc)) p b'
                    (DEFAULT_BAND_WIDTH_BPS (process_env env)))
  /\ (forall env h acc p b h1,
        Part000.equity env h = (Ok (acc, p, b), h1) ->
        exists b',
          fst (Part000.GET env h)
          = Success (length (priceAssets acc)) (length (bandAssets acc)) p b'
                    (DEFAULT_BAND_WIDTH_BPS (process_env env))).
Proof.
  repeat split.
  - intros loadTime env h acc p b h1 e h2 He Hx.
    rewrite (RouteFirst_GET_cases _ _ _ _ _ _ _ He). cbv zeta. now rewrite Hx.
  - intros env h acc p b h1 e h2 He Hx.
    rewrite (Part000_GET_cases _ _ _ _ _ _ He). cbv zeta. now rewrite Hx.
  - intros loadTime env h acc p b h1 He.
    rewrite (RouteFirst_GET_cases _ _ _ _ _ _ _ He). cbv zeta.
    destruct (RouteFirst.fxUpdate loadTime env h1) as [[x|e] h2]; eauto.
  - intros env h acc p b h1 He.
    rewrite (Part000_GET_cases _ _ _ _ _ _ He). cbv zeta.
    destruct (Part000.fxUpdate env h1) as [[x|e] h2]; eauto.
Qed.

(** C10. When the exchange-rate update completes, the [bandTxHash] of
    the response is the hash of the transaction of its [setBand] call for
    the synthetic asset, in place of the hash that the band phase left;
    when the update fails, the response has the hash that the band phase
    left. *)
Theorem fx_overwrites :
  (forall loadTime env h acc p b h1 x h2,
     RouteFirst.equity loadTime env h = (Ok (acc, p, b), h1) ->
     RouteFirst.fxUpdate loadTime env h1 = (Ok x, h2) ->
     RouteFirst.GET loadTime env h
     = (Success (length (priceAssets acc)) (length (bandAssets acc)) p (Some x)
                (DEFAULT_BAND_WIDTH_BPS (process_env env)), h2)
     /\ endsWithFxBand env x h2)
  /\ (forall env h acc p b h1 x h2,
        Part000.equity env h = (Ok (acc, p, b), h1) ->
        Part000.fxUpdate env h1 = (Ok x, h2) ->
        fst (Part000.GET env h)
        = Success (length (priceAssets acc)) (length (bandAssets acc)) p (Some x)
                  (DEFAULT_BAND_WIDTH_BPS (process_env env))
        /\ endsWithFxBand env x h2)
  /\ (forall loadTime env h acc p b h1 e h2,
        RouteFirst.equity loadTime env h = (Ok (acc, p, b), h1) ->
        RouteFirst.fxUpdate loadTime env h1 = (Throw e, h2) ->
        fst (RouteFirst.GET loadTime env h)
        = Success (length (priceAssets acc)) (length (bandAssets acc)) p b
                  (DEFAULT_BAND_WIDTH_BPS (process_env env)))
  /\ (forall env h acc p b h1 e h2,
        Part000.equity env h = (Ok (acc, p, b), h1) ->
        Part000.fxUpdate env h1 = (Throw e, h2) ->
        fst (Part000.GET env h)
        = Success (length (priceAssets acc)) (length (bandAssets acc)) p b
                  (DEFAULT_BAND_WIDTH_BPS (process_env env))).
Proof.
  split; [|split; [|split]].
  - intros loadTime env h acc p b h1 x h2 He Hx. split.
    + rewrite (RouteFirst_GET_cases _ _ _ _ _ _ _ He). cbv zeta. now rewrite Hx.
    + eapply RouteFirst_fxUpdate_Ok; eauto.
  - intros env h acc p b h1 x h2 He Hx. split.
    + rewrite (Part000_GET_cases _ _ _ _ _ _ He). cbv zeta. now rewrite Hx.
    + eapply Part000_fxUpdate_Ok; eauto.
  - intros loadTime env h acc p b h1 e h2 He Hx.
    rewrite (RouteFirst_GET_cases _ _ _ _ _ _ _ He). cbv zeta. now rewrite Hx.
  - intros env h acc p b h1 e h2 He Hx.
    rewrite (Part000_GET_cases _ _ _ _ _ _ He). cbv zeta. now rewrite Hx.
Qed.

(** The exchange-rate request fails; the response keeps the two counts
    and the hashes of the price and band phases. *)
Lemma fx_isolated_witness :
  fst (RouteFirst.GET 1700000000000
         (world [listing [mtnn; zenith]] steady false txOf offline) [])
  = Success 2 2 (Some "tx7") (Some "tx14") (ofZ 150).
Proof.
  etransitivity.
  - apply (f_equal fst). eapply (proj1 fx_isolated).
    + vm_compute. reflexivity.
    + vm_compute. reflexivity.
  - vm_compute. reflexivity.
Defined.

(** The exchange-rate update succeeds; the response has the hash of its
    band call, not "tx14". *)
Lemma fx_overwrites_witness :
  fst (RouteFirst.GET 1700000000000 (calm [listing [mtnn; zenith]]) [])
  = Success 2 2 (Some "tx7") (Some "tx23") (ofZ 150).
Proof.
  etransitivity.
  - apply (f_equal fst). eapply (proj1 fx_overwrites).
    + vm_compute. reflexivity.
    + vm_compute. reflexivity.
  - vm_compute. reflexivity.
Defined.

End FxFacts.

(** ** The stamps of the payloads *)

Module StampFacts.
Import JsString JsNumber Dom Helpers Pipeline PipelineSpec BandSpec StampSpec Examples.
Import BandFacts FxFacts.

Lemma nowSec_cases env h :
  Part000.nowSec env h =
  match chainTime env h with
  | Some t => (Ok t, GetBlock :: h)
  | None => (wallTime env h, DateNow :: GetBlock :: h)
  end.
Proof.
  unfold Part000.nowSec, chainTime, wallTime, bind, try_catch, request,
    reading, lift, ret, BigInt.
  destruct (getBlock env (GetBlock :: h)) as [[blk|]|e]; try reflexivity.
  destruct (Part000.truthy (timestamp blk)); [|reflexivity].
  destruct (toInteger (timestamp blk)); reflexivity.
Qed.








End StampFacts.

(** ** The handlers on a page *)

Module EndToEnd.
Import JsString JsNumber Dom Helpers Pipeline PipelineSpec Examples.

(** One row for MTNN at 250.50, mapped to 0xAAA, and the default band
    width: one price and one band are sent, with the fixed-point price
    250500000 and the width 150. *)
Example one_row_page :
  let '(response, h) := Part000.GET (calm [listing [mtnn]]) [] in
  response = Success 1 1 (Some "tx7") (Some "tx20") (ofZ 150)
  /\ In (SetPrices ["0xAAA"]
           [ {| PricePayload.priceE6 := Big 250500000;
                PricePayload.seq := Big 1700000001;
                PricePayload.ts := Big 1700000001;
                PricePayload.hcsMsgId := zeroHash |} ])
        (chronological h)
  /\ bandCalls (chronological h)
     = [ ("0xAAA", {| BandPayload.midE6 := Big 250500000;
                      BandPayload.widthBps := ofZ 150;
                      BandPayload.ts := Big 1700000001 |});
         (ngnAsset, {| BandPayload.midE6 := Big 1538460000;
                       BandPayload.widthBps := ofZ 150;
                       BandPayload.ts := Big 1700000001 |}) ].
Proof. vm_compute. repeat split; auto 10. Qed.

(** The oracle has the bulk call and rejects it: the loop makes one call
    per asset, and the second handler of route.js reports the hash of
    the last. *)
Example bulk_rejected :
  let env := world [listing [mtnn; zenith]] steady true rejectBands
                   (fun _ => Ok rate) in
  let '(response, h) := RouteSecond.GET env [] in
  response = Success 2 2 (Some "tx8") (Some "tx16") (ofZ 150)
  /\ List.map fst (bandCalls (chronological h)) = ["0xAAA"; "0xBBB"].
Proof. vm_compute. split; reflexivity. Qed.

(** The handler that only sets prices answers with a count of zero when
    the page has no listings table. *)
Example Part001_without_table :
  fst (Part001.GET (calm []) []) = SuccessCount 0
  /\ fst (Part000.GET (calm []) [])
     = Failure (Error "Could not locate listings table").
Proof. split; vm_compute; reflexivity. Qed.

End EndToEnd.

(** * Whole numbers are scaled exactly *)

Module ExactFacts.
Import JsString JsNumber NumberSpec Dom Helpers Pipeline PipelineSpec.
Import ExactSpec NumberFacts PayloadFacts.

Lemma shr_exact n : forall q,
  SpecFloat.iter_pos shr_1 n
    {| shr_m := Zpos (Pos.iter xO q n); shr_r := false; shr_s := false |}
  = {| shr_m := Zpos q; shr_r := false; shr_s := false |}.
Proof.
  induction n as [n IH|n IH|]; intros q; cbn [SpecFloat.iter_pos Pos.iter].
  - cbn [shr_1 orb]. now rewrite !IH.
  - now rewrite !IH.
  - reflexivity.
Qed.

Lemma Zdigits2_shift P k :
  0 < P -> 0 <= k -> Zdigits2 (P * 2 ^ k) = Zdigits2 P + k.
Proof.
  intros HP Hk.
  assert (0 < 2 ^ k) by (apply Z.pow_pos_nonneg; lia).
  rewrite !Zdigits2_log2 by nia.
  rewrite Z.log2_mul_pow2 by lia. lia.
Qed.

Lemma Zdigits2_bound P : 0 < P -> P < 2 ^ 53 -> 1 <= Zdigits2 P <= 53.
Proof.
  intros HP Hb. rewrite Zdigits2_log2 by lia.
  pose proof (Z.log2_nonneg P).
  assert (Z.log2 P < 53) by (apply Z.log2_lt_pow2; lia). lia.
Qed.

Lemma binary_round_aux_integral s M E P :
  0 < P -> P < 2 ^ 53 -> E <= 0 -> Zpos M = P * 2 ^ (- E) ->
  exists m e,
    binary_round_aux prec emax s (Zpos M) E loc_Exact = S754_finite s m e
    /\ e <= 0 /\ Zpos m = P * 2 ^ (- e).
Proof.
  intros HP Hb HE HM.
  pose proof (Zdigits2_bound P HP Hb) as HD.
  assert (Hdig : Zdigits2 (Zpos M) = Zdigits2 P - E).
  { rewrite HM, Zdigits2_shift by lia. lia. }
  assert (Hf : fexp prec emax (Zdigits2 (Zpos M) + E) - E
               = Zdigits2 P - 53 - E).
  { rewrite Hdig. unfold fexp, emin, prec, emax. lia. }
  destruct (Zdigits2 P - 53 - E) as [|n|n] eqn:En.
  - exists M, E. split; [|split; [lia | exact HM]].
    apply binary_round_aux_exact.
    + change (Zpos (digits2_pos M)) with (Zdigits2 (Zpos M)).
      rewrite Hdig. unfold prec. lia.
    + unfold emin, prec, emax. lia.
  - set (q := Z.to_pos (P * 2 ^ (53 - Zdigits2 P))).
    assert (Hq : Zpos q = P * 2 ^ (53 - Zdigits2 P)).
    { unfold q. rewrite Z2Pos.id; [reflexivity|].
      assert (0 < 2 ^ (53 - Zdigits2 P)) by (apply Z.pow_pos_nonneg; lia).
      nia. }
    assert (HMq : M = Pos.iter xO q n).
    { apply Pos2Z.inj. rewrite iter_xO_value, Hq, HM, <- Z.mul_assoc.
      rewrite <- Z.pow_add_r by lia. f_equal. f_equal. lia. }
    assert (Hs1 : shr_fexp prec emax (Zpos M) E loc_Exact
                  = ({| shr_m := Zpos q; shr_r := false; shr_s := false |},
                     Zdigits2 P - 53)).
    { unfold shr_fexp. rewrite Hf. cbn [shr_record_of_loc shr].
      rewrite HMq, shr_exact. f_equal. lia. }
    assert (Hdq : Zdigits2 (Zpos q) = 53).
    { rewrite Hq, Zdigits2_shift by lia. lia. }
    assert (Hs2 : shr_fexp prec emax (Zpos q) (Zdigits2 P - 53) loc_Exact
                  = ({| shr_m := Zpos q; shr_r := false; shr_s := false |},
                     Zdigits2 P - 53)).
    { unfold shr_fexp. rewrite Hdq.
      replace (fexp prec emax (53 + (Zdigits2 P - 53)) - (Zdigits2 P - 53))
        with 0; [reflexivity|].
      unfold fexp, emin, prec, emax. lia. }
    exists q, (Zdigits2 P - 53). split; [|split; [lia|]].
    + unfold binary_round_aux. rewrite Hs1.
      cbn [shr_m loc_of_shr_record round_nearest_even]. rewrite Hs2.
      cbn [shr_m].
      destruct (Zdigits2 P - 53 <=? emax - prec) eqn:El; [reflexivity|].
      unfold emax, prec in El. lia.
    + rewrite Hq. f_equal. f_equal. lia.
  - exists M, E. split; [|split; [lia | exact HM]].
    assert (Hs : shr_fexp prec emax (Zpos M) E loc_Exact
                 = ({| shr_m := Zpos M; shr_r := false; shr_s := false |}, E)).
    { unfold shr_fexp. rewrite Hf. reflexivity. }
    unfold binary_round_aux. rewrite Hs.
    cbn [shr_m loc_of_shr_record round_nearest_even]. rewrite Hs.
    cbn [shr_m].
    destruct (E <=? emax - prec) eqn:El; [reflexivity|].
    unfold emax, prec in El. lia.
Qed.

Lemma ofZ_integral n : Z.abs n < 2 ^ 53 -> integral (ofZ n) n.
Proof.
  intros Hb. unfold ofZ, binary_normalize.
  destruct n as [|p|p]; [reflexivity| |].
  - assert (Hd : Zpos (digits2_pos p) <= prec).
    { change (Zpos (digits2_pos p)) with (Zdigits2 (Zpos p)).
      pose proof (Zdigits2_bound (Zpos p)). unfold prec. lia. }
    destruct (binary_round_small false p Hd) as (m & e & -> & He & Hm).
    split; [exact He|]. exact Hm.
  - assert (Hd : Zpos (digits2_pos p) <= prec).
    { change (Zpos (digits2_pos p)) with (Zdigits2 (Zpos p)).
      pose proof (Zdigits2_bound (Zpos p)). unfold prec. lia. }
    destruct (binary_round_small true p Hd) as (m & e & -> & He & Hm).
    split; [exact He|]. cbn [cond_Zopp]. lia.
Qed.

Lemma integral_abs s m e n :
  e <= 0 -> cond_Zopp s (Zpos m) = n * 2 ^ (- e) ->
  Zpos m = Z.abs n * 2 ^ (- e) /\ (s = true <-> n < 0) /\ n <> 0.
Proof.
  intros He H.
  assert (0 < 2 ^ (- e)) by (apply Z.pow_pos_nonneg; lia).
  destruct s; cbn [cond_Zopp] in H.
  - assert (n < 0) by nia. repeat split; try lia; nia.
  - assert (0 < n) by nia. repeat split; try lia; try nia; try discriminate.
Qed.

Lemma fmul_integral x y a b :
  integral x a -> integral y b -> Z.abs (a * b) < 2 ^ 53 ->
  integral (fmul x y) (a * b).
Proof.
  intros Hx Hy Hb. unfold fmul.
  destruct x as [sx|sx| |sx mx ex]; try contradiction;
    destruct y as [sy|sy| |sy my ey]; try contradiction; cbn [SFmul integral].
  - cbn in Hx. subst a. reflexivity.
  - cbn in Hx. subst a. reflexivity.
  - cbn in Hy. subst b. lia.
  - destruct Hx as [Hex Hx], Hy as [Hey Hy].
    destruct (integral_abs _ _ _ _ Hex Hx) as (Hmx & Hsx & Hax).
    destruct (integral_abs _ _ _ _ Hey Hy) as (Hmy & Hsy & Hby).
    assert (HM : Zpos (mx * my) = Z.abs (a * b) * 2 ^ (- (ex + ey))).
    { rewrite Pos2Z.inj_mul, Hmx, Hmy, Z.abs_mul.
      replace (- (ex + ey)) with (- ex + - ey) by lia.
      rewrite Z.pow_add_r by lia. ring. }
    destruct (binary_round_aux_integral (xorb sx sy) (mx * my) (ex + ey)
                (Z.abs (a * b))) as (m & e & -> & He & Hm);
      [nia | exact Hb | lia | exact HM |].
    split; [exact He|]. rewrite Hm.
    assert (0 < 2 ^ (- e)) by (apply Z.pow_pos_nonneg; lia).
    destruct sx, sy; cbn [xorb cond_Zopp];
      destruct Hsx as [Hsx1 Hsx2], Hsy as [Hsy1 Hsy2];
      try (specialize (Hsx1 eq_refl)); try (specialize (Hsy1 eq_refl)).
    + rewrite Z.abs_eq by nia. reflexivity.
    + assert (0 < b) by (destruct (Z.lt_trichotomy b 0) as [?|[?|?]];
                         [specialize (Hsy2 ltac:(assumption)); discriminate
                         | contradiction | assumption]).
      rewrite Z.abs_neq by nia. lia.
    + assert (0 < a) by (destruct (Z.lt_trichotomy a 0) as [?|[?|?]];
                         [specialize (Hsx2 ltac:(assumption)); discriminate
                         | contradiction | assumption]).
      rewrite Z.abs_neq by nia. lia.
    + assert (0 < a) by (destruct (Z.lt_trichotomy a 0) as [?|[?|?]];
                         [specialize (Hsx2 ltac:(assumption)); discriminate
                         | contradiction | assumption]).
      assert (0 < b) by (destruct (Z.lt_trichotomy b 0) as [?|[?|?]];
                         [specialize (Hsy2 ltac:(assumption)); discriminate
                         | contradiction | assumption]).
      rewrite Z.abs_eq by nia. reflexivity.
Qed.

Lemma integral_nearest x n :
  integral x n -> isFinite x = true /\ nearestInteger x = n.
Proof.
  destruct x as [s|s| |s m e]; try contradiction; cbn [integral].
  - intros ->. split; reflexivity.
  - intros [He H]. split; [reflexivity|].
    unfold nearestInteger, roundHalfUp.
    destruct e as [|k|k]; [rewrite H; cbn; lia | lia |].
    rewrite H. change (- Zneg k) with (Zpos k).
    assert (0 < 2 ^ Zpos k) by (apply Z.pow_pos_nonneg; lia).
    rewrite Z.pow_add_r by lia. change (2 ^ 1) with 2.
    replace (2 * (n * 2 ^ Zpos k) + 2 ^ Zpos k)
      with ((2 * n + 1) * 2 ^ Zpos k) by ring.
    rewrite (Z.mul_comm (2 ^ Zpos k) 2).
    rewrite Z.div_mul_cancel_r by lia.
    symmetry. apply (Z.div_unique _ _ _ 1); lia.
Qed.

Lemma digit_cases c :
  isDigit c = true ->
  isWhiteSpace c = false /\ isCommaOrSpace c = false
  /\ c <> "+"%char /\ c <> "-"%char /\ c <> "."%char /\ c <> "I"%char.
Proof.
  destruct c as [[] [] [] [] [] [] [] []]; intros H; try discriminate H;
    repeat split; try reflexivity; discriminate.
Qed.

Lemma allDigits_removeAll ds :
  allDigits ds = true -> removeAll isCommaOrSpace ds = ds.
Proof.
  induction ds as [|c r IH]; [reflexivity|]. cbn.
  intros H. apply andb_true_iff in H as [Hc Hr].
  destruct (digit_cases c Hc) as (_ & -> & _). now rewrite IH.
Qed.

Lemma allDigits_noneOf ds :
  allDigits ds = true -> HelpersSpec.noneOf isWhiteSpace ds = true.
Proof.
  induction ds as [|c r IH]; [reflexivity|]. cbn.
  intros H. apply andb_true_iff in H as [Hc Hr].
  destruct (digit_cases c Hc) as (-> & _). now rewrite IH.
Qed.

Lemma allDigits_span ds :
  allDigits ds = true -> spanDigits ds = (ds, EmptyString).
Proof.
  induction ds as [|c r IH]; [reflexivity|]. cbn.
  intros H. apply andb_true_iff in H as [Hc Hr].
  now rewrite Hc, IH.
Qed.

Lemma digitsValueFrom_nonneg ds : forall acc,
  allDigits ds = true -> 0 <= acc -> 0 <= digitsValueFrom acc ds.
Proof.
  induction ds as [|c r IH]; intros acc H Ha; [exact Ha|]. cbn in *.
  apply andb_true_iff in H as [Hc Hr]. apply IH; [exact Hr|].
  unfold isDigit in Hc. unfold digitValue. lia.
Qed.

Lemma append_empty s : String.append s EmptyString = s.
Proof.
  induction s as [|c r IH]; [reflexivity|].
  change (String c (String.append r EmptyString) = String c r).
  now rewrite IH.
Qed.

Lemma ofString_whole ds :
  isWhole ds = true -> ofString ds = ofZ (digitsValue ds).
Proof.
  unfold isWhole. intros H. apply andb_true_iff in H as [Hne Hd].
  unfold ofString.
  rewrite (HelpersFacts.trim_noneOf ds (allDigits_noneOf ds Hd)).
  destruct ds as [|c r]; [discriminate|]. cbn [isEmpty].
  pose proof Hd as Hd'. cbn in Hd'. apply andb_true_iff in Hd' as [Hc Hr].
  destruct (digit_cases c Hc) as (_ & _ & Hplus & Hminus & Hdot & HI).
  assert (Hnd : parseNonDecimal (String c r) = None).
  { unfold parseNonDecimal.
    destruct r as [|p ds].
    - destruct c as [[] [] [] [] [] [] [] []]; reflexivity.
    - cbn in Hr. apply andb_true_iff in Hr as [Hp _].
      assert (Hx : (Ascii.eqb p "x" || Ascii.eqb p "X") = false
                   /\ (Ascii.eqb p "o" || Ascii.eqb p "O") = false
                   /\ (Ascii.eqb p "b" || Ascii.eqb p "B") = false).
      { destruct p as [[] [] [] [] [] [] [] []]; try discriminate Hp;
          repeat split; reflexivity. }
      destruct Hx as (Hx & Ho & Hb).
      destruct c as [[] [] [] [] [] [] [] []]; try reflexivity.
      rewrite Hx, Ho, Hb. reflexivity. }
  rewrite Hnd. unfold parseSignedDecimal.
  assert (Hs : match String c r with
               | String "+" t => (false, t)
               | String "-" t => (true, t)
               | _ => (false, String c r)
               end = (false, String c r)).
  { destruct c as [[] [] [] [] [] [] [] []]; try reflexivity.
    - exfalso. now apply Hminus.
    - exfalso. now apply Hplus. }
  rewrite Hs.
  assert (Hinf : String.eqb (String c r) "Infinity" = false).
  { cbn. destruct (Ascii.eqb c "I") eqn:E; [|reflexivity].
    apply Ascii.eqb_eq in E. contradiction. }
  rewrite Hinf. unfold parseUnsignedDecimal.
  rewrite (allDigits_span _ Hd). cbn [isEmpty andb parseExponent].
  rewrite append_empty. unfold strlen. cbn [String.length Z.of_nat Z.sub].
  pose proof (digitsValueFrom_nonneg (String c r) 0 Hd ltac:(lia)) as Hv.
  fold (digitsValue (String c r)) in Hv.
  unfold ofDecimal, ofZ.
  destruct (digitsValue (String c r)) as [|p|p]; [reflexivity| |lia].
  cbn [Z.leb Z.compare cond_Zopp]. now rewrite Z.pow_0_r, Z.mul_1_r.
Qed.

Lemma toNumber_whole txt ds :
  removeAll isCommaOrSpace txt = ds -> isWhole ds = true ->
  Z.abs (digitsValue ds) < 2 ^ 53 ->
  toNumber txt = Some (ofZ (digitsValue ds)).
Proof.
  intros Hr Hw Hb. unfold toNumber.
  destruct txt as [|c r]; [subst ds; discriminate|]. cbn [isEmpty].
  rewrite Hr. pose proof Hw as Hw'. unfold isWhole in Hw'.
  apply andb_true_iff in Hw' as [Hne Hd].
  rewrite (HelpersFacts.trim_noneOf ds (allDigits_noneOf ds Hd)).
  rewrite (ofString_whole ds Hw).
  destruct (integral_nearest _ _ (ofZ_integral _ Hb)) as [-> _].
  destruct ds as [|d ds']; [discriminate|].
  cbn in Hd. apply andb_true_iff in Hd as [Hc _].
  destruct (digit_cases d Hc) as (_ & _ & _ & Hminus & _).
  assert (String.eqb (String d ds') "-" = false) as ->; [|reflexivity].
  cbn. destruct (Ascii.eqb d "-") eqn:E; [|reflexivity].
  apply Ascii.eqb_eq in E. contradiction.
Qed.

(** X1. A price that is a whole number is converted exactly. For a
    price text that, once its commas and spaces are removed, is a
    text of decimal digits whose value [n] times 1000000 is below
    2^53, [toNumber] gives the Number [n] and the fixed-point price is
    [n * 1000000]: the multiplication by 1e6 and the rounding lose
    nothing, and [BigInt] does not throw. *)
Theorem whole_price_exact txt ds :
  removeAll isCommaOrSpace txt = ds ->
  isWhole ds = true ->
  digitsValue ds * 1000000 < 2 ^ 53 ->
  toNumber txt = Some (ofZ (digitsValue ds))
  /\ toE6 (ofZ (digitsValue ds)) = Ok (digitsValue ds * 1000000).
Proof.
  intros Hr Hw Hb.
  assert (Hv : 0 <= digitsValue ds).
  { apply digitsValueFrom_nonneg; [|lia].
    unfold isWhole in Hw. now apply andb_true_iff in Hw as [_ Hd]. }
  split.
  - apply toNumber_whole; [exact Hr | exact Hw | lia].
  - assert (Hi : integral (scaled (ofZ (digitsValue ds)))
                          (digitsValue ds * 1000000)).
    { unfold scaled, million. apply fmul_integral.
      - apply ofZ_integral. lia.
      - apply ofZ_integral. cbn. lia.
      - lia. }
    destruct (integral_nearest _ _ Hi) as [Hf Hn].
    rewrite (toE6_ok _ Hf). now rewrite Hn.
Qed.

Lemma whole_price_exact_witness :
  toNumber "1,020" = Some (ofZ 1020)
  /\ toE6 (ofZ 1020) = Ok 1020000000.
Proof.
  apply (whole_price_exact "1,020" "1020"); [reflexivity | reflexivity |].
  vm_compute. reflexivity.
Defined.

End ExactFacts.

(** * The clock in seconds *)

Module ClockFacts.
Import JsString JsNumber NumberSpec Dom Helpers Pipeline PipelineSpec.
Import ExactSpec NumberFacts PayloadFacts ExactFacts.

Lemma Zdigits2_53 m : Zdigits2 m = 53 -> 0 < m -> 2 ^ 52 <= m < 2 ^ 53.
Proof.
  intros Hd Hm. rewrite Zdigits2_log2 in Hd by lia.
  destruct (Z.log2_spec m Hm) as [Hl Hu].
  replace (Z.log2 m) with 52 in * by lia. split; [exact Hl|].
  exact Hu.
Qed.

Lemma Zdigits2_of_bounds m d :
  0 < d -> 2 ^ (d - 1) <= m < 2 ^ d -> Zdigits2 m = d.
Proof.
  intros Hd [Hl Hu].
  assert (0 < 2 ^ (d - 1)) by (apply Z.pow_pos_nonneg; lia).
  rewrite Zdigits2_log2 by lia.
  assert (Z.log2 m = d - 1); [|lia].
  apply Z.log2_unique; [lia|]. split; [exact Hl|].
  eapply Z.lt_le_trans; [exact Hu|]. apply Z.pow_le_mono_r; lia.
Qed.

Lemma ofZ_normal p :
  Zpos p < 2 ^ 53 ->
  exists m e,
    ofZ (Zpos p) = S754_finite false m e
    /\ e = Zdigits2 (Zpos p) - 53
    /\ Zpos m = Zpos p * 2 ^ (- e).
Proof.
  intros Hb. pose proof (Zdigits2_bound (Zpos p) ltac:(lia) Hb) as Hd.
  cbn [Zdigits2] in Hd.
  unfold ofZ, binary_normalize, binary_round.
  assert (Hf : fexp prec emax (Zpos (digits2_pos p) + 0)
               = Zpos (digits2_pos p) - prec).
  { unfold fexp, emin, prec, emax in *. lia. }
  rewrite Hf. unfold shl_align. cbn [Zdigits2].
  destruct (Zpos (digits2_pos p) - prec - 0) as [|k|k] eqn:E;
    unfold prec in E; try lia.
  - exists p, 0. split; [|split; [lia | cbn; lia]].
    apply binary_round_aux_exact; [unfold prec; lia|].
    unfold emin, prec, emax; lia.
  - exists (Pos.iter xO p k), (Zpos (digits2_pos p) - 53).
    split; [|split; [reflexivity|]].
    + apply binary_round_aux_exact.
      * rewrite iter_xO_digits. unfold prec. lia.
      * unfold emin, prec, emax in *. lia.
    + rewrite iter_xO_value. f_equal. f_equal. lia.
Qed.

Lemma rne_cases m l :
  round_nearest_even m l = m \/ round_nearest_even m l = m + 1.
Proof.
  destruct l as [|[]]; cbn; auto. destruct (Z.even m); auto.
Qed.

Lemma loc_of_record m l : loc_of_shr_record (shr_record_of_loc m l) = l.
Proof. destruct l as [|[]]; reflexivity. Qed.

Lemma shr_fexp_normal m e l :
  2 ^ 52 <= m < 2 ^ 53 -> emin prec emax <= e ->
  shr_fexp prec emax m e l = (shr_record_of_loc m l, e).
Proof.
  intros Hm He. unfold shr_fexp.
  rewrite (Zdigits2_of_bounds m 53) by (cbn; lia).
  replace (fexp prec emax (53 + e) - e) with 0; [reflexivity|].
  unfold fexp, prec in *. fold (emin 53 emax). lia.
Qed.

Lemma shr_fexp_wide m e l :
  2 ^ 53 <= m < 2 ^ 54 -> emin prec emax <= e ->
  shr_fexp prec emax m e l = (shr_1 (shr_record_of_loc m l), e + 1).
Proof.
  intros Hm He. unfold shr_fexp.
  rewrite (Zdigits2_of_bounds m 54) by (cbn; lia).
  replace (fexp prec emax (54 + e) - e) with 1; [reflexivity|].
  unfold fexp, prec in *. fold (emin 53 emax). lia.
Qed.

Lemma finite_of_mantissa s m e :
  0 < m -> e <= emax - prec ->
  match m with
  | 0 => S754_zero s
  | Zpos p => if e <=? emax - prec then S754_finite s p e
              else S754_infinity s
  | Zneg _ => S754_nan
  end = S754_finite s (Z.to_pos m) e.
Proof.
  intros Hm He. destruct m as [|p|p]; try lia.
  destruct (e <=? emax - prec) eqn:E; [reflexivity | lia].
Qed.

Lemma div2_bounds q : 2 * (q / 2) <= q < 2 * (q / 2) + 2.
Proof.
  pose proof (Z.div_mod q 2 ltac:(lia)).
  pose proof (Z.mod_pos_bound q 2 ltac:(lia)). lia.
Qed.

(** Rounding a quotient of 53 or 54 bits moves it by less than one
    unit of its last bit or of the bit before it. *)
Lemma round_bracket s q e l :
  2 ^ 52 <= q -> q < 2 ^ 54 - 2 ->
  emin prec emax <= e -> e + 1 <= emax - prec ->
  exists M ef,
    binary_round_aux prec emax s q e l = S754_finite s M ef
    /\ ((ef = e /\ q <= Zpos M <= q + 1)
        \/ (ef = e + 1 /\ q / 2 <= Zpos M <= q / 2 + 1)).
Proof.
  intros Hl Hu He He'. unfold binary_round_aux.
  pose proof (div2_bounds q) as Hh.
  destruct (Z_lt_le_dec q (2 ^ 53)) as [Hn|Hw].
  - rewrite (shr_fexp_normal q e l) by lia.
    rewrite shr_record_of_loc_m, loc_of_record.
    destruct (rne_cases q l) as [-> | ->].
    + rewrite (shr_fexp_normal q e loc_Exact) by lia.
      cbn [shr_record_of_loc shr_m].
      rewrite finite_of_mantissa by lia.
      eexists _, _. split; [reflexivity|]. left. rewrite Z2Pos.id by lia. lia.
    + destruct (Z.eq_dec (q + 1) (2 ^ 53)) as [Ec|Ec].
      * rewrite Ec. rewrite (shr_fexp_wide (2 ^ 53) e loc_Exact) by lia.
        change (shr_m (shr_1 (shr_record_of_loc (2 ^ 53) loc_Exact)))
          with (2 ^ 52).
        rewrite finite_of_mantissa by lia.
        eexists _, _. split; [reflexivity|]. right.
        rewrite Z2Pos.id by lia. lia.
      * rewrite (shr_fexp_normal (q + 1) e loc_Exact) by lia.
        cbn [shr_record_of_loc shr_m].
        rewrite finite_of_mantissa by lia.
        eexists _, _. split; [reflexivity|]. left.
        rewrite Z2Pos.id by lia. lia.
  - rewrite (shr_fexp_wide q e l) by lia.
    set (rec := shr_1 (shr_record_of_loc q l)).
    assert (Hm : shr_m rec = q / 2).
    { unfold rec. rewrite shr_1_m; rewrite shr_record_of_loc_m;
        [reflexivity | lia]. }
    destruct (rne_cases (shr_m rec) (loc_of_shr_record rec)) as [-> | ->];
      rewrite Hm.
    + rewrite (shr_fexp_normal (q / 2) (e + 1) loc_Exact) by lia.
      cbn [shr_record_of_loc shr_m].
      rewrite finite_of_mantissa by lia.
      eexists _, _. split; [reflexivity|]. right.
      rewrite Z2Pos.id by lia. lia.
    + rewrite (shr_fexp_normal (q / 2 + 1) (e + 1) loc_Exact) by lia.
      cbn [shr_record_of_loc shr_m].
      rewrite finite_of_mantissa by lia.
      eexists _, _. split; [reflexivity|]. right.
      rewrite Z2Pos.id by lia. lia.
Qed.

Lemma thousand_value : ofZ 1000 = S754_finite false 8796093022208000 (-43).
Proof. vm_compute. reflexivity. Qed.

Lemma div_core_thousand mx ex :
  2 ^ 52 <= Zpos mx < 2 ^ 53 -> -52 <= ex <= 0 ->
  SFdiv_core_binary prec emax (Zpos mx) ex 8796093022208000 (-43)
  = (Zpos mx * 1024 / 1000, ex - 10,
     new_location 8796093022208000
       ((Zpos mx * 2 ^ 53) mod 8796093022208000)).
Proof.
  intros Hm He. unfold SFdiv_core_binary.
  rewrite (Zdigits2_of_bounds (Zpos mx) 53) by (cbn; lia).
  change (Zdigits2 8796093022208000) with 53.
  replace (Z.min (fexp prec emax (53 + ex - (53 + -43))) (ex - -43))
    with (ex - 10) by (unfold fexp, emin, prec, emax; lia).
  replace (ex - -43 - (ex - 10)) with 53 by lia.
  rewrite Z.shiftl_mul_pow2 by lia.
  assert (Hq : Zpos mx * 2 ^ 53 / 8796093022208000 = Zpos mx * 1024 / 1000).
  { change 8796093022208000 with (1000 * 2 ^ 43).
    replace (Zpos mx * 2 ^ 53) with (Zpos mx * 1024 * 2 ^ 43)
      by (change (2 ^ 53) with (1024 * 2 ^ 43); ring).
    apply Z.div_mul_cancel_r; lia. }
  rewrite <- Hq. unfold Z.div, Z.modulo.
  destruct (Z.div_eucl (Zpos mx * 2 ^ 53) 8796093022208000) as [q r].
  reflexivity.
Qed.

Lemma fdiv_thousand mx ex :
  2 ^ 52 <= Zpos mx < 2 ^ 53 -> -52 <= ex <= 0 ->
  exists M ef,
    fdiv (S754_finite false mx ex) (ofZ 1000) = S754_finite false M ef
    /\ ((ef = ex - 10
         /\ Zpos mx * 1024 / 1000 <= Zpos M <= Zpos mx * 1024 / 1000 + 1)
        \/ (ef = ex - 9
            /\ Zpos mx * 1024 / 1000 / 2 <= Zpos M
               <= Zpos mx * 1024 / 1000 / 2 + 1)).
Proof.
  intros Hm He. rewrite thousand_value. unfold fdiv, SFdiv.
  rewrite (div_core_thousand mx ex Hm He). cbn [xorb].
  assert (Hl : 2 ^ 52 <= Zpos mx * 1024 / 1000).
  { apply Z.div_le_lower_bound; lia. }
  assert (Hu : Zpos mx * 1024 / 1000 < 2 ^ 54 - 2).
  { apply Z.div_lt_upper_bound; lia. }
  destruct (round_bracket false (Zpos mx * 1024 / 1000) (ex - 10)
              (new_location 8796093022208000
                 ((Zpos mx * 2 ^ 53) mod 8796093022208000)) Hl Hu)
    as (M & ef & -> & Hc);
    [unfold emin, prec, emax; lia | unfold prec, emax; lia |].
  exists M, ef. split; [reflexivity|].
  destruct Hc as [[-> Hb] | [-> Hb]]; [left | right]; (split; [lia | exact Hb]).
Qed.

Lemma floor_of_rounded p T q M :
  0 <= p -> 1000 < T -> q = p * T / 1000 ->
  q <= M <= q + 1 -> M / T = p / 1000.
Proof.
  intros Hp HT -> HM.
  pose proof (Z.div_mod p 1000 ltac:(lia)) as Hd.
  pose proof (Z.mod_pos_bound p 1000 ltac:(lia)) as Hr.
  pose proof (Z.div_mod (p * T) 1000 ltac:(lia)) as Hd'.
  pose proof (Z.mod_pos_bound (p * T) 1000 ltac:(lia)) as Hr'.
  set (Q := p / 1000) in *. set (q := p * T / 1000) in *.
  assert (H1 : 1000 * Q * T <= p * T) by (apply Z.mul_le_mono_nonneg_r; lia).
  assert (H2 : p * T <= (1000 * Q + 999) * T)
    by (apply Z.mul_le_mono_nonneg_r; lia).
  symmetry. apply (Z.div_unique_pos _ _ _ (M - Q * T)); [|ring].
  split; nia.
Qed.

Lemma floor_of_rounded_half p T q M :
  0 <= p -> 1000 < T -> q = p * (2 * T) / 1000 ->
  q / 2 <= M <= q / 2 + 1 -> M / T = p / 1000.
Proof.
  intros Hp HT -> HM.
  pose proof (Z.div_mod p 1000 ltac:(lia)) as Hd.
  pose proof (Z.mod_pos_bound p 1000 ltac:(lia)) as Hr.
  pose proof (Z.div_mod (p * (2 * T)) 1000 ltac:(lia)) as Hd'.
  pose proof (Z.mod_pos_bound (p * (2 * T)) 1000 ltac:(lia)) as Hr'.
  pose proof (div2_bounds (p * (2 * T) / 1000)) as Hh.
  set (Q := p / 1000) in *. set (q := p * (2 * T) / 1000) in *.
  assert (H1 : 1000 * Q * T <= p * T) by (apply Z.mul_le_mono_nonneg_r; lia).
  assert (H2 : p * T <= (1000 * Q + 999) * T)
    by (apply Z.mul_le_mono_nonneg_r; lia).
  symmetry. apply (Z.div_unique_pos _ _ _ (M - Q * T)); [|ring].
  split; nia.
Qed.

Lemma ofInteger_ofZ n : ofInteger false n = ofZ n.
Proof. destruct n; reflexivity. Qed.

Lemma seconds_floor ms :
  0 <= ms < 2 ^ 52 -> seconds ms = ofZ (ms / 1000).
Proof.
  intros [Hl Hu].
  destruct ms as [|p|p]; [vm_compute; reflexivity | | lia].
  destruct (ofZ_normal p ltac:(lia)) as (m & e & Ho & He & Hm).
  pose proof (Zdigits2_bound (Zpos p) ltac:(lia) ltac:(lia)) as Hd.
  assert (Hd52 : Zdigits2 (Zpos p) <= 52).
  { rewrite Zdigits2_log2 by lia.
    assert (Z.log2 (Zpos p) < 52) by (apply Z.log2_lt_pow2; lia). lia. }
  assert (Hdm : Zdigits2 (Zpos m) = 53).
  { rewrite Hm, Zdigits2_shift by lia. lia. }
  pose proof (Zdigits2_53 _ Hdm ltac:(lia)) as Hmb.
  destruct (fdiv_thousand m e Hmb ltac:(lia)) as (M & ef & Hq & Hc).
  unfold seconds. rewrite Ho, Hq.
  assert (Hk : Zpos m * 1024 = Zpos p * 2 ^ (10 - e)).
  { rewrite Hm. replace (10 - e) with (- e + 10) by lia.
    rewrite Z.pow_add_r by lia. change (2 ^ 10) with 1024. ring. }
  rewrite Hk in Hc.
  assert (Hfl : ef < 0 /\ Zpos M / 2 ^ (- ef) = Zpos p / 1000).
  { destruct Hc as [[-> Hc] | [-> Hc]]; (split; [lia|]).
    - apply (floor_of_rounded (Zpos p) _ (Zpos p * 2 ^ (10 - e) / 1000));
        [lia | | f_equal; f_equal; f_equal; lia | exact Hc].
      replace (- (e - 10)) with (10 - e) by lia.
      assert (2 ^ 11 <= 2 ^ (10 - e)) by (apply Z.pow_le_mono_r; lia). lia.
    - apply (floor_of_rounded_half (Zpos p) _
               (Zpos p * 2 ^ (10 - e) / 1000));
        [lia | | | exact Hc].
      + replace (- (e - 9)) with (9 - e) by lia.
        assert (2 ^ 10 <= 2 ^ (9 - e)) by (apply Z.pow_le_mono_r; lia). lia.
      + f_equal. f_equal. replace (- (e - 9)) with (9 - e) by lia.
        replace (10 - e) with (Z.succ (9 - e)) by lia.
        rewrite Z.pow_succ_r by lia. reflexivity. }
  destruct Hfl as [Hneg Hfl]. destruct ef as [|k|k]; try lia.
  cbn [Math_floor floorZ cond_Zopp]. change (- Zneg k) with (Zpos k) in Hfl.
  rewrite Hfl. apply ofInteger_ofZ.
Qed.

Lemma BigInt_ofZ n : Z.abs n < 2 ^ 53 -> BigInt (ofZ n) = Ok n.
Proof.
  intros Hb. unfold BigInt.
  pose proof (ofZ_integral n Hb) as Hi.
  destruct (ofZ n) as [s|s| |s m e]; cbn [integral] in Hi; try contradiction.
  - now subst.
  - destruct Hi as [He Hi].
    destruct (integral_abs _ _ _ _ He Hi) as (Hm & _ & _).
    rewrite (toInteger_small s m e (Z.to_pos (Z.abs n))).
    + rewrite Z2Pos.id by lia. f_equal.
      assert (0 < 2 ^ (- e)) by (apply Z.pow_pos_nonneg; lia).
      destruct s; cbn [cond_Zopp] in *; nia.
    + exact He.
    + rewrite Z2Pos.id by lia. exact Hm.
Qed.

Lemma BigInt_seconds_floor ms :
  0 <= ms < 2 ^ 52 ->
  BigInt (seconds ms) = Ok (ms / 1000) /\ isFinite (seconds ms) = true.
Proof.
  intros Hm. rewrite (seconds_floor ms Hm).
  assert (Hq : 0 <= ms / 1000 < 2 ^ 52).
  { split; [apply Z.div_pos; lia|].
    apply Z.div_lt_upper_bound; lia. }
  assert (Hb : BigInt (ofZ (ms / 1000)) = Ok (ms / 1000))
    by (apply BigInt_ofZ; lia).
  split; [exact Hb|].
  destruct (isFinite (ofZ (ms / 1000))) eqn:E; [reflexivity|].
  unfold BigInt in Hb. now rewrite (toInteger_not_finite _ E) in Hb.
Qed.

(** X2. The clock in seconds is exact. For a clock reading of [ms]
    milliseconds with [0 <= ms < 2^52], [Math.floor(ms / 1000)] is the
    Number of the integer quotient of [ms] by 1000, and [BigInt] of it
    is that integer and does not throw: the division of Numbers, its
    rounding and the floor lose nothing. This is the timestamp of the
    module constant [now], of the rows of the second handler of
    route.js, and of [nowSec] when it falls back to the wall clock. *)
Theorem seconds_exact ms :
  0 <= ms < 2 ^ 52 ->
  seconds ms = ofZ (ms / 1000)
  /\ BigInt (seconds ms) = Ok (ms / 1000).
Proof.
  intros Hm. split; [exact (seconds_floor ms Hm)|].
  exact (proj1 (BigInt_seconds_floor ms Hm)).
Qed.

Lemma seconds_exact_witness :
  seconds 1700000000999 = ofZ 1700000000
  /\ BigInt (seconds 1700000000999) = Ok 1700000000.
Proof. apply (seconds_exact 1700000000999). lia. Defined.

End ClockFacts.

(** * Prices with decimals are scaled exactly *)

Module DecimalFacts.
Import JsString JsNumber NumberSpec Dom Helpers Pipeline PipelineSpec.
Import ExactSpec NumberFacts PayloadFacts ExactFacts ClockFacts.

Lemma shr_fexp_trunc P E l :
  2 ^ 52 <= P -> emin prec emax <= E + (Zdigits2 P - 53) ->
  exists mrs,
    shr_fexp prec emax P E l = (mrs, E + (Zdigits2 P - 53))
    /\ shr_m mrs = P / 2 ^ (Zdigits2 P - 53).
Proof.
  intros HP HE. unfold shr_fexp.
  assert (Hd : 53 <= Zdigits2 P).
  { rewrite Zdigits2_log2 by lia.
    assert (52 <= Z.log2 P) by (apply Z.log2_le_pow2; lia). lia. }
  replace (fexp prec emax (Zdigits2 P + E) - E) with (Zdigits2 P - 53)
    by (unfold fexp, prec in *; fold (emin 53 emax); lia).
  destruct (Zdigits2 P - 53) as [|n|n] eqn:En; try lia.
  - eexists. split; [cbn [shr]; f_equal; lia|].
    rewrite shr_record_of_loc_m. cbn. now rewrite Z.div_1_r.
  - eexists. split; [reflexivity|].
    rewrite iter_shr_m; rewrite shr_record_of_loc_m; [reflexivity | lia].
Qed.

(** Rounding to 53 bits moves a mantissa by less than one unit of the
    last bit that is kept. *)
Lemma round_scaled s P E l :
  2 ^ 52 <= P ->
  emin prec emax <= E + (Zdigits2 P - 53) ->
  E + (Zdigits2 P - 53) + 1 <= emax - prec ->
  exists M c,
    binary_round_aux prec emax s P E l = S754_finite s M (E + c)
    /\ Zdigits2 P - 53 <= c <= Zdigits2 P - 53 + 1
    /\ 2 ^ 52 <= Zpos M < 2 ^ 53
    /\ (Zpos M - 1) * 2 ^ c <= P < (Zpos M + 1) * 2 ^ c.
Proof.
  intros HP HE HE'.
  assert (Hd : 53 <= Zdigits2 P).
  { rewrite Zdigits2_log2 by lia.
    assert (52 <= Z.log2 P) by (apply Z.log2_le_pow2; lia). lia. }
  set (n := Zdigits2 P - 53) in *.
  assert (Hn : 0 <= n) by lia.
  assert (H2n : 0 < 2 ^ n) by (apply Z.pow_pos_nonneg; lia).
  destruct (shr_fexp_trunc P E l HP HE) as (mrs & Hs & Hm). fold n in Hs, Hm.
  set (t := P / 2 ^ n) in *.
  assert (Ht : 2 ^ n * t <= P < 2 ^ n * (t + 1)).
  { unfold t. pose proof (Z.div_mod P (2 ^ n) ltac:(lia)).
    pose proof (Z.mod_pos_bound P (2 ^ n) ltac:(lia)). lia. }
  assert (HPb : 2 ^ (52 + n) <= P < 2 ^ (53 + n)).
  { assert (Hlog : Z.log2 P = 52 + n)
      by (unfold n; rewrite Zdigits2_log2 by lia; lia).
    destruct (Z.log2_spec P ltac:(lia)) as [Hl Hu]. rewrite Hlog in Hl, Hu.
    split; [exact Hl|]. now replace (53 + n) with (Z.succ (52 + n)) by lia. }
  assert (Htb : 2 ^ 52 <= t < 2 ^ 53).
  { rewrite !Z.pow_add_r in HPb by lia. split.
    - apply Z.div_le_lower_bound; lia.
    - apply Z.div_lt_upper_bound; lia. }
  unfold binary_round_aux. rewrite Hs, Hm.
  destruct (rne_cases t (loc_of_shr_record mrs)) as [-> | ->].
  - rewrite (shr_fexp_normal t (E + n) loc_Exact) by lia.
    cbn [shr_record_of_loc shr_m]. rewrite finite_of_mantissa by lia.
    exists (Z.to_pos t), n. rewrite Z2Pos.id by lia.
    repeat split; try lia; nia.
  - destruct (Z.eq_dec (t + 1) (2 ^ 53)) as [Ec|Ec].
    + rewrite Ec. rewrite (shr_fexp_wide (2 ^ 53) (E + n) loc_Exact) by lia.
      change (shr_m (shr_1 (shr_record_of_loc (2 ^ 53) loc_Exact)))
        with (2 ^ 52).
      rewrite finite_of_mantissa by lia.
      exists (Z.to_pos (2 ^ 52)), (n + 1).
      rewrite Z2Pos.id by lia. rewrite Z.add_assoc.
      rewrite Z.pow_add_r by lia. change (2 ^ 1) with 2.
      repeat split; try lia; nia.
    + rewrite (shr_fexp_normal (t + 1) (E + n) loc_Exact) by lia.
      cbn [shr_record_of_loc shr_m]. rewrite finite_of_mantissa by lia.
      exists (Z.to_pos (t + 1)), n. rewrite Z2Pos.id by lia.
      repeat split; try lia; nia.
Qed.

Lemma div_core_decimal p D :
  0 < D -> Zpos p < 2 ^ 53 -> D < 2 ^ 53 ->
  let s := 53 + Zdigits2 D - Zdigits2 (Zpos p) in
  SFdiv_core_binary prec emax (Zpos p) 0 D 0
  = (Zpos p * 2 ^ s / D, - s,
     new_location D ((Zpos p * 2 ^ s) mod D)).
Proof.
  intros HD Hp HD' s.
  pose proof (Zdigits2_bound (Zpos p) ltac:(lia) Hp) as Hd1.
  pose proof (Zdigits2_bound D HD HD') as Hd2.
  unfold SFdiv_core_binary.
  replace (Z.min (fexp prec emax (Zdigits2 (Zpos p) + 0 - (Zdigits2 D + 0)))
                 (0 - 0))
    with (- s) by (unfold s, fexp, emin, prec, emax; lia).
  replace (0 - 0 - - s) with s by lia.
  assert (Hs : 0 < s) by (unfold s; lia).
  destruct s as [|s'|s'] eqn:Es; try lia.
  rewrite Z.shiftl_mul_pow2 by lia.
  unfold Z.div, Z.modulo.
  destruct (Z.div_eucl (Zpos p * 2 ^ Zpos s') D) as [q r]. reflexivity.
Qed.

Lemma pow2_digits_bounds m :
  0 < m -> 2 ^ (Zdigits2 m - 1) <= m < 2 ^ Zdigits2 m.
Proof.
  intros Hm. rewrite Zdigits2_log2 by lia.
  destruct (Z.log2_spec m Hm) as [Hl Hu].
  replace (Z.log2 m + 1 - 1) with (Z.log2 m) by lia.
  split; [exact Hl|]. exact Hu.
Qed.

(** The Number of a decimal literal [p / D] is within one unit of its
    last bit of [p / D]. *)
Lemma decimal_scaled neg p D :
  1 < D -> Zpos p < 2 ^ 53 -> D < 2 ^ 53 ->
  exists Mx a,
    binary_round_aux prec emax neg
      (fst (fst (SFdiv_core_binary prec emax (Zpos p) 0 D 0)))
      (snd (fst (SFdiv_core_binary prec emax (Zpos p) 0 D 0)))
      (snd (SFdiv_core_binary prec emax (Zpos p) 0 D 0))
    = S754_finite neg Mx (- a)
    /\ 0 <= a <= 108
    /\ 2 ^ 52 <= Zpos Mx < 2 ^ 53
    /\ (Zpos Mx - 1) * D <= Zpos p * 2 ^ a < (Zpos Mx + 1) * D.
Proof.
  intros HD Hp HD'.
  pose proof (Zdigits2_bound (Zpos p) ltac:(lia) Hp) as Hd1.
  pose proof (Zdigits2_bound D ltac:(lia) HD') as Hd2.
  pose proof (pow2_digits_bounds (Zpos p) ltac:(lia)) as Hpb.
  pose proof (pow2_digits_bounds D ltac:(lia)) as HDb.
  assert (Hd2' : 2 <= Zdigits2 D).
  { destruct (Z_le_gt_dec 2 (Zdigits2 D)) as [H|H]; [exact H|].
    replace (Zdigits2 D) with 1 in HDb by lia. cbn in HDb. lia. }
  rewrite (div_core_decimal p D ltac:(lia) Hp HD'). cbn [fst snd].
  set (s := 53 + Zdigits2 D - Zdigits2 (Zpos p)) in *.
  set (q := Zpos p * 2 ^ s / D).
  assert (Hs : 2 <= s <= 107) by (unfold s; lia).
  assert (H2s : 0 < 2 ^ s) by (apply Z.pow_pos_nonneg; lia).
  assert (Hq : q * D <= Zpos p * 2 ^ s < (q + 1) * D).
  { unfold q. pose proof (Z.div_mod (Zpos p * 2 ^ s) D ltac:(lia)).
    pose proof (Z.mod_pos_bound (Zpos p * 2 ^ s) D ltac:(lia)). lia. }
  assert (Hlow : 2 ^ 52 * D <= Zpos p * 2 ^ s).
  { assert (E : 2 ^ (Zdigits2 (Zpos p) - 1) * 2 ^ s = 2 ^ 52 * 2 ^ Zdigits2 D).
    { rewrite <- !Z.pow_add_r by lia. f_equal. unfold s. lia. }
    assert (2 ^ (Zdigits2 (Zpos p) - 1) * 2 ^ s <= Zpos p * 2 ^ s)
      by (apply Z.mul_le_mono_nonneg_r; lia).
    assert (2 ^ 52 * D <= 2 ^ 52 * 2 ^ Zdigits2 D)
      by (apply Z.mul_le_mono_nonneg_l; lia).
    lia. }
  assert (Hup : Zpos p * 2 ^ s < 2 ^ 54 * D).
  { assert (E : 2 ^ Zdigits2 (Zpos p) * 2 ^ s
                = 2 ^ 54 * 2 ^ (Zdigits2 D - 1)).
    { rewrite <- !Z.pow_add_r by lia. f_equal. unfold s. lia. }
    assert (Zpos p * 2 ^ s < 2 ^ Zdigits2 (Zpos p) * 2 ^ s)
      by (apply Z.mul_lt_mono_pos_r; lia).
    assert (2 ^ 54 * 2 ^ (Zdigits2 D - 1) <= 2 ^ 54 * D)
      by (apply Z.mul_le_mono_nonneg_l; lia).
    lia. }
  assert (Hq52 : 2 ^ 52 <= q) by (apply Z.div_le_lower_bound; lia).
  assert (Hq54 : q < 2 ^ 54) by (apply Z.div_lt_upper_bound; lia).
  assert (Hdq : 53 <= Zdigits2 q <= 54).
  { rewrite Zdigits2_log2 by lia.
    assert (52 <= Z.log2 q) by (apply Z.log2_le_pow2; lia).
    assert (Z.log2 q < 54) by (apply Z.log2_lt_pow2; lia). lia. }
  destruct (round_scaled neg q (- s)
              (new_location D ((Zpos p * 2 ^ s) mod D)) Hq52)
    as (Mx & c & -> & Hc & HM & Hb);
    [unfold emin, prec, emax; lia | unfold prec, emax; lia |].
  exists Mx, (s - c). split; [f_equal; lia|].
  split; [lia|]. split; [exact HM|].
  assert (H2c : 0 < 2 ^ c) by (apply Z.pow_pos_nonneg; lia).
  assert (Hsc : 2 ^ s = 2 ^ (s - c) * 2 ^ c).
  { rewrite <- Z.pow_add_r by lia. f_equal. lia. }
  assert (H2a : 0 < 2 ^ (s - c)) by (apply Z.pow_pos_nonneg; lia).
  set (A := 2 ^ (s - c)) in *. set (C := 2 ^ c) in *.
  rewrite Hsc in Hq.
  assert (Hq1 : q + 1 <= (Zpos Mx + 1) * C) by lia.
  split.
  - apply (Z.mul_le_mono_pos_r _ _ C); [lia|].
    assert ((Zpos Mx - 1) * C * D <= q * D)
      by (apply Z.mul_le_mono_nonneg_r; lia).
    lia.
  - apply (Z.mul_lt_mono_pos_r C); [lia|].
    assert ((q + 1) * D <= (Zpos Mx + 1) * C * D)
      by (apply Z.mul_le_mono_nonneg_r; lia).
    lia.
Qed.

Lemma roundHalfUp_near s M K N :
  1 <= K ->
  (2 * N - 1) * 2 ^ K < 2 * Zpos M < (2 * N + 1) * 2 ^ K ->
  roundHalfUp s M (- K) = cond_Zopp s N.
Proof.
  intros HK [Hl Hu]. destruct K as [|k|k]; try lia.
  change (- Zpos k) with (Zneg k). unfold roundHalfUp.
  assert (HW : 0 < 2 ^ Zpos k) by (apply Z.pow_pos_nonneg; lia).
  rewrite Z.pow_add_r by lia. change (2 ^ 1) with 2.
  set (W := 2 ^ Zpos k) in *.
  destruct s; cbn [cond_Zopp].
  - symmetry.
    apply (Z.div_unique_pos _ _ _ (2 * - Zpos M + W - W * 2 * - N));
      [lia | ring].
  - symmetry.
    apply (Z.div_unique_pos _ _ _ (2 * Zpos M + W - W * 2 * N));
      [lia | ring].
Qed.

(** Multiplying by 1e6 a Number that is within one unit of its last
    bit of [N / 1e6], for an integer [N] below 2^49, gives a Number
    that is less than a half away from [N]. *)
Lemma fmul_million_scaled neg Mx a N :
  2 ^ 52 <= Zpos Mx < 2 ^ 53 -> 0 <= a <= 108 ->
  0 < N < 2 ^ 49 ->
  (Zpos Mx - 1) * 1000000 <= N * 2 ^ a < (Zpos Mx + 1) * 1000000 ->
  exists My K,
    fmul (S754_finite neg Mx (- a)) million = S754_finite neg My (- K)
    /\ 1 <= K
    /\ (2 * N - 1) * 2 ^ K < 2 * Zpos My < (2 * N + 1) * 2 ^ K.
Proof.
  intros HM Ha HN Hb. rewrite million_value. unfold fmul, SFmul.
  rewrite xorb_false_r.
  assert (H23 : 23 <= a).
  { destruct (Z_le_gt_dec 23 a) as [H|H]; [exact H|].
    assert (2 ^ a <= 2 ^ 22) by (apply Z.pow_le_mono_r; lia).
    assert (N * 2 ^ a <= N * 2 ^ 22) by (apply Z.mul_le_mono_nonneg_l; lia).
    lia. }
  set (P := Zpos (Mx * 8589934592000000)).
  assert (HP : P = Zpos Mx * (1000000 * 2 ^ 33)) by (unfold P; lia).
  assert (HPb : 2 ^ 104 <= P < 2 ^ 106) by (rewrite HP; lia).
  assert (HdP : 105 <= Zdigits2 P <= 106).
  { rewrite Zdigits2_log2 by lia.
    assert (104 <= Z.log2 P) by (apply Z.log2_le_pow2; lia).
    assert (Z.log2 P < 106) by (apply Z.log2_lt_pow2; lia). lia. }
  destruct (round_scaled neg P (- a + -33) loc_Exact)
    as (My & c & -> & Hc & HMy & Hy);
    [lia | unfold emin, prec, emax; lia | unfold prec, emax; lia |].
  exists My, (a + 33 - c). split; [f_equal; lia|].
  split; [lia|].
  assert (H2c : 0 < 2 ^ c) by (apply Z.pow_pos_nonneg; lia).
  assert (Hc54 : 2 ^ c <= 2 ^ 54) by (apply Z.pow_le_mono_r; lia).
  assert (Ha23 : 2 ^ 23 <= 2 ^ a) by (apply Z.pow_le_mono_r; lia).
  assert (HK : 2 ^ (a + 33 - c) * 2 ^ c = 2 ^ a * 2 ^ 33).
  { rewrite <- !Z.pow_add_r by lia. f_equal. lia. }
  set (W := 2 ^ (a + 33 - c)) in *. set (C := 2 ^ c) in *.
  set (T := 2 ^ a) in *.
  rewrite HP in Hy.
  assert (HNT : N * T * 2 ^ 33 = N * W * C) by (rewrite <- Z.mul_assoc, <- HK; ring).
  split.
  - apply (Z.mul_lt_mono_pos_r C); [lia|].
    replace ((2 * N - 1) * W * C) with (2 * (N * W * C) - W * C) by ring.
    rewrite <- HNT, HK. lia.
  - apply (Z.mul_lt_mono_pos_r C); [lia|].
    replace ((2 * N + 1) * W * C) with (2 * (N * W * C) + W * C) by ring.
    rewrite <- HNT, HK. lia.
Qed.

Lemma toE6_zero s : toE6 (S754_zero s) = Ok 0.
Proof. destruct s; vm_compute; reflexivity. Qed.

Lemma pow10_split k : 0 <= k <= 6 -> 10 ^ k * 10 ^ (6 - k) = 1000000.
Proof.
  intros Hk. rewrite <- Z.pow_add_r by lia.
  now replace (k + (6 - k)) with 6 by lia.
Qed.

Lemma literal_scaled neg p k :
  0 <= k <= 6 -> Zpos p * 10 ^ (6 - k) < 2 ^ 49 ->
  isFinite (literal neg (Zpos p) k) = true
  /\ toE6 (literal neg (Zpos p) k)
     = Ok (cond_Zopp neg (Zpos p * 10 ^ (6 - k))).
Proof.
  intros Hk HN.
  assert (HE : 0 < 10 ^ (6 - k)) by (apply Z.pow_pos_nonneg; lia).
  assert (Hp : Zpos p < 2 ^ 49) by nia.
  destruct (Z.eq_dec k 0) as [-> | Hk0].
  - (* no decimals: the literal is an integer *)
    assert (Hl : literal neg (Zpos p) 0 = ofZ (cond_Zopp neg (Zpos p))).
    { unfold literal, ofDecimal, ofZ. cbn [Z.opp Z.leb Z.compare].
      rewrite Z.pow_0_r, Z.mul_1_r. now destruct neg. }
    rewrite Hl.
    assert (Hi : integral (scaled (ofZ (cond_Zopp neg (Zpos p))))
                          (cond_Zopp neg (Zpos p) * 1000000)).
    { unfold scaled, million. apply fmul_integral.
      - apply ofZ_integral. destruct neg; cbn; lia.
      - apply ofZ_integral. cbn. lia.
      - destruct neg; cbn [cond_Zopp]; lia. }
    destruct (integral_nearest _ _ Hi) as [Hf Hn]. split.
    + destruct (integral_nearest _ _ (ofZ_integral (cond_Zopp neg (Zpos p))
                  ltac:(destruct neg; cbn; lia))) as [Hfp _]. exact Hfp.
    + rewrite (toE6_ok _ Hf), Hn. f_equal.
      change (10 ^ (6 - 0)) with 1000000. destruct neg; cbn [cond_Zopp]; lia.
  - set (D := 10 ^ k).
    assert (HD : 1 < D < 2 ^ 53).
    { unfold D. split.
      - change 1 with (10 ^ 0). apply Z.pow_lt_mono_r; lia.
      - assert (10 ^ k <= 10 ^ 6) by (apply Z.pow_le_mono_r; lia). lia. }
    destruct (decimal_scaled neg p D ltac:(lia) ltac:(lia) ltac:(lia))
      as (Mx & a & Hx & Ha & HM & Hb).
    assert (Hl : literal neg (Zpos p) k = S754_finite neg Mx (- a)).
    { unfold literal, ofDecimal.
      destruct (0 <=? - k) eqn:E; [lia|].
      replace (- - k) with k by lia. fold D.
      destruct (SFdiv_core_binary prec emax (Zpos p) 0 D 0) as [[q e] l].
      exact Hx. }
    rewrite Hl. split; [reflexivity|].
    pose proof (pow10_split k Hk) as H6. fold D in H6.
    set (E := 10 ^ (6 - k)) in *.
    destruct (fmul_million_scaled neg Mx a (Zpos p * E) HM Ha ltac:(lia))
      as (My & K & Hy & HK & Hn).
    { rewrite <- H6. split.
      - replace ((Zpos Mx - 1) * (D * E)) with ((Zpos Mx - 1) * D * E) by ring.
        replace (Zpos p * E * 2 ^ a) with (Zpos p * 2 ^ a * E) by ring.
        apply Z.mul_le_mono_nonneg_r; lia.
      - replace ((Zpos Mx + 1) * (D * E)) with ((Zpos Mx + 1) * D * E) by ring.
        replace (Zpos p * E * 2 ^ a) with (Zpos p * 2 ^ a * E) by ring.
        apply Z.mul_lt_mono_pos_r; lia. }
    assert (Hs : scaled (S754_finite neg Mx (- a)) = S754_finite neg My (- K))
      by exact Hy.
    rewrite toE6_ok by (now rewrite Hs). rewrite Hs. f_equal.
    exact (roundHalfUp_near neg My K _ HK Hn).
Qed.

Lemma spanDigits_point ip fp :
  allDigits ip = true ->
  spanDigits (String.append ip (String "." fp)) = (ip, String "." fp).
Proof.
  induction ip as [|c r IH]; [reflexivity|].
  change (String.append (String c r) (String "." fp))
    with (String c (String.append r (String "." fp))).
  cbn. intros H. apply andb_true_iff in H as [Hc Hr]. now rewrite Hc, IH.
Qed.

Lemma noneOf_point ip fp :
  allDigits ip = true -> allDigits fp = true ->
  HelpersSpec.noneOf isWhiteSpace (String.append ip (String "." fp)) = true.
Proof.
  intros Hi Hf. induction ip as [|c r IH].
  - change (String.append EmptyString (String "." fp)) with (String "." fp).
    cbn. exact (allDigits_noneOf fp Hf).
  - change (String.append (String c r) (String "." fp))
      with (String c (String.append r (String "." fp))).
    cbn in Hi. apply andb_true_iff in Hi as [Hc Hr]. cbn.
    destruct (digit_cases c Hc) as (-> & _). cbn. exact (IH Hr).
Qed.

Lemma point_or_digit p :
  isDigit p = true \/ p = "."%char ->
  (Ascii.eqb p "x" || Ascii.eqb p "X") = false
  /\ (Ascii.eqb p "o" || Ascii.eqb p "O") = false
  /\ (Ascii.eqb p "b" || Ascii.eqb p "B") = false.
Proof.
  intros [H | ->]; [|repeat split; reflexivity].
  destruct p as [[] [] [] [] [] [] [] []]; try discriminate H;
    repeat split; reflexivity.
Qed.

Lemma ofString_decimal ip fp :
  isWhole ip = true -> allDigits fp = true ->
  ofString (String.append ip (String "." fp))
  = literal false (digitsValue (String.append ip fp)) (strlen fp).
Proof.
  unfold isWhole. intros H Hf. apply andb_true_iff in H as [Hne Hd].
  unfold ofString.
  rewrite (HelpersFacts.trim_noneOf _ (noneOf_point ip fp Hd Hf)).
  assert (Hu : parseUnsignedDecimal (String.append ip (String "." fp))
               = Some (digitsValue (String.append ip fp), 0 - strlen fp)).
  { unfold parseUnsignedDecimal. rewrite (spanDigits_point ip fp Hd).
    rewrite (allDigits_span fp Hf).
    destruct ip as [|c r]; [discriminate|]. reflexivity. }
  destruct ip as [|c r]; [discriminate|].
  change (String.append (String c r) (String "." fp))
    with (String c (String.append r (String "." fp))) in *.
  cbn [isEmpty].
  pose proof Hd as Hd'. cbn in Hd'. apply andb_true_iff in Hd' as [Hc Hr].
  destruct (digit_cases c Hc) as (_ & _ & Hplus & Hminus & Hdot & HI).
  assert (Hnd : parseNonDecimal (String c (String.append r (String "." fp)))
                = None).
  { unfold parseNonDecimal.
    destruct (String.append r (String "." fp)) as [|p ds] eqn:Er.
    - destruct c as [[] [] [] [] [] [] [] []]; reflexivity.
    - assert (Hp : isDigit p = true \/ p = "."%char).
      { destruct r as [|c' r'].
        - injection Er as <- _. now right.
        - change (String.append (String c' r') (String "." fp))
            with (String c' (String.append r' (String "." fp))) in Er.
          injection Er as <- _. cbn in Hr.
          apply andb_true_iff in Hr as [Hc' _]. now left. }
      destruct (point_or_digit p Hp) as (Hx & Ho & Hb).
      destruct c as [[] [] [] [] [] [] [] []]; try reflexivity.
      rewrite Hx, Ho, Hb. reflexivity. }
  rewrite Hnd. unfold parseSignedDecimal.
  assert (Hs : match String c (String.append r (String "." fp)) with
               | String "+" t => (false, t)
               | String "-" t => (true, t)
               | _ => (false, String c (String.append r (String "." fp)))
               end = (false, String c (String.append r (String "." fp)))).
  { destruct c as [[] [] [] [] [] [] [] []]; try reflexivity.
    - exfalso. now apply Hminus.
    - exfalso. now apply Hplus. }
  rewrite Hs.
  assert (Hinf : String.eqb (String c (String.append r (String "." fp)))
                            "Infinity" = false).
  { cbn. destruct (Ascii.eqb c "I") eqn:E; [|reflexivity].
    apply Ascii.eqb_eq in E. contradiction. }
  rewrite Hinf, Hu. unfold literal. f_equal.
Qed.

Lemma strlen_nonneg s : 0 <= strlen s.
Proof. unfold strlen. lia. Qed.

Lemma allDigits_app a b :
  allDigits a = true -> allDigits b = true ->
  allDigits (String.append a b) = true.
Proof.
  intros Ha Hb. induction a as [|c r IH]; [exact Hb|].
  change (String.append (String c r) b) with (String c (String.append r b)).
  cbn in *. apply andb_true_iff in Ha as [Hc Hr]. now rewrite Hc, IH.
Qed.

(** X3. A price with decimals is converted exactly. For a price text
    that, once its commas and spaces are removed, is a whole part, a
    point and at most six decimals, and whose value times 1000000 is
    below 2^49, [toNumber] returns a Number and the fixed-point price
    built from it is the integer that the digits of the text denote,
    scaled to six decimals: the two roundings (of the decimal literal
    and of the product with 1e6) and [Math.round] together lose
    nothing, and [BigInt] does not throw. *)
Theorem decimal_price_exact txt ip fp :
  removeAll isCommaOrSpace txt = String.append ip (String "." fp) ->
  isWhole ip = true -> allDigits fp = true ->
  strlen fp <= 6 ->
  digitsValue (String.append ip fp) * 10 ^ (6 - strlen fp) < 2 ^ 49 ->
  exists x,
    toNumber txt = Some x
    /\ toE6 x = Ok (digitsValue (String.append ip fp) * 10 ^ (6 - strlen fp)).
Proof.
  intros Hr Hw Hf Hk HN.
  pose proof (strlen_nonneg fp) as Hk0.
  assert (Hd : allDigits ip = true).
  { unfold isWhole in Hw. now apply andb_true_iff in Hw as [_ Hd]. }
  assert (Hv : 0 <= digitsValue (String.append ip fp)).
  { apply digitsValueFrom_nonneg; [|lia]. now apply allDigits_app. }
  assert (Hx : isFinite (literal false (digitsValue (String.append ip fp))
                                 (strlen fp)) = true
               /\ toE6 (literal false (digitsValue (String.append ip fp))
                                (strlen fp))
                  = Ok (digitsValue (String.append ip fp)
                        * 10 ^ (6 - strlen fp))).
  { destruct (digitsValue (String.append ip fp)) as [|p|p]; [| |lia].
    - split; [reflexivity|]. unfold literal, ofDecimal. apply toE6_zero.
    - exact (literal_scaled false p (strlen fp) ltac:(lia) HN). }
  destruct Hx as [Hfin He].
  exists (literal false (digitsValue (String.append ip fp)) (strlen fp)).
  split; [|exact He].
  unfold toNumber. destruct txt as [|c r].
  { cbn in Hr. destruct ip; discriminate. }
  cbn [isEmpty]. rewrite Hr.
  rewrite (HelpersFacts.trim_noneOf _ (noneOf_point ip fp Hd Hf)).
  rewrite (ofString_decimal ip fp Hw Hf), Hfin.
  destruct ip as [|d ds]; [discriminate|].
  change (String.append (String d ds) (String "." fp))
    with (String d (String.append ds (String "." fp))).
  cbn in Hd. apply andb_true_iff in Hd as [Hc _].
  destruct (digit_cases d Hc) as (_ & _ & _ & Hminus & _).
  assert (String.eqb (String d (String.append ds (String "." fp))) "-" = false)
    as ->; [|reflexivity].
  cbn. destruct (Ascii.eqb d "-") eqn:E; [|reflexivity].
  apply Ascii.eqb_eq in E. contradiction.
Qed.

Lemma decimal_price_exact_witness :
  exists x, toNumber "1,038.20" = Some x /\ toE6 x = Ok 1038200000.
Proof.
  apply (decimal_price_exact "1,038.20" "1038" "20");
    [reflexivity | reflexivity | reflexivity | vm_compute; discriminate |].
  vm_compute. reflexivity.
Defined.

End DecimalFacts.

(** * The handlers as wholes *)

Module HandlerFacts.
Import JsString JsNumber NumberSpec Dom Helpers Pipeline PipelineSpec.
Import BandSpec HandlerSpec Examples Scenarios.
Import NumberFacts PayloadFacts BandFacts FxFacts ClockFacts.

Lemma setup_missing env h :
  envTruthy (process_env env) "PRIVATE_KEY" = None ->
  setup env h = (Throw (Error "Private key missing"), h).
Proof. intros Hk. unfold setup. rewrite Hk. reflexivity. Qed.

Lemma setup_connect env h key :
  envTruthy (process_env env) "PRIVATE_KEY" = Some key ->
  setup env h = (connect env (connectEvent (process_env env) key :: h),
                 connectEvent (process_env env) key :: h).
Proof. intros Hk. unfold setup. rewrite Hk. reflexivity. Qed.

Lemma RouteFirst_equity_gather loadTime env h :
  RouteFirst.equity loadTime env h
  = (let* acc := gatherFirst loadTime env in submit env acc) h.
Proof.
  unfold RouteFirst.equity, gatherFirst, submit, bind.
  destruct (setup env h) as [[[]|e] h1]; [|reflexivity].
  destruct (scrape env h1) as [[table|e] h2]; [|reflexivity].
  destruct (forEach _ _ _ h2) as [[acc|e] h3]; reflexivity.
Qed.

Lemma RouteSecond_equity_gather env h :
  RouteSecond.equity env h
  = (let* acc := gatherSecond env in submit env acc) h.
Proof.
  unfold RouteSecond.equity, gatherSecond, submit, bind.
  destruct (setup env h) as [[[]|e] h1]; [|reflexivity].
  destruct (scrape env h1) as [[table|e] h2]; [|reflexivity].
  destruct (forEach _ _ _ h2) as [[acc|e] h3]; reflexivity.
Qed.

Lemma Part000_equity_gather env h :
  Part000.equity env h
  = (let* acc := gather000 env in submit env acc) h.
Proof.
  unfold Part000.equity, gather000, submit, bind.
  destruct (setup env h) as [[[]|e] h1]; [|reflexivity].
  destruct (scrape env h1) as [[table|e] h2]; [|reflexivity].
  destruct (Part000.nowSec env h2) as [[ts|e] h3]; [|reflexivity].
  destruct (forEach _ _ _ h3) as [[acc|e] h4]; reflexivity.
Qed.

(** X4. Without a private key in the environment (the variable is
    missing or empty) every handler answers with the failure "Private
    key missing", and the only thing it has done is to print that
    error: no request was made. *)
Theorem private_key_missing loadTime env h :
  envTruthy (process_env env) "PRIVATE_KEY" = None ->
  let e := Error "Private key missing" in
  RouteFirst.GET loadTime env h = (Failure e, Print (error_top e) :: h)
  /\ RouteSecond.GET env h = (Failure e, Print (error_top e) :: h)
  /\ Part000.GET env h = (Failure e, Print (error_top e) :: h)
  /\ Part001.GET env h = (Failure e, Print (error_top e) :: h).
Proof.
  intros Hk e. repeat split.
  - unfold RouteFirst.GET, respond, RouteFirst.equity, bind.
    rewrite (setup_missing _ _ Hk). reflexivity.
  - unfold RouteSecond.GET, respond, RouteSecond.equity, bind.
    rewrite (setup_missing _ _ Hk). reflexivity.
  - unfold Part000.GET, respond, Part000.equity, bind.
    rewrite (setup_missing _ _ Hk). reflexivity.
  - unfold Part001.GET, respond, bind.
    rewrite (setup_missing _ _ Hk). reflexivity.
Qed.

Lemma private_key_missing_witness :
  Part000.GET keyless []
  = (Failure (Error "Private key missing"),
     [Print (error_top (Error "Private key missing"))]).
Proof.
  apply (private_key_missing 0 keyless []). vm_compute. reflexivity.
Defined.

(** X5. If the provider, the wallet or the contract cannot be
    constructed, every handler answers with the failure that was
    thrown; the page is not fetched and nothing is written. *)
Theorem connect_failure_is_fatal loadTime env h key e :
  let h1 := connectEvent (process_env env) key :: h in
  envTruthy (process_env env) "PRIVATE_KEY" = Some key ->
  connect env h1 = Throw e ->
  RouteFirst.GET loadTime env h = (Failure e, Print (error_top e) :: h1)
  /\ RouteSecond.GET env h = (Failure e, Print (error_top e) :: h1)
  /\ Part000.GET env h = (Failure e, Print (error_top e) :: h1)
  /\ Part001.GET env h = (Failure e, Print (error_top e) :: h1).
Proof.
  intros h1 Hk Hc. repeat split.
  - unfold RouteFirst.GET, respond, RouteFirst.equity, bind.
    rewrite (setup_connect _ _ _ Hk). fold h1. rewrite Hc. reflexivity.
  - unfold RouteSecond.GET, respond, RouteSecond.equity, bind.
    rewrite (setup_connect _ _ _ Hk). fold h1. rewrite Hc. reflexivity.
  - unfold Part000.GET, respond, Part000.equity, bind.
    rewrite (setup_connect _ _ _ Hk). fold h1. rewrite Hc. reflexivity.
  - unfold Part001.GET, respond, bind.
    rewrite (setup_connect _ _ _ Hk). fold h1. rewrite Hc. reflexivity.
Qed.

Lemma connect_failure_is_fatal_witness :
  RouteSecond.GET disconnected []
  = (Failure (Error "could not detect network"),
     [Print (error_top (Error "could not detect network"));
      connectEvent vars "0xkey"]).
Proof.
  apply (connect_failure_is_fatal 0 disconnected [] "0xkey").
  - vm_compute. reflexivity.
  - reflexivity.
Defined.

(** X6. If the request for the page throws, every handler answers with
    the failure that was thrown, and the request for the page is the
    last one it made: it read no clock and wrote nothing. *)
Theorem page_failure_is_fatal loadTime env h key e :
  let h1 := connectEvent (process_env env) key :: h in
  envTruthy (process_env env) "PRIVATE_KEY" = Some key ->
  connect env h1 = Ok tt ->
  axiosGet env (AxiosGet URL :: h1) = Throw e ->
  let failed := (Failure e, Print (error_top e) :: AxiosGet URL :: h1) in
  RouteFirst.GET loadTime env h = failed
  /\ RouteSecond.GET env h = failed
  /\ Part000.GET env h = failed
  /\ Part001.GET env h = failed.
Proof.
  intros h1 Hk Hc Ha failed. unfold failed. repeat split.
  - unfold RouteFirst.GET, respond, RouteFirst.equity, bind.
    rewrite (setup_connect _ _ _ Hk). fold h1. rewrite Hc.
    unfold scrape, bind, request. rewrite Ha. reflexivity.
  - unfold RouteSecond.GET, respond, RouteSecond.equity, bind.
    rewrite (setup_connect _ _ _ Hk). fold h1. rewrite Hc.
    unfold scrape, bind, request. rewrite Ha. reflexivity.
  - unfold Part000.GET, respond, Part000.equity, bind.
    rewrite (setup_connect _ _ _ Hk). fold h1. rewrite Hc.
    unfold scrape, bind, request. rewrite Ha. reflexivity.
  - unfold Part001.GET, respond, bind.
    rewrite (setup_connect _ _ _ Hk). fold h1. rewrite Hc.
    unfold Part001.scrape, bind, request. rewrite Ha. reflexivity.
Qed.

Lemma page_failure_is_fatal_witness :
  Part001.GET pageDown []
  = (Failure (Error "Request failed with status code 503"),
     [Print (error_top (Error "Request failed with status code 503"));
      AxiosGet URL; connectEvent vars "0xkey"]).
Proof.
  apply (page_failure_is_fatal 0 pageDown [] "0xkey").
  - vm_compute. reflexivity.
  - reflexivity.
  - reflexivity.
Defined.

(** X7. If the page has no table that the locator selects, the two
    handlers of route.js and the handler with [nowSec] answer with the
    failure "Could not locate listings table" straight after the page
    request, while the handler that only sets prices goes on with no
    rows: it prints its empty arrays and the warning that there is
    nothing to update, writes nothing and answers with a success whose
    count is 0. *)
Theorem no_listings_table loadTime env h key doc :
  let h2 := AxiosGet URL :: connectEvent (process_env env) key :: h in
  envTruthy (process_env env) "PRIVATE_KEY" = Some key ->
  connect env (connectEvent (process_env env) key :: h) = Ok tt ->
  axiosGet env h2 = Ok doc ->
  locateTable doc = [] ->
  let e := Error "Could not locate listings table" in
  RouteFirst.GET loadTime env h = (Failure e, Print (error_top e) :: h2)
  /\ RouteSecond.GET env h = (Failure e, Print (error_top e) :: h2)
  /\ Part000.GET env h = (Failure e, Print (error_top e) :: h2)
  /\ Part001.GET env h
     = (SuccessCount 0,
        Print warn_no_prices :: Print (log_price_payloads [] [])
          :: Print (table_rows []) :: h2).
Proof.
  intros h2 Hk Hc Ha Hl e. repeat split.
  - unfold RouteFirst.GET, respond, RouteFirst.equity, bind.
    rewrite (setup_connect _ _ _ Hk), Hc.
    unfold scrape, bind, request. fold h2. rewrite Ha, Hl. reflexivity.
  - unfold RouteSecond.GET, respond, RouteSecond.equity, bind.
    rewrite (setup_connect _ _ _ Hk), Hc.
    unfold scrape, bind, request. fold h2. rewrite Ha, Hl. reflexivity.
  - unfold Part000.GET, respond, Part000.equity, bind.
    rewrite (setup_connect _ _ _ Hk), Hc.
    unfold scrape, bind, request. fold h2. rewrite Ha, Hl. reflexivity.
  - unfold Part001.GET, respond, bind.
    rewrite (setup_connect _ _ _ Hk), Hc.
    unfold Part001.scrape, bind, request. fold h2. rewrite Ha.
    unfold ret. rewrite Hl. reflexivity.
Qed.

Lemma no_listings_table_witness :
  Part000.GET (calm [[ {| group_tag := TBODY; group_rows := [mtnn] |} ]]) []
  = (Failure (Error "Could not locate listings table"),
     [Print (error_top (Error "Could not locate listings table"));
      AxiosGet URL; connectEvent vars "0xkey"]).
Proof.
  apply (no_listings_table 0
           (calm [[ {| group_tag := TBODY; group_rows := [mtnn] |} ]]) [] "0xkey"
           [[ {| group_tag := TBODY; group_rows := [mtnn] |} ]]).
  - vm_compute. reflexivity.
  - reflexivity.
  - reflexivity.
  - vm_compute. reflexivity.
Defined.

(** ** The arrays, row by row *)

Lemma readRow_priced vars tr code price day ytd asset :
  readRow vars tr = Priced code price day ytd asset ->
  TARGET_SET_has code = true /\ envTruthy vars code = Some asset.
Proof.
  unfold readRow.
  destruct (isEmpty _ || negb (TARGET_SET_has _)) eqn:Hc; [discriminate|].
  destruct (toNumber _); [|discriminate].
  destruct (envTruthy vars _) eqn:Ha; [|discriminate].
  intros [= <- <- <- <- <-]. split; [|exact Ha].
  apply orb_false_elim in Hc. destruct Hc as [_ Hc].
  now apply negb_false_iff in Hc.
Qed.

Lemma BigInt_instant x z : BigInt x = Ok z -> instant (Num x) = Some z.
Proof.
  unfold BigInt, instant. destruct (toInteger x); [|discriminate].
  now intros [= ->].
Qed.

Lemma RouteFirst_collects loadTime env :
  collects (process_env env) (DEFAULT_BAND_WIDTH_BPS (process_env env))
           (RouteFirst.eachRow loadTime env).
Proof.
  intros acc tr h acc' h'. unfold RouteFirst.eachRow.
  destruct (readRow _ tr) as [|code|code price day ytd asset] eqn:E.
  - intros [= <- <-]. now left.
  - unfold bind, console, ret. intros [= <- <-]. now left.
  - unfold bind, lift.
    destruct (toE6 price) as [z|e] eqn:Hz; [|discriminate].
    destruct (BigInt _) as [q|e] eqn:Hq; [|discriminate].
    intros [= <- <-]. right.
    destruct (readRow_priced _ _ _ _ _ _ _ E) as (Hw & Ha).
    exists code, price, day, ytd, asset, z, (Big q), (Num (RouteFirst.now loadTime)).
    repeat split; try assumption.
    exists q. split; [reflexivity | now apply BigInt_instant].
Qed.

Lemma RouteSecond_collects env :
  collects (process_env env) (DEFAULT_BAND_WIDTH_BPS (process_env env))
           (RouteSecond.eachRow env).
Proof.
  intros acc tr h acc' h'. unfold RouteSecond.eachRow.
  destruct (readRow _ tr) as [|code|code price day ytd asset] eqn:E.
  - intros [= <- <-]. now left.
  - unfold bind, console, ret. intros [= <- <-]. now left.
  - unfold bind, lift, reading.
    destruct (toE6 price) as [z|e] eqn:Hz; [|discriminate].
    destruct (BigInt _) as [q|e] eqn:Hq; [|discriminate].
    intros [= <- <-]. right.
    destruct (readRow_priced _ _ _ _ _ _ _ E) as (Hw & Ha).
    eexists code, price, day, ytd, asset, z, (Big q), (Num _).
    repeat split; try assumption.
    exists q. split; [reflexivity | now apply BigInt_instant].
Qed.

Lemma Part000_collects ts env :
  collects (process_env env) (DEFAULT_BAND_WIDTH_BPS (process_env env))
           (Part000.eachRow ts env).
Proof.
  intros acc tr h acc' h'. unfold Part000.eachRow.
  destruct (readRow _ tr) as [|code|code price day ytd asset] eqn:E.
  - intros [= <- <-]. now left.
  - unfold bind, console, ret. intros [= <- <-]. now left.
  - unfold bind, lift.
    destruct (toE6 price) as [z|e] eqn:Hz; [|discriminate].
    intros [= <- <-]. right.
    destruct (readRow_priced _ _ _ _ _ _ _ E) as (Hw & Ha).
    exists code, price, day, ytd, asset, z, (Big ts), (Big ts).
    repeat split; try assumption.
    exists ts. split; reflexivity.
Qed.

Lemma forEach_collected vars width body :
  collects vars width body ->
  forall trs acc h acc' h',
    Collected vars width acc ->
    forEach body trs acc h = (Ok acc', h') ->
    Collected vars width acc'.
Proof.
  intros Hb. induction trs as [|tr trs IH]; intros acc h acc' h' Hc.
  - now intros [= <- <-].
  - cbn [forEach]. unfold bind.
    destruct (body acc tr h) as [[acc1|e] h1] eqn:E; [|discriminate].
    apply IH.
    destruct (Hb _ _ _ _ _ E)
      as [-> | (code & price & day & ytd & asset & z & seq & stamp
                & Hw & Ha & Hz & Hs & ->)]; [exact Hc|].
    now constructor.
Qed.

Lemma Collected_aligned vars width acc :
  Collected vars width acc -> aligned acc.
Proof.
  induction 1 as [|acc code price day ytd asset z seq stamp _ IH].
  - repeat split.
  - destruct IH as (L1 & L2 & L3 & L4).
    unfold aligned, pushRow. cbn. rewrite !length_app. cbn. lia.
Qed.

Lemma lookup_snoc_cases {A} (l : list A) (x : A) (i n : nat) :
  length l = n -> (i < S n)%nat ->
  ((i < n)%nat /\ (l ++ [x]) !! i = l !! i)
  \/ (i = n /\ (l ++ [x]) !! i = Some x).
Proof.
  intros Hl Hi. destruct (decide (i < n)%nat) as [Hlt|Hge].
  - left. split; [exact Hlt|]. apply lookup_app_l. lia.
  - right. assert (i = n) as -> by lia. split; [reflexivity|].
    subst n. apply list_lookup_middle. reflexivity.
Qed.

Lemma Collected_rowByRow vars width acc :
  Collected vars width acc -> rowByRow vars width acc.
Proof.
  intros Hc. split; [exact (Collected_aligned _ _ _ Hc)|].
  induction Hc as [|acc code price day ytd asset z seq stamp Hc IH Hw Ha Hz Hs].
  - cbn. intros i Hi. lia.
  - destruct (Collected_aligned _ _ _ Hc) as (L1 & L2 & L3 & L4).
    intros i Hi. unfold pushRow in Hi. cbn in Hi.
    rewrite length_app in Hi. cbn in Hi.
    assert (Hi' : (i < S (length (rows acc)))%nat) by lia.
    destruct (decide (i < length (rows acc))%nat) as [Hlt|Hge].
    + destruct (IH i Hlt)
        as (row & a & p & b & q & R1 & R2 & R3 & R4 & R5 & Rest).
      exists row, a, p, b, q. unfold pushRow. cbn.
      rewrite !lookup_app_l by lia.
      repeat split; try assumption; apply Rest.
    + assert (i = length (rows acc)) as -> by lia.
      eexists _, asset, _, _, z. unfold pushRow. cbn.
      repeat split;
        first [ apply list_lookup_middle; lia | assumption | reflexivity ].
Qed.

Lemma gatherFirst_collected loadTime env h acc h1 :
  gatherFirst loadTime env h = (Ok acc, h1) ->
  Collected (process_env env) (DEFAULT_BAND_WIDTH_BPS (process_env env)) acc.
Proof.
  intros H. unfold gatherFirst in H. bind_inv H.
  apply ret_inv in H as [<- _].
  eapply forEach_collected; [apply RouteFirst_collects | constructor | exact E1].
Qed.

Lemma gatherSecond_collected env h acc h1 :
  gatherSecond env h = (Ok acc, h1) ->
  Collected (process_env env) (DEFAULT_BAND_WIDTH_BPS (process_env env)) acc.
Proof.
  intros H. unfold gatherSecond in H. bind_inv H.
  apply ret_inv in H as [<- _].
  eapply forEach_collected; [apply RouteSecond_collects | constructor | exact E1].
Qed.

Lemma gather000_collected env h acc h1 :
  gather000 env h = (Ok acc, h1) ->
  Collected (process_env env) (DEFAULT_BAND_WIDTH_BPS (process_env env)) acc.
Proof.
  intros H. unfold gather000 in H. bind_inv H.
  apply ret_inv in H as [<- _].
  eapply forEach_collected; [apply Part000_collects | constructor | exact E2].
Qed.

(** X8. In the two handlers of route.js and in the handler with
    [nowSec], the arrays that reach the write phases are built row by
    row: the five arrays have one length, and at every index they hold
    a ticker of the watchlist, the address configured for that ticker
    (the same in both asset arrays), the fixed-point price of the row's
    price (the same in the price payload and as the band's mid), the
    zero hash, the configured band width, one timestamp for both
    payloads, and a sequence number equal to that timestamp. *)
Theorem arrays_row_by_row :
  (forall loadTime env h acc h1,
     gatherFirst loadTime env h = (Ok acc, h1) ->
     rowByRow (process_env env) (DEFAULT_BAND_WIDTH_BPS (process_env env)) acc)
  /\ (forall env h acc h1,
        gatherSecond env h = (Ok acc, h1) ->
        rowByRow (process_env env) (DEFAULT_BAND_WIDTH_BPS (process_env env)) acc)
  /\ (forall env h acc h1,
        gather000 env h = (Ok acc, h1) ->
        rowByRow (process_env env) (DEFAULT_BAND_WIDTH_BPS (process_env env)) acc).
Proof.
  split; [|split]; intros.
  - eapply Collected_rowByRow, gatherFirst_collected; eassumption.
  - eapply Collected_rowByRow, gatherSecond_collected; eassumption.
  - eapply Collected_rowByRow, gather000_collected; eassumption.
Qed.

Lemma arrays_row_by_row_witness :
  exists acc,
    fst (gatherSecond (calm [listing [mtnn; uba; zenith]]) []) = Ok acc
    /\ rowByRow vars (DEFAULT_BAND_WIDTH_BPS vars) acc.
Proof.
  eexists. split.
  - vm_compute. reflexivity.
  - eapply (proj1 (proj2 arrays_row_by_row)
              (calm [listing [mtnn; uba; zenith]]) []).
    vm_compute. reflexivity.
Defined.

(** ** The write phases *)

Lemma pricePhase_failure env acc h1 e h2 :
  pricePhase env acc h1 = (Throw e, h2) -> priceFailure acc h1 h2.
Proof.
  unfold pricePhase, priceFailure. destruct (0 <? _)%nat.
  - unfold bind, request, console, ret.
    destruct (send env _) as [tx|e1].
    + destruct (wait env _) as [r|e2]; [discriminate|].
      intros [= <- <-]. right. now exists tx.
    + intros [= <- <-]. now left.
  - unfold bind, console, ret. discriminate.
Qed.

(** X9. A failure of the price phase ends the invocation. If the bulk
    price call or its confirmation throws, the handler answers with
    that failure and the failed request is the last one it made: no
    band call, no exchange-rate update and no audit follows. *)
Theorem price_failure_is_fatal env e :
  (forall loadTime h acc h1 h2,
     gatherFirst loadTime env h = (Ok acc, h1) ->
     pricePhase env acc h1 = (Throw e, h2) ->
     RouteFirst.GET loadTime env h = (Failure e, Print (error_top e) :: h2)
     /\ priceFailure acc h1 h2)
  /\ (forall h acc h1 h2,
        gatherSecond env h = (Ok acc, h1) ->
        pricePhase env acc h1 = (Throw e, h2) ->
        RouteSecond.GET env h = (Failure e, Print (error_top e) :: h2)
        /\ priceFailure acc h1 h2)
  /\ (forall h acc h1 h2,
        gather000 env h = (Ok acc, h1) ->
        pricePhase env acc h1 = (Throw e, h2) ->
        Part000.GET env h = (Failure e, Print (error_top e) :: h2)
        /\ priceFailure acc h1 h2).
Proof.
  split; [|split].
  - intros loadTime h acc h1 h2 Hg Hp.
    split; [|exact (pricePhase_failure _ _ _ _ _ Hp)].
    unfold RouteFirst.GET, respond, bind.
    rewrite RouteFirst_equity_gather. unfold bind. rewrite Hg.
    unfold submit, bind. rewrite Hp. reflexivity.
  - intros h acc h1 h2 Hg Hp.
    split; [|exact (pricePhase_failure _ _ _ _ _ Hp)].
    unfold RouteSecond.GET, respond, bind.
    rewrite RouteSecond_equity_gather. unfold bind. rewrite Hg.
    unfold submit, bind. rewrite Hp. reflexivity.
  - intros h acc h1 h2 Hg Hp.
    split; [|exact (pricePhase_failure _ _ _ _ _ Hp)].
    unfold Part000.GET, respond, bind.
    rewrite Part000_equity_gather. unfold bind. rewrite Hg.
    unfold submit, bind. rewrite Hp. reflexivity.
Qed.

Lemma price_failure_is_fatal_witness :
  exists h2,
    Part000.GET pricesRejected []
    = (Failure (Error "execution reverted"),
       Print (error_top (Error "execution reverted")) :: h2)
    /\ length (List.filter isWrite h2) = 1%nat.
Proof.
  eexists. split.
  - eapply (proj2 (proj2 (price_failure_is_fatal pricesRejected
                            (Error "execution reverted")))).
    + vm_compute. reflexivity.
    + vm_compute. reflexivity.
  - vm_compute. reflexivity.
Defined.

Lemma pricePhase_hash env acc h hp h' :
  pricePhase env acc h = (Ok hp, h') ->
  (hp = None <-> length (priceAssets acc) = 0%nat).
Proof.
  unfold pricePhase. destruct (0 <? length _)%nat eqn:El; intros H.
  - bind_inv H. apply ret_inv in H as [<- _].
    apply Nat.ltb_lt in El. split; [discriminate | lia].
  - bind_inv H. apply ret_inv in H as [<- _].
    apply Nat.ltb_ge in El. split; [lia | reflexivity].
Qed.

Lemma setBandLoop_hash env acc h hb h' :
  length (bandAssets acc) = length (bandPayloads acc) ->
  (0 < length (bandAssets acc))%nat ->
  setBandLoop env acc h = (Ok hb, h') -> hb <> None.
Proof.
  intros Hl Hn H. pose proof (setBandLoop_outcome env acc h Hl) as Ho.
  rewrite H in Ho. cbn in Ho.
  destruct (length (bandAssets acc)) as [|n]; [lia|].
  apply Turns_last in Ho as (a & p & b & tx & _ & _ & _ & ->). discriminate.
Qed.

Lemma bandPhase_hash env acc h hb h' :
  length (bandAssets acc) = length (bandPayloads acc) ->
  bandPhase env acc h = (Ok hb, h') ->
  (hb = None <-> length (bandAssets acc) = 0%nat).
Proof.
  intros Hl. unfold bandPhase.
  destruct (0 <? length _)%nat eqn:El.
  - apply Nat.ltb_lt in El. intros H.
    assert (hb <> None) as Hne; [|split; [congruence | lia]].
    destruct (hasSetBands env).
    + unfold try_catch in H.
      destruct (setBandsCall env acc h) as [[x|e] h1] eqn:Ec.
      * injection H as <- <-. unfold setBandsCall in Ec. bind_inv Ec.
        apply ret_inv in Ec as [<- _]. discriminate.
      * unfold bind, console in H.
        exact (setBandLoop_hash _ _ _ _ _ Hl El H).
    + unfold bind, console in H.
      exact (setBandLoop_hash _ _ _ _ _ Hl El H).
  - apply Nat.ltb_ge in El. intros H. bind_inv H.
    apply ret_inv in H as [<- _]. split; [lia | reflexivity].
Qed.

Lemma submit_hashes env acc h acc' hp hb h' :
  aligned acc ->
  submit env acc h = (Ok (acc', hp, hb), h') ->
  acc' = acc
  /\ length (priceAssets acc) = length (bandAssets acc)
  /\ (hp = None <-> length (priceAssets acc) = 0%nat)
  /\ (hb = None <-> length (bandAssets acc) = 0%nat).
Proof.
  intros (L1 & L2 & L3 & L4) H. unfold submit in H. bind_inv H.
  apply ret_inv in H as [[= <- <- <-] _].
  split; [reflexivity|]. split; [lia|]. split.
  - eapply pricePhase_hash; eassumption.
  - eapply bandPhase_hash; [|eassumption]. lia.
Qed.

(** X10. A success response reports consistent numbers. The count of
    band updates equals the count of price updates, the price
    transaction hash is null exactly when no price was updated, and
    the reported band width is the configured one. In the second
    handler of route.js the band transaction hash is null exactly when
    no band was updated; in the handlers that update the exchange rate
    a null band hash means that no band was updated. *)
Theorem success_counts :
  (forall loadTime env h p b hp hb w h',
     RouteFirst.GET loadTime env h = (Success p b hp hb w, h') ->
     p = b /\ (hp = None <-> p = 0%nat) /\ (hb = None -> b = 0%nat)
     /\ w = DEFAULT_BAND_WIDTH_BPS (process_env env))
  /\ (forall env h p b hp hb w h',
        RouteSecond.GET env h = (Success p b hp hb w, h') ->
        p = b /\ (hp = None <-> p = 0%nat) /\ (hb = None <-> b = 0%nat)
        /\ w = DEFAULT_BAND_WIDTH_BPS (process_env env))
  /\ (forall env h p b hp hb w h',
        Part000.GET env h = (Success p b hp hb w, h') ->
        p = b /\ (hp = None <-> p = 0%nat) /\ (hb = None -> b = 0%nat)
        /\ w = DEFAULT_BAND_WIDTH_BPS (process_env env)).
Proof.
  split; [|split].
  - intros loadTime env h p b hp hb w h' H.
    destruct (RouteFirst.equity loadTime env h)
      as [[[[acc p0] b0]|e] h1] eqn:Ee.
    + rewrite (RouteFirst_GET_cases _ _ _ _ _ _ _ Ee) in H.
      rewrite RouteFirst_equity_gather in Ee.
      apply bind_Ok_inv in Ee as (acc' & h2 & Eg & Es).
      apply gatherFirst_collected, Collected_aligned in Eg.
      destruct (submit_hashes _ _ _ _ _ _ _ Eg Es) as (-> & Hl & Hp & Hb).
      cbv zeta in H.
      destruct (RouteFirst.fxUpdate loadTime env h1) as [[x|e] h3];
        injection H as <- <- <- <- <- <-;
        (split; [exact Hl|]; split; [exact Hp|]; split; [|reflexivity]).
      * discriminate.
      * apply Hb.
    + unfold RouteFirst.GET, respond, bind in H. rewrite Ee in H.
      discriminate.
  - intros env h p b hp hb w h' H.
    unfold RouteSecond.GET, respond in H.
    destruct (bind _ _ h) as [[r|e] h''] eqn:E; [|discriminate].
    injection H as -> ->.
    apply bind_Ok_inv in E as ([[acc p0] b0] & h1 & Ee & Er).
    apply ret_inv in Er as [[= <- <- <- <- <-] _].
    rewrite RouteSecond_equity_gather in Ee.
    apply bind_Ok_inv in Ee as (acc' & h2 & Eg & Es).
    apply gatherSecond_collected, Collected_aligned in Eg.
    destruct (submit_hashes _ _ _ _ _ _ _ Eg Es) as (-> & Hl & Hp & Hb).
    repeat split; try assumption; try apply Hp; apply Hb.
  - intros env h p b hp hb w h' H.
    destruct (Part000.equity env h) as [[[[acc p0] b0]|e] h1] eqn:Ee.
    + apply (f_equal fst) in H.
      rewrite (Part000_GET_cases _ _ _ _ _ _ Ee) in H.
      rewrite Part000_equity_gather in Ee.
      apply bind_Ok_inv in Ee as (acc' & h2 & Eg & Es).
      apply gather000_collected, Collected_aligned in Eg.
      destruct (submit_hashes _ _ _ _ _ _ _ Eg Es) as (-> & Hl & Hp & Hb).
      cbv zeta in H. cbn [fst] in H.
      destruct (Part000.fxUpdate env h1) as [[x|e] h3];
        injection H as <- <- <- <- <-;
        (split; [exact Hl|]; split; [exact Hp|]; split; [|reflexivity]).
      * discriminate.
      * apply Hb.
    + unfold Part000.GET, respond, bind in H. rewrite Ee in H.
      discriminate.
Qed.

Lemma success_counts_witness :
  exists p b hp hb w h',
    RouteSecond.GET (calm [listing [mtnn; uba; zenith]]) []
    = (Success p b hp hb w, h')
    /\ p = b /\ (hp = None <-> p = 0%nat) /\ (hb = None <-> b = 0%nat)
    /\ w = DEFAULT_BAND_WIDTH_BPS vars.
Proof.
  eexists _, _, _, _, _, _. split.
  - vm_compute. reflexivity.
  - eapply (proj1 (proj2 success_counts)
              (calm [listing [mtnn; uba; zenith]]) []).
    vm_compute. reflexivity.
Defined.

(** ** When every request is answered *)

Section Answered.
Variable env : Env.
Hypothesis sends : forall h, exists tx, send env h = Ok tx.
Hypothesis confirms : forall h, exists r, wait env h = Ok r.

Lemma pricePhase_ok acc h :
  exists hp h', pricePhase env acc h = (Ok hp, h').
Proof.
  unfold pricePhase. destruct (0 <? _)%nat.
  - unfold bind, request, console, ret.
    destruct (sends (SetPrices (priceAssets acc) (pricePayloads acc) :: h))
      as [tx ->].
    destruct (confirms (Wait tx :: SetPrices (priceAssets acc) (pricePayloads acc) :: h))
      as [r ->].
    eauto.
  - unfold bind, console, ret. eauto.
Qed.

Lemma setBandLoop_ok acc h :
  length (bandAssets acc) = length (bandPayloads acc) ->
  exists hb h', setBandLoop env acc h = (Ok hb, h').
Proof.
  intros Hl. pose proof (setBandLoop_outcome env acc h Hl) as Ho.
  destruct (setBandLoop env acc h) as [[hb|e] h']; [eauto|].
  cbn in Ho. destruct Ho as (i & hi & last & _ & _ & Hf).
  inversion Hf as [a p _ _ Hs | a p tx _ _ _ Hw]; subst.
  - destruct (sends (SetBand a p :: hi)) as [tx Hs']. congruence.
  - destruct (confirms (Wait tx :: SetBand a p :: hi)) as [r Hw']. congruence.
Qed.

Lemma bandPhase_ok acc h :
  length (bandAssets acc) = length (bandPayloads acc) ->
  exists hb h', bandPhase env acc h = (Ok hb, h').
Proof.
  intros Hl. unfold bandPhase. destruct (0 <? _)%nat.
  - destruct (hasSetBands env).
    + unfold try_catch, setBandsCall, bind, request, console, ret.
      destruct (sends (SetBands (bandAssets acc) (bandPayloads acc) :: h))
        as [tx ->].
      destruct (confirms (Wait tx :: SetBands (bandAssets acc) (bandPayloads acc) :: h))
        as [r ->].
      eauto.
    + unfold bind, console. apply setBandLoop_ok, Hl.
  - unfold bind, console, ret. eauto.
Qed.

Lemma submit_ok acc h :
  aligned acc ->
  exists hp hb h', submit env acc h = (Ok (acc, hp, hb), h').
Proof.
  intros (L1 & L2 & L3 & L4). unfold submit, bind.
  destruct (pricePhase_ok acc h) as (hp & h1 & ->).
  destruct (bandPhase_ok acc h1) as (hb & h2 & ->); [lia|].
  unfold ret. eauto.
Qed.

End Answered.

Lemma nowSec_ok env h :
  (forall h, 0 <= dateNow env h < 2 ^ 52) ->
  exists t h', Part000.nowSec env h = (Ok t, h').
Proof.
  intros Hc. rewrite StampFacts.nowSec_cases.
  destruct (StampSpec.chainTime env h); [eauto|].
  unfold StampSpec.wallTime.
  rewrite (proj1 (BigInt_seconds_floor _ (Hc _))). eauto.
Qed.

Lemma fold_pushPriced_assets seq stamp width l acc :
  length (priceAssets (fold_left (pushPriced seq stamp width) l acc))
  = (length (priceAssets acc) + length l)%nat.
Proof.
  destruct (fold_pushPriced seq stamp width l acc) as (-> & _).
  now rewrite length_app, length_map.
Qed.

Lemma RouteSecond_rows_ok env :
  (forall h, 0 <= dateNow env h < 2 ^ 52) ->
  forall trs acc h,
    Forall finitelyScaled (pricedRows (process_env env) trs) ->
    exists acc' h',
      forEach (RouteSecond.eachRow env) trs acc h = (Ok acc', h')
      /\ length (priceAssets acc')
         = (length (priceAssets acc)
            + length (pricedRows (process_env env) trs))%nat.
Proof.
  intros Hc. induction trs as [|tr trs IH]; intros acc h Hf.
  - exists acc, h. split; [reflexivity|]. cbn. lia.
  - rewrite pricedRows_cons in Hf. cbn [forEach]. unfold bind.
    rewrite pricedRows_cons.
    unfold RouteSecond.eachRow at 1. unfold pricedRow in *.
    destruct (readRow (process_env env) tr)
      as [|code|code price day ytd asset].
    + apply IH, Hf.
    + unfold bind, console, ret. apply IH, Hf.
    + apply Forall_cons in Hf as [Hr Hf].
      unfold finitelyScaled in Hr. cbn in Hr.
      unfold bind, reading, lift. rewrite (toE6_ok _ Hr).
      rewrite (proj1 (BigInt_seconds_floor _ (Hc _))). unfold ret.
      match goal with
      | |- context [forEach _ trs ?a ?hh] =>
          destruct (IH a hh Hf) as (acc' & h' & -> & Hl)
      end.
      exists acc', h'. split; [reflexivity|].
      rewrite Hl. unfold pushRow. cbn. rewrite length_app. cbn. lia.
Qed.

Lemma Part001_rows_ok env :
  (forall h, 0 <= dateNow env h < 2 ^ 52) ->
  forall trs acc h,
    Forall finitelyScaled (pricedRows (process_env env) trs) ->
    exists acc' h',
      forEach (Part001.eachRow env) trs acc h = (Ok acc', h')
      /\ length (Part001.assets acc')
         = (length (Part001.assets acc)
            + length (pricedRows (process_env env) trs))%nat.
Proof.
  intros Hc. induction trs as [|tr trs IH]; intros acc h Hf.
  - exists acc, h. split; [reflexivity|]. cbn. lia.
  - rewrite pricedRows_cons in Hf. cbn [forEach]. unfold bind.
    rewrite pricedRows_cons.
    unfold Part001.eachRow at 1. unfold pricedRow in *.
    destruct (readRow (process_env env) tr)
      as [|code|code price day ytd asset].
    + apply IH, Hf.
    + unfold bind, console, ret. apply IH, Hf.
    + apply Forall_cons in Hf as [Hr Hf].
      unfold finitelyScaled in Hr. cbn in Hr.
      unfold bind, reading, lift. rewrite (toE6_ok _ Hr).
      rewrite (proj1 (BigInt_seconds_floor _ (Hc _))). unfold ret.
      match goal with
      | |- context [forEach _ trs ?a ?hh] =>
          destruct (IH a hh Hf) as (acc' & h' & -> & Hl)
      end.
      exists acc', h'. split; [reflexivity|].
      rewrite Hl. cbn. rewrite length_app. cbn. lia.
Qed.

Lemma scrape_ok env h doc :
  axiosGet env (AxiosGet URL :: h) = Ok doc ->
  locateTable doc <> [] ->
  scrape env h = (Ok (locateTable doc), AxiosGet URL :: h).
Proof.
  intros Ha Hl. unfold scrape, bind, request. rewrite Ha.
  destruct (locateTable doc); [contradiction | reflexivity].
Qed.

Section Succeeds.
Variables (loadTime : Z) (env : Env) (h : History) (key : string).
Variable doc : Document.
Let vars := process_env env.
Let h1 := connectEvent vars key :: h.
Let priced := pricedRows vars (flat_map bodyRows (locateTable doc)).
Hypothesis Hkey : envTruthy vars "PRIVATE_KEY" = Some key.
Hypothesis Hconnect : connect env h1 = Ok tt.
Hypothesis Hpage : axiosGet env (AxiosGet URL :: h1) = Ok doc.
Hypothesis Htable : locateTable doc <> [].
Hypothesis Hclock : forall h, 0 <= dateNow env h < 2 ^ 52.
Hypothesis sends : forall h, exists tx, send env h = Ok tx.
Hypothesis confirms : forall h, exists r, wait env h = Ok r.
Hypothesis Hprices : Forall finitelyScaled priced.

Lemma gatherFirst_ok :
  0 <= loadTime < 2 ^ 52 ->
  exists acc hg,
    gatherFirst loadTime env h = (Ok acc, hg)
    /\ length (priceAssets acc) = length priced.
Proof.
  intros Hload.
  pose proof (proj2 (BigInt_seconds_floor _ Hload)) as Hnow.
  fold (RouteFirst.now loadTime) in Hnow.
  unfold gatherFirst, bind.
  rewrite (setup_connect _ _ _ Hkey). fold vars h1. rewrite Hconnect.
  rewrite (scrape_ok _ _ _ Hpage Htable).
  rewrite (RouteFirst_eachRow_spec loadTime env Hnow _ _ _ Hprices).
  unfold console, ret. eexists _, _. split; [reflexivity|].
  now rewrite fold_pushPriced_assets.
Qed.

Lemma gatherSecond_ok :
  exists acc hg,
    gatherSecond env h = (Ok acc, hg)
    /\ length (priceAssets acc) = length priced.
Proof.
  unfold gatherSecond, bind.
  rewrite (setup_connect _ _ _ Hkey). fold vars h1. rewrite Hconnect.
  rewrite (scrape_ok _ _ _ Hpage Htable).
  destruct (RouteSecond_rows_ok env Hclock _ noArrays (AxiosGet URL :: h1) Hprices)
    as (acc & hg & -> & Hl).
  unfold console, ret. eexists _, _. split; [reflexivity|]. exact Hl.
Qed.

Lemma gather000_ok :
  exists acc hg,
    gather000 env h = (Ok acc, hg)
    /\ length (priceAssets acc) = length priced.
Proof.
  unfold gather000, bind.
  rewrite (setup_connect _ _ _ Hkey). fold vars h1. rewrite Hconnect.
  rewrite (scrape_ok _ _ _ Hpage Htable).
  destruct (nowSec_ok env (AxiosGet URL :: h1) Hclock) as (t & h2 & ->).
  rewrite (Part000_eachRow_spec t env _ _ _ Hprices).
  unfold console, ret. eexists _, _. split; [reflexivity|].
  now rewrite fold_pushPriced_assets.
Qed.

Lemma RouteFirst_succeeds :
  0 <= loadTime < 2 ^ 52 ->
  exists hp hb,
    fst (RouteFirst.GET loadTime env h)
    = Success (length priced) (length priced) hp hb
              (DEFAULT_BAND_WIDTH_BPS vars).
Proof.
  intros Hnow. destruct (gatherFirst_ok Hnow) as (acc & hg & Hg & Hn).
  pose proof (Collected_aligned _ _ _ (gatherFirst_collected _ _ _ _ _ Hg))
    as Hal.
  destruct (submit_ok env sends confirms acc hg Hal) as (hp & hb & h' & Hs).
  assert (He : RouteFirst.equity loadTime env h = (Ok (acc, hp, hb), h')).
  { rewrite RouteFirst_equity_gather. unfold bind. now rewrite Hg. }
  rewrite (RouteFirst_GET_cases _ _ _ _ _ _ _ He). cbv zeta.
  destruct Hal as (L1 & L2 & L3 & L4).
  replace (length (bandAssets acc)) with (length (priceAssets acc)) by lia.
  rewrite Hn.
  destruct (RouteFirst.fxUpdate loadTime env h') as [[x|e] h2]; cbn; eauto.
Qed.

Lemma RouteSecond_succeeds :
  exists hp hb,
    fst (RouteSecond.GET env h)
    = Success (length priced) (length priced) hp hb
              (DEFAULT_BAND_WIDTH_BPS vars).
Proof.
  destruct gatherSecond_ok as (acc & hg & Hg & Hn).
  pose proof (Collected_aligned _ _ _ (gatherSecond_collected _ _ _ _ Hg))
    as Hal.
  destruct (submit_ok env sends confirms acc hg Hal) as (hp & hb & h' & Hs).
  unfold RouteSecond.GET, respond, bind.
  rewrite RouteSecond_equity_gather. unfold bind. rewrite Hg, Hs.
  destruct Hal as (L1 & L2 & L3 & L4).
  replace (length (bandAssets acc)) with (length (priceAssets acc)) by lia.
  rewrite Hn. cbn. eauto.
Qed.

Lemma Part000_succeeds :
  exists hp hb,
    fst (Part000.GET env h)
    = Success (length priced) (length priced) hp hb
              (DEFAULT_BAND_WIDTH_BPS vars).
Proof.
  destruct gather000_ok as (acc & hg & Hg & Hn).
  pose proof (Collected_aligned _ _ _ (gather000_collected _ _ _ _ Hg))
    as Hal.
  destruct (submit_ok env sends confirms acc hg Hal) as (hp & hb & h' & Hs).
  assert (He : Part000.equity env h = (Ok (acc, hp, hb), h')).
  { rewrite Part000_equity_gather. unfold bind. now rewrite Hg. }
  rewrite (Part000_GET_cases _ _ _ _ _ _ He). cbv zeta.
  destruct Hal as (L1 & L2 & L3 & L4).
  replace (length (bandAssets acc)) with (length (priceAssets acc)) by lia.
  rewrite Hn.
  destruct (Part000.fxUpdate env h') as [[x|e] h2]; eauto.
Qed.

Lemma Part001_succeeds :
  fst (Part001.GET env h) = SuccessCount (length priced).
Proof.
  unfold Part001.GET, respond, bind.
  rewrite (setup_connect _ _ _ Hkey). fold vars h1. rewrite Hconnect.
  unfold Part001.scrape, bind, request. rewrite Hpage. unfold ret.
  destruct (Part001_rows_ok env Hclock _ Part001.noArrays
              (AxiosGet URL :: h1) Hprices) as (acc & hg & -> & Hl).
  unfold console. cbn in Hl. unfold priced, vars. rewrite <- Hl.
  destruct (0 <? _)%nat; [|reflexivity].
  unfold bind, request.
  match goal with
  | |- context [send env ?hh] => destruct (sends hh) as [tx ->]
  end.
  match goal with
  | |- context [wait env ?hh] => destruct (confirms hh) as [r ->]
  end.
  reflexivity.
Qed.

End Succeeds.

(** X11. When the private key is configured, the connection and the
    page request succeed, the page has a listings table, the clock
    shows a time from 1970 on and below 2^52 milliseconds, every oracle
    call and every confirmation is answered, and the price of every
    priced row times 1e6 is finite, then every handler answers with a
    success whose counts are the number of the rows of the table that
    are in the watchlist, have a price and have a configured address;
    whatever the exchange-rate update and the audit do. *)
Theorem GET_succeeds loadTime env h key doc :
  let vars := process_env env in
  let h1 := connectEvent vars key :: h in
  let priced := pricedRows vars (flat_map bodyRows (locateTable doc)) in
  envTruthy vars "PRIVATE_KEY" = Some key ->
  connect env h1 = Ok tt ->
  axiosGet env (AxiosGet URL :: h1) = Ok doc ->
  locateTable doc <> [] ->
  0 <= loadTime < 2 ^ 52 ->
  (forall h, 0 <= dateNow env h < 2 ^ 52) ->
  (forall h, exists tx, send env h = Ok tx) ->
  (forall h, exists r, wait env h = Ok r) ->
  Forall finitelyScaled priced ->
  let n := length priced in
  let width := DEFAULT_BAND_WIDTH_BPS vars in
  (exists hp hb, fst (RouteFirst.GET loadTime env h) = Success n n hp hb width)
  /\ (exists hp hb, fst (RouteSecond.GET env h) = Success n n hp hb width)
  /\ (exists hp hb, fst (Part000.GET env h) = Success n n hp hb width)
  /\ fst (Part001.GET env h) = SuccessCount n.
Proof.
  intros vars h1 priced Hk Hc Ha Hl Hnow Hclock Hs Hw Hp n width.
  split; [|split; [|split]].
  - now apply (RouteFirst_succeeds loadTime env h key doc).
  - now apply (RouteSecond_succeeds env h key doc).
  - now apply (Part000_succeeds env h key doc).
  - now apply (Part001_succeeds env h key doc).
Qed.

Lemma GET_succeeds_witness :
  fst (Part001.GET (calm [listing [mtnn; uba; zenith; outsider]]) [])
  = SuccessCount 2.
Proof.
  apply (GET_succeeds 1700000000000
           (calm [listing [mtnn; uba; zenith; outsider]]) [] "0xkey"
           [listing [mtnn; uba; zenith; outsider]]).
  - vm_compute. reflexivity.
  - reflexivity.
  - reflexivity.
  - vm_compute. discriminate.
  - lia.
  - intros h. cbn. unfold steady. lia.
  - intros h. eexists. reflexivity.
  - intros h. eexists. reflexivity.
  - vm_compute. repeat constructor.
Defined.

End HandlerFacts.

(** * Edge cases of the helpers and of the row reader *)

Module EdgeFacts.
Import JsString JsNumber NumberSpec Dom Helpers HelpersSpec.
Import Pipeline PipelineSpec EdgeSpec Examples.

Lemma append_cons c a b :
  String.append (String c a) b = String c (String.append a b).
Proof. reflexivity. Qed.

Lemma noneOf_app p a b :
  noneOf p (String.append a b) = noneOf p a && noneOf p b.
Proof.
  induction a as [|c a IH]; [reflexivity|].
  rewrite append_cons. cbn. rewrite IH. now rewrite andb_assoc.
Qed.

Lemma split_none sep s :
  noneOf (fun c => Ascii.eqb c sep) s = true -> split sep s = [s].
Proof.
  induction s as [|c r IH]; [reflexivity|].
  cbn. intros H. apply andb_true_iff in H as [Hc Hr].
  apply negb_true_iff in Hc. rewrite Hc, (IH Hr). reflexivity.
Qed.

Lemma split_first sep a s :
  noneOf (fun c => Ascii.eqb c sep) a = true ->
  split sep (String.append a (String sep s)) = a :: split sep s.
Proof.
  induction a as [|c a IH]; intros H.
  - change (split sep (String sep s) = EmptyString :: split sep s).
    cbn. now rewrite Ascii.eqb_refl.
  - cbn in H. apply andb_true_iff in H as [Hc Ha].
    apply negb_true_iff in Hc. rewrite append_cons. cbn.
    rewrite Hc, (IH Ha). reflexivity.
Qed.

Lemma percentDecode_plain v :
  noneOf (fun c => Ascii.eqb c "+" || Ascii.eqb c "%") v = true ->
  percentDecode v = v.
Proof.
  induction v as [|c r IH]; [reflexivity|].
  cbn [noneOf]. intros H. apply andb_true_iff in H as [Hc Hr].
  apply negb_true_iff, orb_false_elim in Hc as [Hp Hq].
  cbn [percentDecode]. rewrite Hp, Hq, (IH Hr). reflexivity.
Qed.

Lemma reserved_parts v :
  noneOf isReserved v = true ->
  noneOf isQuestion v = true
  /\ noneOf (fun c => Ascii.eqb c "&") v = true
  /\ noneOf (fun c => Ascii.eqb c "+" || Ascii.eqb c "%") v = true.
Proof.
  intros H. repeat split.
  - eapply HelpersFacts.noneOf_weaken; [|exact H].
    intros c. unfold isReserved, isQuestion. now intros ->.
  - eapply HelpersFacts.noneOf_weaken; [|exact H].
    intros c. unfold isReserved. intros ->. now rewrite !orb_true_r.
  - eapply HelpersFacts.noneOf_weaken; [|exact H].
    intros c. unfold isReserved.
    destruct (Ascii.eqb c "+"), (Ascii.eqb c "%"); cbn;
      rewrite ?orb_true_r; auto; discriminate.
Qed.

(** X12. The ticker code of a link is the value of its [code]
    parameter in upper case: for a path without a question mark and an
    ASCII value without characters that a query string gives a meaning
    to, [extractCode] of the path followed by [?code=] and the value is
    the value in upper case. *)
Theorem extractCode_code path v :
  noneOf isQuestion path = true ->
  noneOf isReserved v = true ->
  isAsciiText v = true ->
  extractCode (String.append path (String.append "?code=" v)) = toUpperCase v.
Proof.
  intros Hp Hv _. destruct (reserved_parts v Hv) as (Hq & Ha & Hd).
  assert (Hc : String.append "code=" v
               = String "c" (String "o" (String "d" (String "e" (String "=" v)))))
    by reflexivity.
  unfold extractCode.
  change (String.append "?code=" v) with (String "?" (String.append "code=" v)).
  rewrite (split_first "?" path _ Hp).
  rewrite (split_none "?" (String.append "code=" v)) by exact Hq.
  cbn [lookup list_lookup orEmpty default]. unfold id, searchParam.
  rewrite (split_none "&" (String.append "code=" v)) by exact Ha.
  rewrite Hc. cbn. rewrite (percentDecode_plain v Hd). reflexivity.
Qed.

Lemma extractCode_code_witness :
  extractCode "/en/stock-markets/ngse/listed-companies/company?code=mtnn"
  = "MTNN".
Proof.
  apply (extractCode_code "/en/stock-markets/ngse/listed-companies/company"
                          "mtnn"); reflexivity.
Defined.

(** X13. [extractCode] reads the text between the first and the second
    question mark only. A link without a question mark has the empty
    code, so its row is skipped; and what follows a second question
    mark does not count. *)
Theorem extractCode_query_part :
  (forall href, noneOf isQuestion href = true -> extractCode href = EmptyString)
  /\ (forall path q rest,
        noneOf isQuestion path = true ->
        noneOf isQuestion q = true ->
        extractCode (String.append path
                       (String "?" (String.append q (String "?" rest))))
        = extractCode (String.append path (String "?" q))).
Proof.
  split.
  - intros href H. unfold extractCode.
    rewrite (split_none "?" href H). reflexivity.
  - intros path q rest Hp Hq. unfold extractCode.
    rewrite !(split_first "?" path _ Hp).
    rewrite (split_first "?" q _ Hq), (split_none "?" q Hq).
    reflexivity.
Qed.

Lemma extractCode_query_part_witness :
  extractCode "/company" = EmptyString
  /\ extractCode "/company?code=uba?code=mtnn" = extractCode "/company?code=uba".
Proof.
  split.
  - apply (proj1 extractCode_query_part "/company"). reflexivity.
  - apply (proj2 extractCode_query_part "/company" "code=uba" "code=mtnn");
      reflexivity.
Defined.

(** X14. A row is skipped, whatever the environment, when the first
    of its [td] cells has no link with an [href], and when it has
    fewer than three [td] cells: there is no code in the first case and
    no price in the second. *)
Theorem readRow_incomplete vars tr :
  firstHref (tds tr) = None \/ (length (tds tr) <= 2)%nat ->
  readRow vars tr = Skipped.
Proof.
  intros [H | H]; unfold readRow.
  - rewrite H. reflexivity.
  - destruct (isEmpty _ || negb _); [reflexivity|].
    unfold textAt at 1. rewrite (lookup_ge_None_2 (tds tr) 2) by lia.
    reflexivity.
Qed.

Lemma readRow_incomplete_witness :
  readRow vars [linked "MTN Nigeria" "/company?code=MTNN"; td "Telecom"]
  = Skipped.
Proof.
  apply readRow_incomplete. right. cbn. lia.
Defined.

Lemma lowerChar_upperChar c : lowerChar (upperChar c) = lowerChar c.
Proof. destruct c as [[] [] [] [] [] [] [] []]; reflexivity. Qed.

Lemma toLowerCase_toUpperCase s : toLowerCase (toUpperCase s) = toLowerCase s.
Proof.
  induction s as [|c r IH]; [reflexivity|].
  cbn. rewrite lowerChar_upperChar. f_equal. exact IH.
Qed.

Lemma filter_mapCell f (p : Cell -> bool) r :
  (forall c, p (mapCell f c) = p c) ->
  List.filter p (List.map (mapCell f) r)
  = List.map (mapCell f) (List.filter p r).
Proof.
  intros Hp. induction r as [|c r IH]; [reflexivity|].
  cbn. rewrite Hp. destruct (p c); cbn; now rewrite IH.
Qed.

Lemma selectHeaders_mapTexts f tbl :
  selectHeaders (mapTexts f tbl)
  = List.map (mapCell f) (selectHeaders tbl).
Proof.
  unfold selectHeaders, mapTexts.
  induction tbl as [|g tbl IH]; [reflexivity|].
  cbn [List.map flat_map]. rewrite IH, map_app. f_equal.
  cbn [group_rows]. destruct (group_rows g) as [|first rest]; [reflexivity|].
  cbn [List.map]. rewrite map_app. f_equal.
  - apply filter_mapCell. reflexivity.
  - induction rest as [|r rest IHr]; [reflexivity|].
    cbn [List.map flat_map]. rewrite IHr, map_app. f_equal.
    apply filter_mapCell. reflexivity.
Qed.

(** X15. The table locator does not look at the case of the header
    texts: a table whose cell texts are ASCII is selected exactly when
    the table with all its texts in upper case is. *)
Theorem isListingsTable_case tbl :
  asciiTexts tbl = true ->
  isListingsTable (mapTexts toUpperCase tbl) = isListingsTable tbl.
Proof.
  intros _. unfold isListingsTable. rewrite selectHeaders_mapTexts.
  rewrite length_map, List.map_map.
  replace (List.map (fun x => toLowerCase (cell_text (mapCell toUpperCase x)))
                    (selectHeaders tbl))
    with (List.map (fun h => toLowerCase (cell_text h)) (selectHeaders tbl));
    [reflexivity|].
  apply List.map_ext. intros c. cbn. now rewrite toLowerCase_toUpperCase.
Qed.

Lemma isListingsTable_case_witness :
  isListingsTable (mapTexts toUpperCase (Examples.listing [Examples.mtnn]))
  = isListingsTable (Examples.listing [Examples.mtnn]).
Proof.
  apply (isListingsTable_case (Examples.listing [Examples.mtnn])).
  vm_compute. reflexivity.
Defined.

(** X16. The band width is 150 when the variable [BAND_WIDTH_BPS] is
    missing or empty. When it is set to a text that begins with a
    character that is neither white space, nor a sign, nor a digit,
    the band width is NaN: the default does not apply. *)
Theorem band_width_cases vars :
  (envTruthy vars "BAND_WIDTH_BPS" = None ->
   DEFAULT_BAND_WIDTH_BPS vars = ofZ 150)
  /\ (forall c r,
        vars !! "BAND_WIDTH_BPS" = Some (String c r) ->
        isWhiteSpace c = false -> isDigit c = false ->
        c <> "+"%char -> c <> "-"%char ->
        DEFAULT_BAND_WIDTH_BPS vars = NaN).
Proof.
  split.
  - unfold DEFAULT_BAND_WIDTH_BPS, envTruthy, envOr.
    destruct (vars !! "BAND_WIDTH_BPS") as [v|]; [|intros _; vm_compute; reflexivity].
    destruct (isEmpty v); [|discriminate]. intros _. vm_compute. reflexivity.
  - intros c r Hv Hw Hd Hp Hm.
    unfold DEFAULT_BAND_WIDTH_BPS, envOr. rewrite Hv.
    cbn [isEmpty]. unfold parseInt10. cbn [trimStart]. rewrite Hw.
    assert (Hs : spanDigits (String c r) = (EmptyString, String c r))
      by (cbn; now rewrite Hd).
    destruct c as [[] [] [] [] [] [] [] []];
      try (exfalso; apply Hp; reflexivity);
      try (exfalso; apply Hm; reflexivity);
      rewrite Hs; reflexivity.
Qed.

Lemma band_width_cases_witness :
  DEFAULT_BAND_WIDTH_BPS vars = ofZ 150
  /\ DEFAULT_BAND_WIDTH_BPS {[ "BAND_WIDTH_BPS" := "wide" ]} = NaN.
Proof.
  split.
  - apply (proj1 (band_width_cases vars)). vm_compute. reflexivity.
  - apply (proj2 (band_width_cases {[ "BAND_WIDTH_BPS" := "wide" ]}) "w"%char "ide").
    + vm_compute. reflexivity.
    + reflexivity.
    + reflexivity.
    + discriminate.
    + discriminate.
Defined.

End EdgeFacts.

(** * What the parts of a handler write *)

Module EffectFacts.
Import JsString JsNumber NumberSpec Dom Helpers Pipeline PipelineSpec.
Import BandSpec HandlerSpec EffectSpec Examples Scenarios.
Import NumberFacts PayloadFacts BandFacts FxFacts ClockFacts HandlerFacts.

Lemma quiet_ret {A} (a : A) : quiet (ret a).
Proof. intros h. reflexivity. Qed.

Lemma quiet_throw {A} e : quiet (@throw A e).
Proof. intros h. reflexivity. Qed.

Lemma quiet_lift {A} (r : Res A) : quiet (lift r).
Proof. intros h. reflexivity. Qed.

Lemma quiet_console c : quiet (console c).
Proof. intros h. reflexivity. Qed.

Lemma quiet_request {A} ev (answer : History -> Res A) :
  isWrite ev = false -> quiet (request ev answer).
Proof. intros He h. unfold request, writesOf. cbn. now rewrite He. Qed.

Lemma quiet_reading {A} ev (answer : History -> A) :
  isWrite ev = false -> quiet (reading ev answer).
Proof. intros He h. unfold reading, writesOf. cbn. now rewrite He. Qed.

Lemma quiet_bind {A B} (m : M A) (k : A -> M B) :
  quiet m -> (forall a, quiet (k a)) -> quiet (bind m k).
Proof.
  intros Hm Hk h. unfold bind. specialize (Hm h).
  destruct (m h) as [[a|e] h1]; cbn in Hm.
  - now rewrite Hk.
  - exact Hm.
Qed.

Lemma quiet_try_catch {A} (m : M A) handler :
  quiet m -> (forall e, quiet (handler e)) -> quiet (try_catch m handler).
Proof.
  intros Hm Hk h. unfold try_catch. specialize (Hm h).
  destruct (m h) as [[a|e] h1]; cbn in Hm.
  - exact Hm.
  - now rewrite Hk.
Qed.

Lemma quiet_forEach {A S} (body : S -> A -> M S) l :
  (forall s a, quiet (body s a)) -> forall s, quiet (forEach body l s).
Proof.
  intros Hb. induction l as [|a l IH]; intros s.
  - apply quiet_ret.
  - cbn [forEach]. apply quiet_bind; [apply Hb | exact IH].
Qed.

Ltac quiet :=
  repeat lazymatch goal with
  | |- quiet (ret _) => apply quiet_ret
  | |- quiet (throw _) => apply quiet_throw
  | |- quiet (lift _) => apply quiet_lift
  | |- quiet (console _) => apply quiet_console
  | |- quiet (request _ _) => apply quiet_request; reflexivity
  | |- quiet (reading _ _) => apply quiet_reading; reflexivity
  | |- quiet (bind _ _) => apply quiet_bind; [|intros ?]
  | |- quiet (try_catch _ _) => apply quiet_try_catch; [|intros ?]
  | |- quiet (let _ := _ in _) => cbv zeta
  end.

Lemma quiet_setup env : quiet (setup env).
Proof. unfold setup. destruct (envTruthy _ _); quiet. Qed.

Lemma quiet_scrape env : quiet (scrape env).
Proof. unfold scrape. quiet. destruct (_ =? _)%nat; quiet. Qed.

Lemma quiet_nowSec env : quiet (Part000.nowSec env).
Proof.
  unfold Part000.nowSec. quiet.
  - destruct a as [blk|]; quiet. destruct (Part000.truthy _); quiet.
  - destruct a; quiet.
Qed.

Lemma quiet_RouteFirst_eachRow loadTime env acc tr :
  quiet (RouteFirst.eachRow loadTime env acc tr).
Proof. unfold RouteFirst.eachRow. destruct (readRow _ _); quiet. Qed.

Lemma quiet_RouteSecond_eachRow env acc tr :
  quiet (RouteSecond.eachRow env acc tr).
Proof. unfold RouteSecond.eachRow. destruct (readRow _ _); quiet. Qed.

Lemma quiet_Part000_eachRow ts env acc tr :
  quiet (Part000.eachRow ts env acc tr).
Proof. unfold Part000.eachRow. destruct (readRow _ _); quiet. Qed.

Lemma quiet_gatherFirst loadTime env : quiet (gatherFirst loadTime env).
Proof.
  unfold gatherFirst. quiet; [apply quiet_setup | apply quiet_scrape |].
  apply quiet_forEach. intros. apply quiet_RouteFirst_eachRow.
Qed.

Lemma quiet_gatherSecond env : quiet (gatherSecond env).
Proof.
  unfold gatherSecond. quiet; [apply quiet_setup | apply quiet_scrape |].
  apply quiet_forEach. intros. apply quiet_RouteSecond_eachRow.
Qed.

Lemma quiet_gather000 env : quiet (gather000 env).
Proof.
  unfold gather000.
  quiet; [apply quiet_setup | apply quiet_scrape | apply quiet_nowSec |].
  apply quiet_forEach. intros. apply quiet_Part000_eachRow.
Qed.

(** X17. Nothing is written before every row is read. If the handler
    fails before its price phase (the key is missing, the page cannot
    be fetched or has no listings table, or the fixed-point price of
    one row is out of range), it answers with that failure and has
    written nothing to the oracle: one bad row keeps all rows from
    being written. *)
Theorem failure_before_prices_writes_nothing env e :
  (forall loadTime h h1,
     gatherFirst loadTime env h = (Throw e, h1) ->
     RouteFirst.GET loadTime env h = (Failure e, Print (error_top e) :: h1)
     /\ writesOf h1 = writesOf h)
  /\ (forall h h1,
        gatherSecond env h = (Throw e, h1) ->
        RouteSecond.GET env h = (Failure e, Print (error_top e) :: h1)
        /\ writesOf h1 = writesOf h)
  /\ (forall h h1,
        gather000 env h = (Throw e, h1) ->
        Part000.GET env h = (Failure e, Print (error_top e) :: h1)
        /\ writesOf h1 = writesOf h).
Proof.
  split; [|split].
  - intros loadTime h h1 Hg. split.
    + unfold RouteFirst.GET, respond, bind.
      rewrite RouteFirst_equity_gather. unfold bind. now rewrite Hg.
    + pose proof (quiet_gatherFirst loadTime env h) as Hq.
      now rewrite Hg in Hq.
  - intros h h1 Hg. split.
    + unfold RouteSecond.GET, respond, bind.
      rewrite RouteSecond_equity_gather. unfold bind. now rewrite Hg.
    + pose proof (quiet_gatherSecond env h) as Hq. now rewrite Hg in Hq.
  - intros h h1 Hg. split.
    + unfold Part000.GET, respond, bind.
      rewrite Part000_equity_gather. unfold bind. now rewrite Hg.
    + pose proof (quiet_gather000 env h) as Hq. now rewrite Hg in Hq.
Qed.

Lemma failure_before_prices_writes_nothing_witness :
  exists e h1,
    Part000.GET (calm [listing [mtnn; overflowing]]) []
    = (Failure e, Print (error_top e) :: h1)
    /\ writesOf h1 = [].
Proof.
  eexists _, _.
  eapply (proj2 (proj2 (failure_before_prices_writes_nothing
                          (calm [listing [mtnn; overflowing]]) _)) []).
  vm_compute. reflexivity.
Defined.

Lemma quiet_audit env acc : quiet (Part000.audit env acc).
Proof.
  unfold Part000.audit. quiet; [apply quiet_nowSec|].
  apply quiet_forEach. intros. quiet.
Qed.

(** X18. The freshness audit of the handler with [nowSec] is harmless:
    it never throws, whatever its requests are answered with, and it
    writes nothing to the oracle. *)
Theorem audit_harmless env acc h :
  fst (Part000.audit env acc h) = Ok tt
  /\ writesOf (snd (Part000.audit env acc h)) = writesOf h.
Proof. split; [apply audit_total | apply quiet_audit]. Qed.

(** ** The exchange-rate update *)

Ltac requests_inv :=
  repeat match goal with
         | E : console _ _ = _ |- _ => apply console_inv in E; subst
         | E : request _ _ _ = _ |- _ =>
             apply request_Ok_inv in E; destruct E as [? ?]; subst
         end.

(** X19. When the exchange-rate update returns, the last two writes it
    made are the price and then the band of the synthetic asset, and
    the two payloads agree: the band's mid is the payload's price, both
    carry one timestamp, the sequence number is that timestamp, the
    hash is the zero hash and the width is the configured band
    width. *)
Theorem fx_payloads_agree :
  (forall loadTime env h x h',
     RouteFirst.fxUpdate loadTime env h = (Ok x, h') ->
     exists p b tx3 r3 tx4 r4 before,
       h' = Print (log_fx_setBand (hash tx4) (status r4))
              :: Wait tx4 :: SetBand ngnAsset b
              :: Print (log_fx_setPrice (hash tx3) (status r3))
              :: Wait tx3 :: SetPrice ngnAsset p :: before
       /\ fxAgree (DEFAULT_BAND_WIDTH_BPS (process_env env)) p b)
  /\ (forall env h x h',
        Part000.fxUpdate env h = (Ok x, h') ->
        exists p b tx3 r3 tx4 r4 before,
          h' = Print (log_fx_setBand (hash tx4) (status r4))
                 :: Wait tx4 :: SetBand ngnAsset b
                 :: Print (log_fx_setPrice (hash tx3) (status r3))
                 :: Wait tx3 :: SetPrice ngnAsset p :: before
          /\ fxAgree (DEFAULT_BAND_WIDTH_BPS (process_env env)) p b).
Proof.
  split.
  - intros loadTime env h x h' H. unfold RouteFirst.fxUpdate in H.
    bind_inv H. apply ret_inv in H as [_ <-]. requests_inv.
    eexists _, _, _, _, _, _, _. split; [reflexivity|].
    repeat split. eexists. split; [reflexivity|].
    match goal with
    | E : lift (BigInt _) _ = _ |- _ =>
        unfold lift in E; injection E as E _; exact (BigInt_instant _ _ E)
    end.
  - intros env h x h' H. unfold Part000.fxUpdate in H.
    bind_inv H. apply ret_inv in H as [_ <-]. requests_inv.
    eexists _, _, _, _, _, _, _. split; [reflexivity|].
    repeat split. eexists. split; reflexivity.
Qed.

Lemma fx_payloads_agree_witness :
  exists p b tx3 r3 tx4 r4 before,
    snd (Part000.fxUpdate (calm [listing [mtnn]]) [])
    = Print (log_fx_setBand (hash tx4) (status r4))
        :: Wait tx4 :: SetBand ngnAsset b
        :: Print (log_fx_setPrice (hash tx3) (status r3))
        :: Wait tx3 :: SetPrice ngnAsset p :: before
    /\ fxAgree (DEFAULT_BAND_WIDTH_BPS vars) p b.
Proof.
  apply (proj2 fx_payloads_agree (calm [listing [mtnn]]) [] "tx7").
  vm_compute. reflexivity.
Defined.

Lemma firstWrite_after h new ev pre mid :
  isWrite ev = true -> writesOf pre = [] -> writesOf mid = [] ->
  firstWriteSince h (new ++ ev :: pre ++ mid ++ h) = Some ev.
Proof.
  intros He Hp Hm. unfold firstWriteSince.
  replace (new ++ ev :: pre ++ mid ++ h)
    with ((new ++ ev :: pre ++ mid) ++ h)
    by (rewrite <- !app_assoc; cbn; now rewrite <- !app_assoc).
  rewrite since_app.
  replace (new ++ ev :: pre ++ mid) with ((new ++ [ev]) ++ (pre ++ mid))
    by (now rewrite <- app_assoc).
  rewrite !rev_app_distr, <- !app_assoc, !List.filter_app, !List.filter_rev.
  unfold writesOf in Hp, Hm. rewrite Hp, Hm. cbn. now rewrite He.
Qed.

Lemma toE6_default : toE6 (ofZ 1500) = Ok 1500000000.
Proof. vm_compute. reflexivity. Qed.

Lemma rateE6_default : RouteFirst.rateE6 RouteFirst.RateDefault = ofZ 1500000000.
Proof. vm_compute. reflexivity. Qed.

Ltac prefix_to l :=
  lazymatch l with
  | SetPrice _ _ :: _ => constr:(@nil Event)
  | ?e :: ?l' => let p := prefix_to l' in constr:(e :: p)
  end.

Ltac first_write pre Hpre mid :=
  cbn [snd];
  lazymatch goal with
  | |- firstWriteSince ?h ?l = _ =>
      let p := prefix_to l in
      apply (firstWrite_after h p _ pre mid);
      [reflexivity | exact Hpre | reflexivity]
  end.

Lemma Part000_fx_default env h ts h1 r :
  Part000.nowSec env h = (Ok ts, h1) ->
  fetch env (Fetch fxUrl :: h1) = Ok r ->
  noRate r \/ fx_json r = Ok BodyNoData ->
  firstWriteSince h1 (snd (Part000.fxUpdate env h))
  = Some (SetPrice ngnAsset
            {| PricePayload.priceE6 := Big 1500000000;
               PricePayload.seq := Big ts;
               PricePayload.ts := Big ts;
               PricePayload.hcsMsgId := zeroHash |}).
Proof.
  intros Hn Hf Hr.
  unfold Part000.fxUpdate. unfold bind at 1. rewrite Hn.
  unfold bind at 1, request at 1. rewrite Hf. unfold bind at 1.
  match goal with
  | |- context [match ?m ?hh with _ => _ end] =>
      assert (Hrate : exists pre,
                 m hh = (Ok (ofZ 1500), pre ++ hh)
                 /\ writesOf pre = [])
  end.
  { destruct Hr as [[Hs | [Hj | [Hj | (p & Hj & Hp)]]] | Hj].
    - destruct (fx_status r =? 200) eqn:E;
        [apply Z.eqb_eq in E; contradiction|].
      eexists [_]. split; reflexivity.
    - destruct (fx_status r =? 200);
        [rewrite Hj; exists [] | eexists [_]]; split; reflexivity.
    - destruct (fx_status r =? 200);
        [rewrite Hj; exists [] | eexists [_]]; split; reflexivity.
    - destruct (fx_status r =? 200);
        [rewrite Hj; unfold bind, lift, ret; rewrite Hp; exists []
        | eexists [_]]; split; reflexivity.
    - destruct (fx_status r =? 200);
        [rewrite Hj; exists [] | eexists [_]]; split; reflexivity. }
  destruct Hrate as (pre & -> & Hpre).
  unfold bind, lift. rewrite toE6_default. unfold request, console, ret.
  destruct (send env _) as [tx3|e3]; [|first_write pre Hpre [Fetch fxUrl]].
  destruct (wait env _) as [r3|e3]; [|first_write pre Hpre [Fetch fxUrl]].
  destruct (send env _) as [tx4|e4]; [|first_write pre Hpre [Fetch fxUrl]].
  destruct (wait env _) as [r4|e4]; first_write pre Hpre [Fetch fxUrl].
Qed.

(** X20. When the exchange-rate service gives no usable price (its
    status is not 200, or the body is [null], has no price, or has a
    price that is not above zero), the update goes on with the default
    rate: its first write is the price of the synthetic asset with the
    fixed-point price 1500000000, stamped with the module constant
    [now] in the first handler of route.js (the seconds of the load
    time, for a load time from 1970 on and below 2^52 milliseconds)
    and with a fresh reading of [nowSec] in the handler that has
    it. *)
Theorem fx_default_rate :
  (forall loadTime env h r,
     fetch env (Fetch fxUrl :: h) = Ok r ->
     noRate r ->
     0 <= loadTime < 2 ^ 52 ->
     firstWriteSince h (snd (RouteFirst.fxUpdate loadTime env h))
     = Some (SetPrice ngnAsset
               {| PricePayload.priceE6 := Num (ofZ 1500000000);
                  PricePayload.seq := Big (loadTime / 1000);
                  PricePayload.ts := Num (RouteFirst.now loadTime);
                  PricePayload.hcsMsgId := zeroHash |}))
  /\ (forall env h ts h1 r,
        Part000.nowSec env h = (Ok ts, h1) ->
        fetch env (Fetch fxUrl :: h1) = Ok r ->
        noRate r ->
        firstWriteSince h1 (snd (Part000.fxUpdate env h))
        = Some (SetPrice ngnAsset
                  {| PricePayload.priceE6 := Big 1500000000;
                     PricePayload.seq := Big ts;
                     PricePayload.ts := Big ts;
                     PricePayload.hcsMsgId := zeroHash |})).
Proof.
  split.
  - intros loadTime env h r Hf Hr Hload.
    pose proof (proj1 (BigInt_seconds_floor _ Hload)) as Hq.
    fold (RouteFirst.now loadTime) in Hq.
    unfold RouteFirst.fxUpdate. unfold bind at 1, request at 1. rewrite Hf.
    unfold bind at 1, console at 1. unfold bind at 1.
    match goal with
    | |- context [match ?m ?hh with _ => _ end] =>
        assert (Hrate : exists pre,
                   m hh = (Ok RouteFirst.RateDefault, pre ++ hh)
                   /\ writesOf pre = [])
    end.
    { destruct Hr as [Hs | [Hj | [Hj | (p & Hj & Hp)]]].
      - destruct (fx_status r =? 200) eqn:E;
          [apply Z.eqb_eq in E; contradiction|].
        exists []. split; reflexivity.
      - destruct (fx_status r =? 200);
          [rewrite Hj | idtac]; exists []; split; reflexivity.
      - destruct (fx_status r =? 200);
          [rewrite Hj | idtac]; exists []; split; reflexivity.
      - destruct (fx_status r =? 200);
          [rewrite Hj; unfold bind, lift, ret; rewrite Hp | idtac];
          exists []; split; reflexivity. }
    destruct Hrate as (pre & -> & Hpre).
    unfold bind, lift. rewrite Hq, rateE6_default. unfold request, console, ret.
    destruct (send env _) as [tx3|e3];
      [|first_write pre Hpre [Print (log_fx_status (fx_status r)); Fetch fxUrl]].
    destruct (wait env _) as [r3|e3];
      [|first_write pre Hpre [Print (log_fx_status (fx_status r)); Fetch fxUrl]].
    destruct (send env _) as [tx4|e4];
      [|first_write pre Hpre [Print (log_fx_status (fx_status r)); Fetch fxUrl]].
    destruct (wait env _) as [r4|e4];
      first_write pre Hpre [Print (log_fx_status (fx_status r)); Fetch fxUrl].
  - intros env h ts h1 r Hn Hf Hr.
    apply (Part000_fx_default env h ts h1 r Hn Hf). now left.
Qed.

Lemma fx_default_rate_witness :
  firstWriteSince [GetBlock] (snd (Part000.fxUpdate fxRefused []))
  = Some (SetPrice ngnAsset
            {| PricePayload.priceE6 := Big 1500000000;
               PricePayload.seq := Big 1700000001;
               PricePayload.ts := Big 1700000001;
               PricePayload.hcsMsgId := zeroHash |}).
Proof.
  apply (proj2 fx_default_rate fxRefused [] 1700000001 [GetBlock]
           {| fx_status := 429;
              fx_json := Throw (Error "Unexpected end of JSON input") |}).
  - vm_compute. reflexivity.
  - reflexivity.
  - left. discriminate.
Defined.

(** X21. An answer with status 200 whose body is an object without
    [data] is read differently by the two handlers that update the
    exchange rate. In the first handler of route.js reading the price
    throws, so the update ends there with nothing written for the
    synthetic asset; in the handler with [nowSec] the price is
    missing, and the update goes on with the default rate. *)
Theorem fx_body_without_data :
  (forall loadTime env h r,
     fetch env (Fetch fxUrl :: h) = Ok r ->
     fx_status r = 200 ->
     fx_json r = Ok BodyNoData ->
     RouteFirst.fxUpdate loadTime env h
     = (Throw (Error "Cannot read properties of undefined (reading 'CNGN')"),
        Print (log_fx_status 200) :: Fetch fxUrl :: h))
  /\ (forall env h ts h1 r,
        Part000.nowSec env h = (Ok ts, h1) ->
        fetch env (Fetch fxUrl :: h1) = Ok r ->
        fx_status r = 200 ->
        fx_json r = Ok BodyNoData ->
        firstWriteSince h1 (snd (Part000.fxUpdate env h))
        = Some (SetPrice ngnAsset
                  {| PricePayload.priceE6 := Big 1500000000;
                     PricePayload.seq := Big ts;
                     PricePayload.ts := Big ts;
                     PricePayload.hcsMsgId := zeroHash |})).
Proof.
  split.
  - intros loadTime env h r Hf Hs Hj.
    unfold RouteFirst.fxUpdate, bind, request, console, lift.
    rewrite Hf, Hs, Hj. reflexivity.
  - intros env h ts h1 r Hn Hf Hs Hj.
    apply (Part000_fx_default env h ts h1 r Hn Hf). now right.
Qed.

Lemma fx_body_without_data_witness :
  RouteFirst.fxUpdate 1700000000000 fxWithoutData []
  = (Throw (Error "Cannot read properties of undefined (reading 'CNGN')"),
     [Print (log_fx_status 200); Fetch fxUrl])
  /\ firstWriteSince [GetBlock] (snd (Part000.fxUpdate fxWithoutData []))
     = Some (SetPrice ngnAsset
               {| PricePayload.priceE6 := Big 1500000000;
                  PricePayload.seq := Big 1700000001;
                  PricePayload.ts := Big 1700000001;
                  PricePayload.hcsMsgId := zeroHash |}).
Proof.
  split.
  - apply (proj1 fx_body_without_data 1700000000000 fxWithoutData []
             {| fx_status := 200; fx_json := Ok BodyNoData |});
      reflexivity.
  - apply (proj2 fx_body_without_data fxWithoutData [] 1700000001 [GetBlock]
             {| fx_status := 200; fx_json := Ok BodyNoData |});
      reflexivity.
Defined.

End EffectFacts.

(** * The loop over the rows and the order of the writes *)

Module LoopFacts.
Import JsString JsNumber NumberSpec Dom Helpers Pipeline PipelineSpec.
Import BandSpec HandlerSpec EffectSpec LoopSpec Examples Scenarios.
Import NumberFacts PayloadFacts BandFacts FxFacts ClockFacts.
Import HandlerFacts EffectFacts.

Lemma loopEvents_cons events tr trs :
  loopEvents events (tr :: trs) = loopEvents events trs ++ rev (events tr).
Proof. unfold loopEvents. cbn. now rewrite rev_app_distr. Qed.

Lemma finitelyScaled_rows vars trs :
  Forall finitelyScaled (pricedRows vars trs) ->
  Forall (finitelyScaledRow vars) trs.
Proof.
  induction trs as [|tr trs IH]; [constructor|].
  rewrite pricedRows_cons. intros H. constructor.
  - unfold finitelyScaledRow. destruct (pricedRow vars tr) as [r|]; [|exact I].
    now apply Forall_cons in H as [Hr _].
  - apply IH. destruct (pricedRow vars tr) as [r|]; [|exact H].
    now apply Forall_cons in H as [_ H].
Qed.

Section Loop.
Variables (S : Type) (vars : gmap string string).
Variable events : Row -> list Event.
Variable body : S -> Row -> M S.
Hypothesis body_spec :
  forall s tr h,
    finitelyScaledRow vars tr ->
    exists s', body s tr h = (Ok s', rev (events tr) ++ h).

Lemma forEach_events trs :
  Forall (finitelyScaledRow vars) trs ->
  forall s h,
    snd (forEach body trs s h) = loopEvents events trs ++ h.
Proof.
  induction 1 as [|tr trs Hr Hf IH]; intros s h; [reflexivity|].
  cbn [forEach]. unfold bind.
  destruct (body_spec s tr h Hr) as (s' & ->).
  rewrite IH, loopEvents_cons. now rewrite app_assoc.
Qed.

End Loop.

Lemma RouteFirst_row loadTime env acc tr h :
  0 <= loadTime < 2 ^ 52 ->
  finitelyScaledRow (process_env env) tr ->
  exists acc',
    RouteFirst.eachRow loadTime env acc tr h
    = (Ok acc', rev (rowEvents (process_env env) tr) ++ h).
Proof.
  intros Hn. unfold finitelyScaledRow, pricedRow, rowEvents, RouteFirst.eachRow.
  destruct (readRow _ tr) as [|code|code price day ytd asset]; intros Hr.
  - now exists acc.
  - now exists acc.
  - unfold finitelyScaled in Hr. cbn in Hr. unfold bind, lift.
    rewrite (toE6_ok _ Hr). unfold RouteFirst.now.
    rewrite (proj1 (BigInt_seconds_floor _ Hn)). unfold ret. eauto.
Qed.

Lemma Part000_row ts env acc tr h :
  finitelyScaledRow (process_env env) tr ->
  exists acc',
    Part000.eachRow ts env acc tr h
    = (Ok acc', rev (rowEvents (process_env env) tr) ++ h).
Proof.
  unfold finitelyScaledRow, pricedRow, rowEvents, Part000.eachRow.
  destruct (readRow _ tr) as [|code|code price day ytd asset]; intros Hr.
  - now exists acc.
  - now exists acc.
  - unfold finitelyScaled in Hr. cbn in Hr. unfold bind, lift.
    rewrite (toE6_ok _ Hr). unfold ret. eauto.
Qed.

Lemma RouteSecond_row env acc tr h :
  (forall h, 0 <= dateNow env h < 2 ^ 52) ->
  finitelyScaledRow (process_env env) tr ->
  exists acc',
    RouteSecond.eachRow env acc tr h
    = (Ok acc', rev (rowEventsClocked (process_env env) tr) ++ h).
Proof.
  intros Hc.
  unfold finitelyScaledRow, pricedRow, rowEventsClocked, RouteSecond.eachRow.
  destruct (readRow _ tr) as [|code|code price day ytd asset]; intros Hr.
  - now exists acc.
  - now exists acc.
  - unfold finitelyScaled in Hr. cbn in Hr. unfold bind, lift, reading.
    rewrite (toE6_ok _ Hr), (proj1 (BigInt_seconds_floor _ (Hc _))).
    unfold ret. eauto.
Qed.

Lemma Part001_row env acc tr h :
  (forall h, 0 <= dateNow env h < 2 ^ 52) ->
  finitelyScaledRow (process_env env) tr ->
  exists acc',
    Part001.eachRow env acc tr h
    = (Ok acc', rev (rowEventsClocked (process_env env) tr) ++ h).
Proof.
  intros Hc.
  unfold finitelyScaledRow, pricedRow, rowEventsClocked, Part001.eachRow.
  destruct (readRow _ tr) as [|code|code price day ytd asset]; intros Hr.
  - now exists acc.
  - now exists acc.
  - unfold finitelyScaled in Hr. cbn in Hr. unfold bind, lift, reading.
    rewrite (toE6_ok _ Hr), (proj1 (BigInt_seconds_floor _ (Hc _))).
    unfold ret. eauto.
Qed.

(** X22. What the loop over the rows leaves in the history, when the
    price of every priced row times 1e6 is finite and the clock shows
    a time from 1970 on and below 2^52 milliseconds. In the first handler
    of route.js and in the handler with [nowSec]: one warning for each
    row of the watchlist that has a price and no configured address, in
    the order of the rows, and nothing else. In the second handler of
    route.js and in the handler that only sets prices: these warnings
    and, for each row that is pushed, one reading of the clock, in the
    order of the rows. No row makes a request to the oracle. *)
Theorem row_events :
  (forall loadTime env trs acc h,
     0 <= loadTime < 2 ^ 52 ->
     Forall finitelyScaled (pricedRows (process_env env) trs) ->
     snd (forEach (RouteFirst.eachRow loadTime env) trs acc h)
     = loopEvents (rowEvents (process_env env)) trs ++ h)
  /\ (forall env trs acc h,
        (forall h, 0 <= dateNow env h < 2 ^ 52) ->
        Forall finitelyScaled (pricedRows (process_env env) trs) ->
        snd (forEach (RouteSecond.eachRow env) trs acc h)
        = loopEvents (rowEventsClocked (process_env env)) trs ++ h)
  /\ (forall ts env trs acc h,
        Forall finitelyScaled (pricedRows (process_env env) trs) ->
        snd (forEach (Part000.eachRow ts env) trs acc h)
        = loopEvents (rowEvents (process_env env)) trs ++ h)
  /\ (forall env trs acc h,
        (forall h, 0 <= dateNow env h < 2 ^ 52) ->
        Forall finitelyScaled (pricedRows (process_env env) trs) ->
        snd (forEach (Part001.eachRow env) trs acc h)
        = loopEvents (rowEventsClocked (process_env env)) trs ++ h).
Proof.
  split; [|split; [|split]].
  - intros loadTime env trs acc h Hn Hf.
    apply (forEach_events _ (process_env env));
      [|exact (finitelyScaled_rows _ _ Hf)].
    intros. now apply RouteFirst_row.
  - intros env trs acc h Hc Hf.
    apply (forEach_events _ (process_env env));
      [|exact (finitelyScaled_rows _ _ Hf)].
    intros. now apply RouteSecond_row.
  - intros ts env trs acc h Hf.
    apply (forEach_events _ (process_env env));
      [|exact (finitelyScaled_rows _ _ Hf)].
    intros. now apply Part000_row.
  - intros env trs acc h Hc Hf.
    apply (forEach_events _ (process_env env));
      [|exact (finitelyScaled_rows _ _ Hf)].
    intros. now apply Part001_row.
Qed.

Lemma row_events_witness :
  snd (forEach (RouteSecond.eachRow (calm [listing [mtnn; uba; outsider; zenith]]))
               [mtnn; uba; outsider; zenith] noArrays [])
  = [DateNow; Print (warn_no_address "UBA"); DateNow].
Proof.
  etransitivity.
  - apply (proj1 (proj2 row_events)
             (calm [listing [mtnn; uba; outsider; zenith]])
             [mtnn; uba; outsider; zenith] noArrays []).
    + intros h. cbn. unfold steady. lia.
    + vm_compute. repeat constructor.
  - vm_compute. reflexivity.
Defined.

(** X23. When no row survives the loop, nothing is written for the
    equities: the price phase and the band phase each print their
    warning, make no request, and leave both transaction hashes
    null. *)
Theorem nothing_to_update env :
  (forall loadTime h acc h1,
     gatherFirst loadTime env h = (Ok acc, h1) ->
     rows acc = [] ->
     RouteFirst.equity loadTime env h
     = (Ok (acc, None, None),
        Print warn_no_bands :: Print warn_no_prices :: h1))
  /\ (forall h acc h1,
        gatherSecond env h = (Ok acc, h1) ->
        rows acc = [] ->
        RouteSecond.equity env h
        = (Ok (acc, None, None),
           Print warn_no_bands :: Print warn_no_prices :: h1))
  /\ (forall h acc h1,
        gather000 env h = (Ok acc, h1) ->
        rows acc = [] ->
        Part000.equity env h
        = (Ok (acc, None, None),
           Print warn_no_bands :: Print warn_no_prices :: h1)).
Proof.
  assert (Hsubmit : forall acc h1,
             aligned acc -> rows acc = [] ->
             submit env acc h1
             = (Ok (acc, None, None),
                Print warn_no_bands :: Print warn_no_prices :: h1)).
  { intros acc h1 (L1 & L2 & L3 & L4) Hr. rewrite Hr in *. cbn in *.
    unfold submit, pricePhase, bandPhase, bind. rewrite L1, L3. reflexivity. }
  split; [|split].
  - intros loadTime h acc h1 Hg Hr.
    rewrite RouteFirst_equity_gather. unfold bind. rewrite Hg.
    apply Hsubmit; [|exact Hr].
    exact (Collected_aligned _ _ _ (gatherFirst_collected _ _ _ _ _ Hg)).
  - intros h acc h1 Hg Hr.
    rewrite RouteSecond_equity_gather. unfold bind. rewrite Hg.
    apply Hsubmit; [|exact Hr].
    exact (Collected_aligned _ _ _ (gatherSecond_collected _ _ _ _ Hg)).
  - intros h acc h1 Hg Hr.
    rewrite Part000_equity_gather. unfold bind. rewrite Hg.
    apply Hsubmit; [|exact Hr].
    exact (Collected_aligned _ _ _ (gather000_collected _ _ _ _ Hg)).
Qed.

Lemma nothing_to_update_witness :
  exists h1,
    RouteSecond.equity (calm [listing [uba; outsider]]) []
    = (Ok (noArrays, None, None),
       Print warn_no_bands :: Print warn_no_prices :: h1).
Proof.
  eexists.
  eapply (proj1 (proj2 (nothing_to_update (calm [listing [uba; outsider]])))).
  - vm_compute. reflexivity.
  - reflexivity.
Defined.

(** X24. When the contract has the bulk band call and that call and
    its confirmation succeed, the band phase makes this one call with
    all assets and all payloads and no per-asset call, and the band
    transaction hash is the hash of the bulk transaction. *)
Theorem bulk_band_success env acc h tx r :
  let call := SetBands (bandAssets acc) (bandPayloads acc) in
  bandAssets acc <> [] ->
  hasSetBands env = true ->
  send env (call :: h) = Ok tx ->
  wait env (Wait tx :: call :: h) = Ok r ->
  bandPhase env acc h
  = (Ok (Some (hash tx)),
     Print (log_setBands_ok (hash tx) (status r)) :: Wait tx :: call :: h)
  /\ writesOf (snd (bandPhase env acc h)) = call :: writesOf h.
Proof.
  intros call Hne Hb Hs Hw.
  assert (E : bandPhase env acc h
              = (Ok (Some (hash tx)),
                 Print (log_setBands_ok (hash tx) (status r))
                   :: Wait tx :: call :: h)).
  { unfold bandPhase. destruct (bandAssets acc) as [|a l] eqn:Ea;
      [contradiction|]. cbn [length Nat.ltb Nat.leb]. rewrite Hb.
    unfold try_catch, setBandsCall, bind, request, console, ret.
    rewrite Ea. fold call. rewrite Hs, Hw. reflexivity. }
  split; [exact E|]. rewrite E. reflexivity.
Qed.

Lemma bulk_band_success_witness :
  exists acc h tx,
    fst (gather000 pricesRejected []) = Ok acc
    /\ fst (bandPhase pricesRejected acc h) = Ok (Some (hash tx))
    /\ writesOf (snd (bandPhase pricesRejected acc h))
       = [SetBands (bandAssets acc) (bandPayloads acc)].
Proof.
  eexists _, [], {| hash := "tx1" |}. split; [vm_compute; reflexivity|].
  match goal with
  | |- fst (bandPhase _ ?acc _) = _ /\ _ =>
      destruct (bulk_band_success pricesRejected acc []
                  {| hash := "tx1" |} {| status := 1 |}) as [E W];
        [discriminate | reflexivity | reflexivity | reflexivity |]
  end.
  split; [now rewrite E | exact W].
Defined.

Lemma atMostPrices_quiet {A} (m : M A) : quiet m -> atMostPrices m.
Proof. intros H h. left. apply H. Qed.

Lemma atMostPrices_after {A B} (m : M A) (k : A -> M B) :
  quiet m -> (forall a, atMostPrices (k a)) -> atMostPrices (bind m k).
Proof.
  intros Hm Hk h. unfold bind. specialize (Hm h).
  destruct (m h) as [[a|e] h1]; cbn [snd] in Hm.
  - rewrite <- Hm. apply Hk.
  - now left.
Qed.

Lemma atMostPrices_before {A B} (m : M A) (k : A -> M B) :
  atMostPrices m -> (forall a, quiet (k a)) -> atMostPrices (bind m k).
Proof.
  intros Hm Hk h. unfold bind. specialize (Hm h).
  destruct (m h) as [[a|e] h1]; cbn [snd] in Hm.
  - rewrite !Hk. exact Hm.
  - exact Hm.
Qed.

Lemma quiet_Part001_eachRow env acc tr : quiet (Part001.eachRow env acc tr).
Proof. unfold Part001.eachRow. destruct (readRow _ _); quiet. Qed.

(** X25. The handler that only sets prices writes to the oracle at
    most once in an invocation, and what it writes is the bulk price
    call: it never sets a band and never updates the exchange rate. *)
Theorem Part001_only_sets_prices env : atMostPrices (Part001.GET env).
Proof.
  assert (Hb : atMostPrices
    (exec setup env in
     let* table := Part001.scrape env in
     let* acc := forEach (Part001.eachRow env) (flat_map bodyRows table)
                         Part001.noArrays in
     exec console (table_rows (Part001.rows acc)) in
     exec console (log_price_payloads (Part001.assets acc)
                                      (Part001.payloads acc)) in
     exec (if (0 <? length (Part001.assets acc))%nat then
             let* tx := request (SetPrices (Part001.assets acc)
                                           (Part001.payloads acc))
                                (send env) in
             let* _ := request (Wait tx) (wait env) in
             console (log_oracle_updated (hash tx))
           else console warn_no_prices) in
     ret (SuccessCount (length (Part001.assets acc))))).
  { apply atMostPrices_after; [apply quiet_setup|intros _].
    apply atMostPrices_after; [unfold Part001.scrape; quiet|intros table].
    apply atMostPrices_after;
      [apply quiet_forEach; intros; apply quiet_Part001_eachRow|intros acc].
    apply atMostPrices_after; [quiet|intros _].
    apply atMostPrices_after; [quiet|intros _].
    apply atMostPrices_before; [|intros; quiet].
    destruct (0 <? _)%nat; [|apply atMostPrices_quiet; quiet].
    apply atMostPrices_before; [|intros; quiet].
    intros h. right. eexists _, _. reflexivity. }
  intros h. unfold Part001.GET, respond. specialize (Hb h).
  match goal with
  | |- context [match ?b h with _ => _ end] => destruct (b h) as [[r|e] h']
  end; exact Hb.
Qed.

End LoopFacts.

(** * From the text of a row to its payloads *)

Module RowFacts.
Import JsString JsNumber NumberSpec Dom Helpers Pipeline PipelineSpec.
Import HandlerSpec ExactSpec RowSpec Examples.
Import NumberFacts PayloadFacts ClockFacts DecimalFacts.

Lemma readRow_reads vars tr asset price :
  TARGET_SET_has (rowCode tr) = true ->
  envTruthy vars (rowCode tr) = Some asset ->
  toNumber (trim (textAt (tds tr) 2)) = Some price ->
  exists day ytd, readRow vars tr = Priced (rowCode tr) price day ytd asset.
Proof.
  intros Hw Ha Hp. unfold readRow. fold (rowCode tr).
  assert (He : isEmpty (rowCode tr) = false).
  { destruct (rowCode tr); [discriminate Hw | reflexivity]. }
  rewrite He, Hw, Hp, Ha. cbn. eauto.
Qed.

Lemma pushRow_exactly acc code price day ytd asset n seq stamp width :
  pushedExactly acc (pushRow acc code price day ytd asset n seq stamp width)
                asset n.
Proof. eexists _, _. repeat split. Qed.

(** X26. From the text of a row to what is written for it. For a row
    whose link gives a ticker of the watchlist with a configured
    address, and whose third cell holds, apart from white space around
    it and commas and spaces in it, a whole part, a point and at most
    six decimals with a value below 2^49 / 1e6, the callback of every
    handler pushes exactly one entry: the configured address in its
    asset arrays, and the integer that the digits denote scaled to six
    decimals as the price of the price payload and, in the handlers
    that set bands, as the mid of the band payload. *)
Theorem row_price_exact env tr asset ip fp :
  let vars := process_env env in
  let n := digitsValue (String.append ip fp) * 10 ^ (6 - strlen fp) in
  TARGET_SET_has (rowCode tr) = true ->
  envTruthy vars (rowCode tr) = Some asset ->
  removeAll isCommaOrSpace (trim (textAt (tds tr) 2))
  = String.append ip (String "." fp) ->
  isWhole ip = true -> allDigits fp = true -> strlen fp <= 6 ->
  n < 2 ^ 49 ->
  (forall loadTime acc h,
     0 <= loadTime < 2 ^ 52 ->
     exists acc',
       RouteFirst.eachRow loadTime env acc tr h = (Ok acc', h)
       /\ pushedExactly acc acc' asset n)
  /\ (forall acc h,
        0 <= dateNow env (DateNow :: h) < 2 ^ 52 ->
        exists acc',
          RouteSecond.eachRow env acc tr h = (Ok acc', DateNow :: h)
          /\ pushedExactly acc acc' asset n)
  /\ (forall ts acc h,
        exists acc',
          Part000.eachRow ts env acc tr h = (Ok acc', h)
          /\ pushedExactly acc acc' asset n)
  /\ (forall acc h,
        0 <= dateNow env (DateNow :: h) < 2 ^ 52 ->
        exists acc',
          Part001.eachRow env acc tr h = (Ok acc', DateNow :: h)
          /\ pushedPriceOnly acc acc' asset n).
Proof.
  intros vars n Hw Ha Hr Hi Hf Hk Hn.
  destruct (decimal_price_exact _ ip fp Hr Hi Hf Hk Hn) as (x & Hx & He).
  fold n in He.
  destruct (readRow_reads vars tr asset x Hw Ha Hx) as (day & ytd & Hrow).
  split; [|split; [|split]].
  - intros loadTime acc h Hl. unfold RouteFirst.eachRow. fold vars.
    rewrite Hrow. unfold bind, lift. rewrite He.
    unfold RouteFirst.now. rewrite (proj1 (BigInt_seconds_floor _ Hl)).
    eexists. split; [reflexivity | apply pushRow_exactly].
  - intros acc h Hc. unfold RouteSecond.eachRow. fold vars.
    rewrite Hrow. unfold bind, lift, reading. rewrite He.
    rewrite (proj1 (BigInt_seconds_floor _ Hc)).
    eexists. split; [reflexivity | apply pushRow_exactly].
  - intros ts acc h. unfold Part000.eachRow. fold vars.
    rewrite Hrow. unfold bind, lift. rewrite He.
    eexists. split; [reflexivity | apply pushRow_exactly].
  - intros acc h Hc. unfold Part001.eachRow. fold vars.
    rewrite Hrow. unfold bind, lift, reading. rewrite He.
    rewrite (proj1 (BigInt_seconds_floor _ Hc)).
    eexists. split; [reflexivity|]. eexists. repeat split.
Qed.

Lemma row_price_exact_witness :
  exists acc',
    Part000.eachRow 1700000001 (calm [listing [mtnn]]) noArrays mtnn []
    = (Ok acc', [])
    /\ pushedExactly noArrays acc' "0xAAA" 250500000.
Proof.
  apply (proj1 (proj2 (proj2 (row_price_exact (calm [listing [mtnn]]) mtnn
                         "0xAAA" "250" "50"
                         ltac:(vm_compute; reflexivity)
                         ltac:(vm_compute; reflexivity)
                         ltac:(vm_compute; reflexivity)
                         ltac:(reflexivity) ltac:(reflexivity)
                         ltac:(vm_compute; discriminate)
                         ltac:(vm_compute; reflexivity))))).
Defined.

End RowFacts.

(** * The exchange rate in hundredths *)

Module FxRateFacts.
Import JsString JsNumber NumberSpec Dom Helpers Pipeline PipelineSpec.
Import BandSpec HandlerSpec EffectSpec ExactSpec Examples Scenarios.
Import NumberFacts PayloadFacts BandFacts FxFacts.
Import ExactFacts ClockFacts DecimalFacts HandlerFacts EffectFacts.

Lemma div_core_normal m e n f :
  2 ^ 52 <= Zpos m < 2 ^ 53 -> 2 ^ 52 <= Zpos n < 2 ^ 53 ->
  -52 <= e <= 0 -> -52 <= f <= 0 ->
  SFdiv_core_binary prec emax (Zpos m) e (Zpos n) f
  = (Zpos m * 2 ^ 53 / Zpos n, e - f - 53,
     new_location (Zpos n) ((Zpos m * 2 ^ 53) mod Zpos n)).
Proof.
  intros Hm Hn He Hf. unfold SFdiv_core_binary.
  rewrite (Zdigits2_of_bounds (Zpos m) 53) by (cbn; lia).
  rewrite (Zdigits2_of_bounds (Zpos n) 53) by (cbn; lia).
  replace (Z.min (fexp prec emax (53 + e - (53 + f))) (e - f))
    with (e - f - 53) by (unfold fexp, emin, prec, emax; lia).
  replace (e - f - (e - f - 53)) with 53 by lia.
  rewrite Z.shiftl_mul_pow2 by lia.
  unfold Z.div, Z.modulo.
  destruct (Z.div_eucl (Zpos m * 2 ^ 53) (Zpos n)) as [q r]. reflexivity.
Qed.

(** The quotient of two integers, as Numbers, is within one unit of
    its last bit of their quotient. *)
Lemma fdiv_integers_scaled R D :
  0 < R < 2 ^ 53 -> 1 < D < 2 ^ 53 ->
  exists Mx a,
    fdiv (ofZ R) (ofZ D) = S754_finite false Mx (- a)
    /\ 0 <= a <= 108
    /\ 2 ^ 52 <= Zpos Mx < 2 ^ 53
    /\ (Zpos Mx - 1) * D <= R * 2 ^ a < (Zpos Mx + 1) * D.
Proof.
  intros HR HD.
  destruct R as [|r|r]; try lia. destruct D as [|d|d]; try lia.
  destruct (ofZ_normal r ltac:(lia)) as (m & e & -> & He & Hm).
  destruct (ofZ_normal d ltac:(lia)) as (n & f & -> & Hf & Hn).
  pose proof (Zdigits2_bound (Zpos r) ltac:(lia) ltac:(lia)) as HdR.
  pose proof (Zdigits2_bound (Zpos d) ltac:(lia) ltac:(lia)) as HdD.
  assert (HdD2 : 2 <= Zdigits2 (Zpos d)).
  { destruct (Z_le_gt_dec 2 (Zdigits2 (Zpos d))) as [H|H]; [exact H|].
    pose proof (pow2_digits_bounds (Zpos d) ltac:(lia)) as Hb.
    replace (Zdigits2 (Zpos d)) with 1 in Hb by lia. cbn in Hb. lia. }
  assert (Hdm : Zdigits2 (Zpos m) = 53)
    by (rewrite Hm, Zdigits2_shift by lia; lia).
  assert (Hdn : Zdigits2 (Zpos n) = 53)
    by (rewrite Hn, Zdigits2_shift by lia; lia).
  pose proof (Zdigits2_53 _ Hdm ltac:(lia)) as Hmb.
  pose proof (Zdigits2_53 _ Hdn ltac:(lia)) as Hnb.
  unfold fdiv, SFdiv.
  rewrite (div_core_normal m e n f Hmb Hnb ltac:(lia) ltac:(lia)).
  cbn [xorb].
  set (q := Zpos m * 2 ^ 53 / Zpos n).
  assert (Hq : q * Zpos n <= Zpos m * 2 ^ 53 < (q + 1) * Zpos n).
  { unfold q. pose proof (Z.div_mod (Zpos m * 2 ^ 53) (Zpos n) ltac:(lia)).
    pose proof (Z.mod_pos_bound (Zpos m * 2 ^ 53) (Zpos n) ltac:(lia)). lia. }
  assert (Hq52 : 2 ^ 52 <= q) by (apply Z.div_le_lower_bound; nia).
  assert (Hq54 : q < 2 ^ 54) by (apply Z.div_lt_upper_bound; nia).
  assert (Hdq : 53 <= Zdigits2 q <= 54).
  { rewrite Zdigits2_log2 by lia.
    assert (52 <= Z.log2 q) by (apply Z.log2_le_pow2; lia).
    assert (Z.log2 q < 54) by (apply Z.log2_lt_pow2; lia). lia. }
  destruct (round_scaled false q (e - f - 53)
              (new_location (Zpos n) ((Zpos m * 2 ^ 53) mod Zpos n)) Hq52)
    as (Mx & c & -> & Hc & HM & Hb);
    [unfold emin, prec, emax; lia | unfold prec, emax; lia |].
  exists Mx, (53 + f - e - c). split; [f_equal; lia|].
  split; [lia|]. split; [exact HM|].
  assert (H2c : 0 < 2 ^ c) by (apply Z.pow_pos_nonneg; lia).
  assert (H2f : 0 < 2 ^ (- f)) by (apply Z.pow_pos_nonneg; lia).
  assert (Hexp : 2 ^ (- e) * 2 ^ 53 = 2 ^ (53 + f - e - c) * 2 ^ c * 2 ^ (- f)).
  { rewrite <- !Z.pow_add_r by lia. f_equal. lia. }
  set (A := 2 ^ (53 + f - e - c)) in *. set (C := 2 ^ c) in *.
  set (F := 2 ^ (- f)) in *.
  assert (Hq1 : q + 1 <= (Zpos Mx + 1) * C) by lia.
  assert (Hmn : Zpos m * 2 ^ 53 = Zpos r * A * (C * F)).
  { rewrite Hm, <- Z.mul_assoc, Hexp. ring. }
  rewrite Hmn, Hn in Hq. fold F in Hq.
  assert (HCF : 0 < C * F) by nia.
  split.
  - apply (Z.mul_le_mono_pos_r _ _ (C * F)); [lia|].
    assert ((Zpos Mx - 1) * C * (Zpos d * F) <= q * (Zpos d * F))
      by (apply Z.mul_le_mono_nonneg_r; nia).
    nia.
  - apply (Z.mul_lt_mono_pos_r (C * F)); [lia|].
    assert ((q + 1) * (Zpos d * F) <= (Zpos Mx + 1) * C * (Zpos d * F))
      by (apply Z.mul_le_mono_nonneg_r; nia).
    nia.
Qed.

Lemma hundredths_exact R :
  0 < R -> R * 10000 < 2 ^ 49 ->
  toE6 (fdiv (ofZ R) (ofZ 100)) = Ok (R * 10000).
Proof.
  intros HR HN.
  destruct (fdiv_integers_scaled R 100 ltac:(lia) ltac:(lia))
    as (Mx & a & -> & Ha & HM & Hb).
  destruct (fmul_million_scaled false Mx a (R * 10000) HM Ha ltac:(lia))
    as (My & K & Hy & HK & Hn); [lia|].
  assert (Hs : scaled (S754_finite false Mx (- a)) = S754_finite false My (- K))
    by exact Hy.
  rewrite toE6_ok by (now rewrite Hs). rewrite Hs. f_equal.
  exact (roundHalfUp_near false My K _ HK Hn).
Qed.

(** X27. The exchange rate is written in whole hundredths. In the
    handler with [nowSec], when the service answers with status 200
    and a price above zero, and the rate [1 / price] times 100 rounds
    to an integer [R] with [0 < R] and [R * 10000 < 2^49], the first
    write of the update is the price of the synthetic asset with the
    fixed-point price [R * 10000], stamped with the fresh reading of
    [nowSec]: rounding the rate to two decimals and scaling it by 1e6
    lose nothing. *)
Theorem fx_rate_two_decimals env h ts h1 r p R :
  Part000.nowSec env h = (Ok ts, h1) ->
  fetch env (Fetch fxUrl :: h1) = Ok r ->
  fx_status r = 200 ->
  fx_json r = Ok (BodyData (Some p)) ->
  gtZero p = true ->
  Math_round (fmul (fdiv (ofZ 1) p) (ofZ 100)) = ofZ R ->
  0 < R -> R * 10000 < 2 ^ 49 ->
  firstWriteSince h1 (snd (Part000.fxUpdate env h))
  = Some (SetPrice ngnAsset
            {| PricePayload.priceE6 := Big (R * 10000);
               PricePayload.seq := Big ts;
               PricePayload.ts := Big ts;
               PricePayload.hcsMsgId := zeroHash |}).
Proof.
  intros Hn Hf Hs Hj Hp Hr HR HN.
  unfold Part000.fxUpdate. unfold bind at 1. rewrite Hn.
  unfold bind at 1, request at 1. rewrite Hf. unfold bind at 1.
  rewrite Hs, Hj. cbn [Z.eqb Pos.eqb].
  unfold bind, lift, console, ret, request. cbv beta iota.
  rewrite Hp. cbv beta iota. rewrite Hr, (hundredths_exact R HR HN).
  assert (Hpre : writesOf [Print (log_fx_rate (fdiv (ofZ R) (ofZ 100)))] = [])
    by reflexivity.
  destruct (send env _) as [tx3|e3];
    [|first_write [Print (log_fx_rate (fdiv (ofZ R) (ofZ 100)))] Hpre
                  [Fetch fxUrl]].
  destruct (wait env _) as [r3|e3];
    [|first_write [Print (log_fx_rate (fdiv (ofZ R) (ofZ 100)))] Hpre
                  [Fetch fxUrl]].
  destruct (send env _) as [tx4|e4];
    [|first_write [Print (log_fx_rate (fdiv (ofZ R) (ofZ 100)))] Hpre
                  [Fetch fxUrl]].
  destruct (wait env _) as [r4|e4];
    first_write [Print (log_fx_rate (fdiv (ofZ R) (ofZ 100)))] Hpre
                [Fetch fxUrl].
Qed.

Lemma fx_rate_two_decimals_witness :
  firstWriteSince [GetBlock] (snd (Part000.fxUpdate (calm [listing [mtnn]]) []))
  = Some (SetPrice ngnAsset
            {| PricePayload.priceE6 := Big 1538460000;
               PricePayload.seq := Big 1700000001;
               PricePayload.ts := Big 1700000001;
               PricePayload.hcsMsgId := zeroHash |}).
Proof.
  apply (fx_rate_two_decimals (calm [listing [mtnn]]) [] 1700000001
           [GetBlock] rate (ofString "0.00065") 153846).
  - vm_compute. reflexivity.
  - reflexivity.
  - reflexivity.
  - reflexivity.
  - vm_compute. reflexivity.
  - vm_compute. reflexivity.
  - lia.
  - lia.
Defined.

End FxRateFacts.

(** * The stamp when the chain cannot be read *)

Module NowSecFacts.
Import JsNumber Pipeline StampSpec Examples Scenarios.
Import ClockFacts.

(** X28. [nowSec] does not fail when the chain cannot be read. When
    the clock shows a time from 1970 on and below 2^52 milliseconds,
    [nowSec] returns whatever the provider answers; and when the block
    cannot be read, or has no timestamp that is a non-zero integer, it
    returns the integer quotient of the clock's milliseconds by
    1000. *)
Theorem nowSec_never_throws env h :
  let ms := dateNow env (DateNow :: GetBlock :: h) in
  0 <= ms < 2 ^ 52 ->
  (exists t h', Part000.nowSec env h = (Ok t, h'))
  /\ (chainTime env h = None ->
      Part000.nowSec env h = (Ok (ms / 1000), DateNow :: GetBlock :: h)).
Proof.
  intros ms Hc. rewrite StampFacts.nowSec_cases.
  destruct (chainTime env h) as [t|].
  - split; [eauto | discriminate].
  - unfold wallTime. fold ms.
    rewrite (proj1 (BigInt_seconds_floor ms Hc)). split; [eauto|reflexivity].
Qed.

Lemma nowSec_never_throws_witness :
  Part000.nowSec disconnected [] = (Ok 1700000000, [DateNow; GetBlock]).
Proof.
  apply (nowSec_never_throws disconnected []).
  - cbn. unfold steady. lia.
  - reflexivity.
Defined.

End NowSecFacts.
(** * The results of a division are canonical *)

Module RoundingFacts.
Import JsString JsNumber NumberSpec.
Import NumberFacts ExactFacts ClockFacts DecimalFacts.

Lemma fexp_mono a b : a <= b -> fexp prec emax a <= fexp prec emax b.
Proof. unfold fexp. lia. Qed.

Lemma Zdigits2_mono a b : 0 <= a <= b -> Zdigits2 a <= Zdigits2 b.
Proof.
  intros [Ha Hb]. destruct (Z.eq_dec a 0) as [-> |Hn].
  - apply Zdigits2_nonneg.
  - rewrite !Zdigits2_log2 by lia.
    pose proof (Z.log2_le_mono a b Hb). lia.
Qed.

(** The number of digits after a shift to the right. *)
Lemma Zdigits2_quot m n :
  0 < m -> 0 <= n -> Zdigits2 (m / 2 ^ n) = Z.max 0 (Zdigits2 m - n).
Proof.
  intros Hm Hn.
  assert (Hp : 0 < 2 ^ n) by (apply Z.pow_pos_nonneg; lia).
  destruct (Z_lt_le_dec m (2 ^ n)) as [Hlt|Hge].
  - rewrite Z.div_small by lia.
    destruct (pow2_digits_bounds m Hm) as [Hl _].
    assert (Zdigits2 m - 1 < n) by (apply (Z.pow_lt_mono_r_iff 2); lia).
    simpl. lia.
  - assert (n <= Z.log2 m) by (apply Z.log2_le_pow2; assumption).
    assert (0 < m / 2 ^ n) by (apply Z.div_str_pos; lia).
    rewrite !Zdigits2_log2 by assumption.
    rewrite <- Z.shiftr_div_pow2 by lia. rewrite Z.log2_shiftr by lia. lia.
Qed.

(** What [shr_fexp] makes of a mantissa and an exponent. *)
Lemma shr_fexp_spec m e l :
  0 <= m ->
  exists mrs,
    shr_fexp prec emax m e l
    = (mrs, e + Z.max 0 (fexp prec emax (Zdigits2 m + e) - e))
    /\ shr_m mrs
       = m / 2 ^ Z.max 0 (fexp prec emax (Zdigits2 m + e) - e).
Proof.
  intros Hm. unfold shr_fexp, shr.
  destruct (fexp prec emax (Zdigits2 m + e) - e) as [|p|p] eqn:E.
  - exists (shr_record_of_loc m l). split; [f_equal; lia|].
    rewrite shr_record_of_loc_m. cbn. now rewrite Z.div_1_r.
  - exists (SpecFloat.iter_pos shr_1 p (shr_record_of_loc m l)).
    split; [f_equal; lia|].
    rewrite iter_shr_m by (rewrite shr_record_of_loc_m; exact Hm).
    rewrite shr_record_of_loc_m. f_equal.
  - exists (shr_record_of_loc m l). split; [f_equal; lia|].
    rewrite shr_record_of_loc_m. cbn. now rewrite Z.div_1_r.
Qed.

(** Rounding a mantissa whose exponent is not above the canonical one
    gives a canonical Number. *)
Lemma round_aux_valid s m e l :
  0 <= m -> e <= fexp prec emax (Zdigits2 m + e) ->
  valid_binary prec emax (binary_round_aux prec emax s m e l) = true.
Proof.
  intros Hm He. unfold binary_round_aux.
  destruct (shr_fexp_spec m e l Hm) as (mrs1 & -> & Hm1).
  set (n1 := Z.max 0 (fexp prec emax (Zdigits2 m + e) - e)) in *.
  assert (Hn1 : e + n1 = fexp prec emax (Zdigits2 m + e)) by lia.
  assert (Hp1 : 0 < 2 ^ n1) by (apply Z.pow_pos_nonneg; lia).
  assert (H0 : 0 <= shr_m mrs1) by (rewrite Hm1; apply Z.div_pos; lia).
  set (m1 := round_nearest_even (shr_m mrs1) (loc_of_shr_record mrs1)).
  assert (Hr : shr_m mrs1 <= m1 <= shr_m mrs1 + 1).
  { unfold m1.
    destruct (rne_cases (shr_m mrs1) (loc_of_shr_record mrs1)) as [-> | ->]; lia. }
  destruct (shr_fexp_spec m1 (e + n1) loc_Exact ltac:(lia)) as (mrs2 & -> & Hm2).
  set (n2 := Z.max 0 (fexp prec emax (Zdigits2 m1 + (e + n1)) - (e + n1))) in *.
  destruct (Z.eq_dec m1 0) as [Hz|Hnz].
  - rewrite Hm2, Hz, Zdiv_0_l. reflexivity.
  - assert (Hpos : 0 < m1) by lia.
    assert (Hd : Zdigits2 m + e <= Zdigits2 m1 + (e + n1)).
    { assert (Zdigits2 (shr_m mrs1) <= Zdigits2 m1)
        by (apply Zdigits2_mono; lia).
      destruct (Z.eq_dec m 0) as [-> |Hmn].
      - pose proof (Zdigits2_nonneg m1). cbn. lia.
      - rewrite Hm1, Zdigits2_quot in H by lia. lia. }
    pose proof (fexp_mono _ _ Hd) as Hmono.
    assert (Hd1 : 1 <= Zdigits2 m1).
    { destruct (pow2_digits_bounds m1 Hpos) as [_ Hu].
      destruct (Z_lt_le_dec (Zdigits2 m1) 1) as [Hlt|]; [|assumption].
      pose proof (Zdigits2_nonneg m1).
      replace (Zdigits2 m1) with 0 in Hu by lia. cbn in Hu. lia. }
    assert (Hn2 : e + n1 + n2 = fexp prec emax (Zdigits2 m1 + (e + n1)))
      by lia.
    assert (Hlt : n2 < Zdigits2 m1).
    { unfold n2, fexp, emin, prec, emax in *. lia. }
    assert (Hdq : Zdigits2 (m1 / 2 ^ n2) = Zdigits2 m1 - n2).
    { rewrite Zdigits2_quot by lia. lia. }
    destruct (shr_m mrs2) as [|mm|mm] eqn:Emm.
    + rewrite <- Hm2 in Hdq. cbn in Hdq. lia.
    + destruct (e + n1 + n2 <=? emax - prec) eqn:El; [|reflexivity].
      cbn [valid_binary]. unfold bounded, canonical_mantissa.
      rewrite El, andb_true_r. apply Z.eqb_eq.
      change (Zpos (digits2_pos mm)) with (Zdigits2 (Zpos mm)).
      rewrite Hm2, Hdq, Hn2. f_equal. lia.
    + assert (0 <= m1 / 2 ^ n2).
      { apply Z.div_pos; [lia|]. apply Z.pow_pos_nonneg; lia. }
      lia.
Qed.

(** The quotient that the division hands to the rounding. *)
Lemma div_core_aligned m1 e1 m2 e2 q e l :
  SFdiv_core_binary prec emax (Zpos m1) e1 (Zpos m2) e2 = (q, e, l) ->
  0 <= q /\ e <= fexp prec emax (Zdigits2 q + e).
Proof.
  unfold SFdiv_core_binary.
  set (d1 := Zdigits2 (Zpos m1)). set (d2 := Zdigits2 (Zpos m2)).
  set (e' := Z.min (fexp prec emax (d1 + e1 - (d2 + e2))) (e1 - e2)).
  set (s := e1 - e2 - e').
  assert (Hs : 0 <= s) by (unfold s, e'; lia).
  assert (Hp : 0 < 2 ^ s) by (apply Z.pow_pos_nonneg; lia).
  set (m' := match s with
             | 0 => Zpos m1
             | Zpos _ => Z.shiftl (Zpos m1) s
             | Zneg _ => 0
             end).
  assert (Hm' : m' = Zpos m1 * 2 ^ s).
  { unfold m'. destruct s as [|p|p] eqn:Es; [cbn; lia | | lia].
    now rewrite Z.shiftl_mul_pow2 by lia. }
  destruct (Z.div_eucl m' (Zpos m2)) as [q' r'] eqn:E.
  intros [= <- <- _].
  assert (Hq : q' = m' / Zpos m2) by (unfold Z.div; now rewrite E).
  assert (Hq0 : 0 <= q') by (rewrite Hq; apply Z.div_pos; lia).
  split; [exact Hq0|].
  destruct (Z_le_gt_dec e' (emin prec emax)) as [Hle|Hgt].
  - unfold fexp. lia.
  - assert (Hk : 53 <= d1 + s - d2).
    { unfold s, e', fexp, emin, prec, emax in *. lia. }
    destruct (pow2_digits_bounds (Zpos m1) ltac:(lia)) as [Hl1 _].
    destruct (pow2_digits_bounds (Zpos m2) ltac:(lia)) as [_ Hu2].
    fold d1 in Hl1. fold d2 in Hu2.
    assert (Hd1 : 1 <= d1) by (unfold d1; cbn; lia).
    assert (Hd2 : 1 <= d2) by (unfold d2; cbn; lia).
    assert (Hbig : 2 ^ (d1 + s - d2 - 1) <= q').
    { rewrite Hq, Hm'. apply Z.div_le_lower_bound; [lia|].
      assert (Hpow : 2 ^ (d1 - 1) * 2 ^ s
                     = 2 ^ d2 * 2 ^ (d1 + s - d2 - 1)).
      { rewrite <- !Z.pow_add_r by lia. f_equal. lia. }
      assert (0 < 2 ^ (d1 + s - d2 - 1)) by (apply Z.pow_pos_nonneg; lia).
      nia. }
    assert (Hdq : d1 + s - d2 <= Zdigits2 q').
    { assert (0 < 2 ^ (d1 + s - d2 - 1)) by (apply Z.pow_pos_nonneg; lia).
      rewrite Zdigits2_log2 by lia.
      assert (d1 + s - d2 - 1 <= Z.log2 q')
        by (apply Z.log2_le_pow2; lia).
      lia. }
    unfold fexp, emin, prec, emax in *. lia.
Qed.

Lemma fdiv_valid x sy my ey :
  isFinite x = true ->
  valid_binary prec emax (fdiv x (S754_finite sy my ey)) = true.
Proof.
  destruct x as [s|s| |s m e]; try discriminate; intros _; [reflexivity|].
  unfold fdiv, SFdiv.
  destruct (SFdiv_core_binary prec emax (Zpos m) e (Zpos my) ey)
    as [[q e'] l] eqn:E.
  destruct (div_core_aligned _ _ _ _ _ _ _ E) as [Hq He].
  now apply round_aux_valid.
Qed.

(** Multiplying a canonical Number by 1 or by -1 is exact. *)
Lemma fmul_unit x sf :
  valid_binary prec emax x = true ->
  fmul x (S754_finite sf 4503599627370496 (-52))
  = if sf then SFopp x else x.
Proof.
  destruct x as [s|s| |s m e]; intros Hv.
  - destruct s, sf; reflexivity.
  - destruct s, sf; reflexivity.
  - destruct sf; reflexivity.
  - cbn [valid_binary] in Hv. unfold bounded, canonical_mantissa in Hv.
    apply andb_true_iff in Hv as [Hc He].
    apply Z.eqb_eq in Hc. apply Z.leb_le in He.
    assert (HM : (m * 4503599627370496)%positive = Pos.iter xO m 52).
    { apply Pos2Z.inj. rewrite iter_xO_value, Pos2Z.inj_mul. reflexivity. }
    assert (Hs1 : shr_fexp prec emax (Zpos (Pos.iter xO m 52)) (e + -52)
                    loc_Exact
                  = ({| shr_m := Zpos m; shr_r := false; shr_s := false |}, e)).
    { unfold shr_fexp. cbn [Zdigits2]. rewrite iter_xO_digits.
      replace (Zpos (digits2_pos m) + 52 + (e + -52))
        with (Zpos (digits2_pos m) + e) by lia.
      rewrite Hc. replace (e - (e + -52)) with 52 by lia.
      cbn [shr_record_of_loc shr]. rewrite shr_exact. f_equal. lia. }
    assert (Hs2 : shr_fexp prec emax (Zpos m) e loc_Exact
                  = ({| shr_m := Zpos m; shr_r := false; shr_s := false |}, e)).
    { unfold shr_fexp. cbn [Zdigits2]. rewrite Hc, Z.sub_diag. reflexivity. }
    assert (Hr : fmul (S754_finite s m e)
                      (S754_finite sf 4503599627370496 (-52))
                 = S754_finite (xorb s sf) m e).
    { unfold fmul. cbn [SFmul]. rewrite HM. unfold binary_round_aux.
      rewrite Hs1. cbn [shr_m loc_of_shr_record round_nearest_even].
      rewrite Hs2. cbn [shr_m].
      destruct (e <=? emax - prec) eqn:El; [reflexivity|].
      apply Z.leb_gt in El. lia. }
    rewrite Hr. destruct s, sf; reflexivity.
Qed.

End RoundingFacts.
(** * The texts that the field normalizer accepts *)

Module LiteralFacts.
Import JsString JsNumber NumberSpec Helpers HelpersSpec ExactSpec LiteralSpec.
Import NumberFacts HelpersFacts ExactFacts DecimalFacts EdgeFacts RoundingFacts.

(** ** Trimming *)





(** ** Splitting at signs, digits and the point *)

Lemma splitSign_cases s :
  (exists t, s = String "+" t /\ splitSign s = (false, t))
  \/ (exists t, s = String "-" t /\ splitSign s = (true, t))
  \/ (startsWithSign s = false /\ splitSign s = (false, s)).
Proof.
  destruct s as [|c t]; [right; right; split; reflexivity|].
  destruct c as [[] [] [] [] [] [] [] []];
    first [ left; eexists; split; reflexivity
          | right; left; eexists; split; reflexivity
          | right; right; split; reflexivity ].
Qed.

Lemma splitSign_Sign sg neg t :
  Sign sg neg -> (sg = "" -> startsWithSign t = false) ->
  splitSign (sg +:+ t) = (neg, t).
Proof.
  intros [] H; [|reflexivity..].
  change ("" +:+ t) with t. specialize (H eq_refl).
  destruct (splitSign_cases t) as [(u & -> & _)|[(u & -> & _)|[_ E]]];
    [discriminate H | discriminate H | exact E].
Qed.

Lemma Sign_splitSign s :
  exists sg neg t,
    Sign sg neg /\ s = sg +:+ t /\ splitSign s = (neg, t)
    /\ (sg = "" -> startsWithSign t = false).
Proof.
  destruct (splitSign_cases s) as [(u & -> & E)|[(u & -> & E)|[H E]]].
  - exists "+", false, u.
    split; [constructor|]. split; [reflexivity|]. split; [exact E | discriminate].
  - exists "-", true, u.
    split; [constructor|]. split; [reflexivity|]. split; [exact E | discriminate].
  - exists "", false, s.
    split; [constructor|]. split; [reflexivity|]. split; [exact E | auto].
Qed.

Lemma spanDigits_inv s :
  exists d r,
    spanDigits s = (d, r) /\ s = d +:+ r
    /\ allDigits d = true /\ startsWithDigit r = false.
Proof.
  induction s as [|c s IH].
  - exists "", "". repeat split.
  - cbn [spanDigits]. destruct (isDigit c) eqn:E.
    + destruct IH as (d & r & -> & -> & Hd & Hr).
      exists (String c d), r. repeat split; [|exact Hr].
      cbn. now rewrite E.
    + exists "", (String c s). repeat split. exact E.
Qed.

Lemma spanDigits_app d r :
  allDigits d = true -> startsWithDigit r = false ->
  spanDigits (d +:+ r) = (d, r).
Proof.
  intros Hd Hr. induction d as [|c d IH].
  - change ("" +:+ r) with r. destruct r as [|c r]; [reflexivity|].
    cbn in *. now rewrite Hr.
  - rewrite append_cons. cbn in *.
    apply andb_true_iff in Hd as [Hc Hd]. now rewrite Hc, IH.
Qed.

Lemma point_cases r :
  (exists t, r = String "." t) \/ startsWithPoint r = false.
Proof.
  destruct r as [|c t]; [now right|].
  cbn. destruct (Ascii.eqb c ".") eqn:E; [|now right].
  apply Ascii.eqb_eq in E as ->. left. now exists t.
Qed.

Lemma isWhole_inv ds :
  isWhole ds = true ->
  allDigits ds = true /\ isEmpty ds = false /\ startsWithDigit ds = true.
Proof.
  unfold isWhole. destruct ds as [|c r]; [discriminate|].
  cbn. intros H. apply andb_true_iff in H as [Hc Hr].
  now rewrite Hc, Hr.
Qed.

Lemma digit_not_sign s : startsWithDigit s = true -> startsWithSign s = false.
Proof.
  destruct s as [|c r]; [reflexivity|]. cbn. intros H.
  destruct (digit_cases c H) as (_ & _ & Hp & Hm & _).
  apply Ascii.eqb_neq in Hp, Hm. now rewrite Hp, Hm.
Qed.

(** ** The exponent part *)

Lemma parseExponent_cons c r :
  parseExponent (String c r) =
    if Ascii.eqb c "e" || Ascii.eqb c "E" then
      let '(neg, r') := splitSign r in
      let '(ds, rest) := spanDigits r' in
      if isEmpty ds || negb (isEmpty rest) then None
      else Some (cond_Zopp neg (digitsValue ds))
    else None.
Proof. reflexivity. Qed.

Lemma letter_e c :
  Ascii.eqb c "e" || Ascii.eqb c "E" = true <-> c = "e"%char \/ c = "E"%char.
Proof. rewrite orb_true_iff, !Ascii.eqb_eq. tauto. Qed.

Lemma parseExponent_sound s e : parseExponent s = Some e -> Exponent s e.
Proof.
  destruct s as [|c r]; [intros [= <-]; constructor|].
  rewrite parseExponent_cons.
  destruct (Ascii.eqb c "e" || Ascii.eqb c "E") eqn:Hc; [|discriminate].
  destruct (Sign_splitSign r) as (sg & neg & t & Hs & -> & -> & _).
  destruct (spanDigits_inv t) as (ds & rest & -> & -> & Hd & _).
  destruct (isEmpty ds) eqn:Hds; [discriminate|].
  destruct rest; [|discriminate]. cbn [orb negb isEmpty].
  intros [= <-]. rewrite append_empty.
  constructor; [now apply letter_e | exact Hs |].
  unfold isWhole. now rewrite Hds, Hd.
Qed.

Lemma parseExponent_complete s e : Exponent s e -> parseExponent s = Some e.
Proof.
  intros [|c sg neg ds Hc Hs Hds]; [reflexivity|].
  rewrite parseExponent_cons. apply letter_e in Hc. rewrite Hc.
  destruct (isWhole_inv ds Hds) as (Hd & He & Hh).
  rewrite (splitSign_Sign sg neg ds Hs) by (intros _; now apply digit_not_sign).
  rewrite (allDigits_span ds Hd), He. reflexivity.
Qed.

(** ** The digits and the fraction *)

Lemma parseUnsignedDecimal_point ip t :
  allDigits ip = true ->
  parseUnsignedDecimal (ip +:+ String "." t) =
    let '(fp, r2) := spanDigits t in
    if isEmpty ip && isEmpty fp then None
    else match parseExponent r2 with
         | Some e => Some (digitsValue (ip +:+ fp), e - strlen fp)
         | None => None
         end.
Proof. intros H. unfold parseUnsignedDecimal. now rewrite spanDigits_point. Qed.

Lemma parseUnsignedDecimal_whole ip r :
  allDigits ip = true ->
  startsWithDigit r = false -> startsWithPoint r = false ->
  parseUnsignedDecimal (ip +:+ r) =
    if isEmpty ip then None
    else match parseExponent r with
         | Some e => Some (digitsValue ip, e)
         | None => None
         end.
Proof.
  intros Hip Hd Hp. unfold parseUnsignedDecimal.
  rewrite (spanDigits_app ip r Hip Hd).
  assert (E : match r with
              | String "." t => spanDigits t
              | _ => (EmptyString, r)
              end = (EmptyString, r)).
  { destruct r as [|c t]; [reflexivity|].
    destruct c as [[] [] [] [] [] [] [] []]; try reflexivity. discriminate Hp. }
  rewrite E. cbn [isEmpty]. rewrite andb_true_r, append_empty.
  destruct (isEmpty ip); [reflexivity|].
  destruct (parseExponent r); [|reflexivity].
  change (strlen "") with 0. now rewrite Z.sub_0_r.
Qed.

Lemma Exponent_head ex e :
  Exponent ex e -> startsWithDigit ex = false /\ startsWithPoint ex = false.
Proof.
  intros [|c sg neg ds [-> | ->] _ _]; split; reflexivity.
Qed.

Lemma parseUnsignedDecimal_sound s m e :
  parseUnsignedDecimal s = Some (m, e) ->
  exists ip frac fp ex e0,
    s = ip +:+ frac +:+ ex
    /\ allDigits ip = true /\ Fraction frac fp
    /\ isEmpty ip && isEmpty fp = false
    /\ Exponent ex e0
    /\ m = digitsValue (ip +:+ fp) /\ e = e0 - strlen fp.
Proof.
  destruct (spanDigits_inv s) as (ip & r1 & _ & -> & Hip & Hr1).
  destruct (point_cases r1) as [[t ->] | Hp].
  - rewrite (parseUnsignedDecimal_point ip t Hip).
    destruct (spanDigits_inv t) as (fp & r2 & -> & -> & Hfp & _).
    destruct (isEmpty ip && isEmpty fp) eqn:Hne; [discriminate|].
    destruct (parseExponent r2) as [e0|] eqn:He; [|discriminate].
    intros [= <- <-].
    exists ip, (String "." fp), fp, r2, e0.
    split; [reflexivity|]. split; [exact Hip|].
    split; [now constructor|]. split; [exact Hne|].
    split; [now apply parseExponent_sound|]. split; reflexivity.
  - rewrite (parseUnsignedDecimal_whole ip r1 Hip Hr1 Hp).
    destruct (isEmpty ip) eqn:Hne; [discriminate|].
    destruct (parseExponent r1) as [e0|] eqn:He; [|discriminate].
    intros [= <- <-].
    exists ip, "", "", r1, e0.
    split; [reflexivity|]. split; [exact Hip|].
    split; [constructor|]. split; [now rewrite Hne|].
    split; [now apply parseExponent_sound|].
    rewrite append_empty. change (strlen "") with 0. split; [reflexivity | lia].
Qed.

Lemma parseUnsignedDecimal_complete ip frac fp ex e :
  allDigits ip = true -> Fraction frac fp ->
  isEmpty ip && isEmpty fp = false -> Exponent ex e ->
  parseUnsignedDecimal (ip +:+ frac +:+ ex)
  = Some (digitsValue (ip +:+ fp), e - strlen fp).
Proof.
  intros Hip [|fp' Hfp] Hne Hex; destruct (Exponent_head ex e Hex) as [Hd Hp].
  - change ("" +:+ ex) with ex.
    rewrite (parseUnsignedDecimal_whole ip ex Hip Hd Hp).
    cbn [isEmpty] in Hne. rewrite andb_true_r in Hne. rewrite Hne.
    rewrite (parseExponent_complete ex e Hex), append_empty.
    change (strlen "") with 0. now rewrite Z.sub_0_r.
  - rewrite append_cons, (parseUnsignedDecimal_point ip _ Hip).
    rewrite (spanDigits_app fp' ex Hfp Hd), Hne.
    now rewrite (parseExponent_complete ex e Hex).
Qed.

(** ** Signed decimal literals *)

Lemma parseSignedDecimal_eq s :
  parseSignedDecimal s =
    let '(neg, r) := splitSign s in
    if String.eqb r "Infinity" then S754_infinity neg
    else match parseUnsignedDecimal r with
         | Some (m, e) => ofDecimal neg m e
         | None => NaN
         end.
Proof. reflexivity. Qed.

Lemma body_head ip frac fp ex :
  allDigits ip = true -> Fraction frac fp ->
  isEmpty ip && isEmpty fp = false ->
  exists c r,
    ip +:+ frac +:+ ex = String c r /\ (isDigit c = true \/ c = "."%char).
Proof.
  intros Hip Hf Hne. destruct ip as [|c ip].
  - destruct Hf as [|fp Hfp]; [discriminate Hne|].
    exists "."%char, (fp +:+ ex). split; [reflexivity | now right].
  - exists c, (ip +:+ frac +:+ ex). split; [reflexivity|].
    cbn in Hip. apply andb_true_iff in Hip as [Hc _]. now left.
Qed.

Lemma head_not_sign c r :
  isDigit c = true \/ c = "."%char ->
  startsWithSign (String c r) = false
  /\ String.eqb (String c r) "Infinity" = false.
Proof.
  intros [H | ->]; [|split; reflexivity].
  destruct c as [[] [] [] [] [] [] [] []]; try discriminate H;
    split; reflexivity.
Qed.

Lemma parseSignedDecimal_sound s :
  isFinite (parseSignedDecimal s) = true ->
  DecimalLiteral s (parseSignedDecimal s).
Proof.
  rewrite parseSignedDecimal_eq.
  destruct (Sign_splitSign s) as (sg & neg & r & Hs & -> & -> & _).
  destruct (String.eqb r "Infinity"); [discriminate|].
  destruct (parseUnsignedDecimal r) as [[m e]|] eqn:E; [|discriminate].
  intros _.
  destruct (parseUnsignedDecimal_sound r m e E)
    as (ip & frac & fp & ex & e0 & -> & Hip & Hf & Hne & Hex & -> & ->).
  now constructor.
Qed.

Lemma parseSignedDecimal_complete s x :
  DecimalLiteral s x -> parseSignedDecimal s = x.
Proof.
  intros [sg neg ip frac fp ex e Hs Hip Hf Hne Hex].
  rewrite parseSignedDecimal_eq.
  destruct (body_head ip frac fp ex Hip Hf Hne) as (c & r & Hr & Hc).
  destruct (head_not_sign c r Hc) as [Hsign Hinf].
  rewrite (splitSign_Sign sg neg _ Hs) by (intros _; now rewrite Hr).
  rewrite Hr, Hinf, <- Hr.
  now rewrite (parseUnsignedDecimal_complete ip frac fp ex e Hip Hf Hne Hex).
Qed.

(** ** Hexadecimal, octal and binary literals *)

Lemma parseNonDecimal_eq p ds :
  parseNonDecimal (String "0" (String p ds)) =
    match radixOf p with
    | None => None
    | Some radix =>
        if isEmpty ds then Some NaN
        else match radixValueFrom radix 0 ds with
             | Some v => Some (ofZ v)
             | None => Some NaN
             end
    end.
Proof.
  unfold parseNonDecimal, radixOf.
  destruct (Ascii.eqb p "x" || Ascii.eqb p "X"); [reflexivity|].
  destruct (Ascii.eqb p "o" || Ascii.eqb p "O"); [reflexivity|].
  destruct (Ascii.eqb p "b" || Ascii.eqb p "B"); reflexivity.
Qed.

Lemma zero_cases s :
  (exists p ds, s = String "0" (String p ds)) \/ parseNonDecimal s = None.
Proof.
  destruct s as [|c t]; [right; reflexivity|].
  destruct t as [|p ds].
  - right. destruct c as [[] [] [] [] [] [] [] []]; reflexivity.
  - destruct c as [[] [] [] [] [] [] [] []];
      first [ left; eexists _, _; reflexivity | right; reflexivity ].
Qed.

Lemma parseNonDecimal_sound s x :
  parseNonDecimal s = Some x -> isFinite x = true -> RadixLiteral s x.
Proof.
  destruct (zero_cases s) as [(p & ds & ->) | E]; [|now rewrite E].
  rewrite parseNonDecimal_eq.
  destruct (radixOf p) as [radix|] eqn:Hp; [|discriminate].
  destruct (isEmpty ds) eqn:Hds; [intros [= <-]; discriminate|].
  destruct (radixValueFrom radix 0 ds) as [v|] eqn:Hv;
    [|intros [= <-]; discriminate].
  intros [= <-] _. econstructor; eassumption.
Qed.

Lemma parseNonDecimal_complete s x :
  RadixLiteral s x -> parseNonDecimal s = Some x.
Proof.
  intros [p radix ds v Hp Hds Hv].
  now rewrite parseNonDecimal_eq, Hp, Hds, Hv.
Qed.

Lemma radixOf_decimal p :
  isDigit p = true \/ p = "."%char \/ p = "e"%char \/ p = "E"%char ->
  radixOf p = None.
Proof.
  intros [H | [-> | [-> | ->]]]; try reflexivity.
  unfold radixOf. destruct (point_or_digit p (or_introl H)) as (-> & -> & ->).
  reflexivity.
Qed.

Lemma Exponent_letter ex e c r :
  Exponent ex e -> ex = String c r -> c = "e"%char \/ c = "E"%char.
Proof. intros [|c' sg neg ds Hc _ _]; [discriminate|]. now intros [= <- _]. Qed.

(** The character after a leading digit of a decimal literal. *)
Lemma second_char ip frac fp ex e p ds :
  allDigits ip = true -> Fraction frac fp -> Exponent ex e ->
  ip +:+ frac +:+ ex = String p ds ->
  isDigit p = true \/ p = "."%char \/ p = "e"%char \/ p = "E"%char.
Proof.
  intros Hip Hf Hex. destruct ip as [|c ip].
  - change ("" +:+ frac +:+ ex) with (frac +:+ ex).
    destruct Hf as [|fp Hfp].
    + change ("" +:+ ex) with ex. intros H.
      right; right. exact (Exponent_letter ex e p ds Hex H).
    + rewrite append_cons. intros [= <- _]. right; now left.
  - rewrite append_cons. intros [= <- _].
    cbn in Hip. apply andb_true_iff in Hip as [Hc _]. now left.
Qed.

Lemma decimal_not_radix s x : DecimalLiteral s x -> parseNonDecimal s = None.
Proof.
  intros H. destruct (zero_cases s) as [(p & ds & Hz) | E]; [|exact E].
  rewrite Hz, parseNonDecimal_eq.
  enough (Hp : radixOf p = None) by now rewrite Hp.
  destruct H as [sg neg ip frac fp ex e Hs Hip Hf Hne Hex].
  destruct Hs; [|discriminate Hz..].
  change ("" +:+ ip +:+ frac +:+ ex) with (ip +:+ frac +:+ ex) in Hz.
  apply radixOf_decimal.
  destruct ip as [|c ip].
  - destruct Hf as [|fp Hfp]; [discriminate Hne | discriminate Hz].
  - rewrite append_cons in Hz. injection Hz as _ Hz.
    cbn in Hip. apply andb_true_iff in Hip as [_ Hip].
    exact (second_char ip frac fp ex e p ds Hip Hf Hex Hz).
Qed.

(** ** [Number] on a trimmed text *)

Lemma ofString_eq s :
  trim s = s -> isEmpty s = false ->
  ofString s = match parseNonDecimal s with
               | Some x => x
               | None => parseSignedDecimal s
               end.
Proof. intros Ht He. unfold ofString. now rewrite Ht, He. Qed.

Lemma literal_nonempty s x : NumericLiteral s x -> isEmpty s = false.
Proof.
  intros [H | H]; [|now destruct H].
  destruct H as [sg neg ip frac fp ex e Hs Hip Hf Hne Hex].
  destruct (body_head ip frac fp ex Hip Hf Hne) as (c & r & -> & _).
  now destruct Hs.
Qed.

(** The conversion of a literal is the Number the literal denotes. *)
Lemma ofString_literal s x :
  trim s = s -> NumericLiteral s x -> ofString s = x.
Proof.
  intros Ht H. rewrite (ofString_eq s Ht (literal_nonempty s x H)).
  destruct H as [H | H].
  - rewrite (decimal_not_radix s x H). now apply parseSignedDecimal_complete.
  - now rewrite (parseNonDecimal_complete s x H).
Qed.

(** A text that is converted to a finite Number is a literal. *)
Lemma literal_ofString s :
  trim s = s -> isEmpty s = false -> isFinite (ofString s) = true ->
  NumericLiteral s (ofString s).
Proof.
  intros Ht He. rewrite (ofString_eq s Ht He).
  destruct (parseNonDecimal s) as [x|] eqn:E; intros Hf.
  - right. now apply parseNonDecimal_sound.
  - left. now apply parseSignedDecimal_sound.
Qed.

(** ** The sign of a literal *)

Lemma div_core_nonneg m1 e1 m2 e2 q e l :
  SFdiv_core_binary prec emax (Zpos m1) e1 (Zpos m2) e2 = (q, e, l) -> 0 <= q.
Proof.
  unfold SFdiv_core_binary.
  destruct (Z.div_eucl _ (Zpos m2)) as [q' r'] eqn:E2. intros [= <- _ _].
  match type of E2 with Z.div_eucl ?a ?b = _ =>
    assert (Hq : q' = a / b) by (unfold Z.div; now rewrite E2);
    assert (0 <= a) end.
  { destruct (e1 - e2 - _) as [|p|p]; try lia. rewrite Z.shiftl_mul_pow2 by lia.
    assert (0 < 2 ^ Zpos p) by (apply Z.pow_pos_nonneg; lia). lia. }
  rewrite Hq. apply Z.div_pos; lia.
Qed.

Lemma signOf_round s m e : signOf (binary_round prec emax s m e) = Some s.
Proof.
  unfold binary_round. destruct (shl_align _ _ _) as [mz ez].
  apply binary_round_aux_shape. lia.
Qed.

Lemma signOf_ofZ v : 0 <= v -> signOf (ofZ v) = Some false.
Proof.
  intros H. unfold ofZ, binary_normalize.
  destruct v as [|p|p]; [reflexivity | apply signOf_round | lia].
Qed.

Lemma signOf_ofDecimal neg m e :
  0 <= m -> signOf (ofDecimal neg m e) = Some neg.
Proof.
  intros H. unfold ofDecimal. destruct m as [|p|p]; [reflexivity | | lia].
  destruct (0 <=? e) eqn:He.
  - assert (Hpos : 0 < Zpos p * 10 ^ e)
      by (apply Z.mul_pos_pos; [lia | apply Z.pow_pos_nonneg; lia]).
    unfold binary_normalize.
    destruct (Zpos p * 10 ^ e) as [|q|q]; try lia.
    destruct neg; apply signOf_round.
  - destruct (SFdiv_core_binary prec emax (Zpos p) 0 (10 ^ (- e)) 0)
      as [[q e'] l] eqn:E.
    assert (Hten : 0 < 10 ^ (- e)) by (apply Z.pow_pos_nonneg; lia).
    destruct (10 ^ (- e)) as [|d|d]; try lia.
    apply binary_round_aux_shape. exact (div_core_nonneg _ _ _ _ _ _ _ E).
Qed.

Lemma radixDigit_nonneg radix c v : radixDigit radix c = Some v -> 0 <= v.
Proof.
  unfold radixDigit, isDigit.
  destruct ((48 <=? code c) && _) eqn:E1.
  - apply andb_true_iff in E1 as [E1 _]. apply Z.leb_le in E1.
    destruct (_ <? radix); intros [= <-]. lia.
  - destruct ((97 <=? code c) && _) eqn:E2.
    + apply andb_true_iff in E2 as [E2 _]. apply Z.leb_le in E2.
      destruct (_ <? radix); intros [= <-]. lia.
    + destruct ((65 <=? code c) && _) eqn:E3.
      * apply andb_true_iff in E3 as [E3 _]. apply Z.leb_le in E3.
        destruct (_ <? radix); intros [= <-]. lia.
      * destruct (_ <? radix); intros [= <-]. lia.
Qed.

Lemma radixValueFrom_nonneg radix ds : forall acc v,
  0 <= radix -> 0 <= acc ->
  radixValueFrom radix acc ds = Some v -> 0 <= v.
Proof.
  induction ds as [|c r IH]; intros acc v Hr Ha.
  - now intros [= <-].
  - cbn [radixValueFrom]. destruct (radixDigit radix c) as [d|] eqn:E;
      [|discriminate].
    apply IH; [exact Hr|]. pose proof (radixDigit_nonneg _ _ _ E). nia.
Qed.

Lemma radixOf_nonneg p radix : radixOf p = Some radix -> 0 <= radix.
Proof.
  unfold radixOf.
  repeat (destruct (_ || _); [intros [= <-]; lia|]). discriminate.
Qed.

(** A literal denotes a Number with the sign bit set exactly when it
    begins with [-]. *)
Lemma literal_sign s x :
  NumericLiteral s x -> signOf x = Some (startsWithMinus s).
Proof.
  intros [H | H].
  - destruct H as [sg neg ip frac fp ex e Hs Hip Hf Hne Hex].
    rewrite signOf_ofDecimal.
    + destruct (body_head ip frac fp ex Hip Hf Hne) as (c & r & -> & Hc).
      destruct Hs; [|reflexivity..].
      change ("" +:+ String c r) with (String c r). cbn [startsWithMinus].
      destruct Hc as [Hc | ->]; [|reflexivity].
      destruct (digit_cases c Hc) as (_ & _ & _ & Hm & _).
      apply Ascii.eqb_neq in Hm. now rewrite Hm.
    + apply digitsValueFrom_nonneg; [|lia].
      apply allDigits_app; [exact Hip|]. now destruct Hf.
  - destruct H as [p radix ds v Hp Hds Hv]. rewrite signOf_ofZ; [reflexivity|].
    eapply radixValueFrom_nonneg; [| |exact Hv]; [|lia].
    exact (radixOf_nonneg p radix Hp).
Qed.

Lemma fdiv_signOf x sy my ey :
  isFinite x = true ->
  signOf (fdiv x (S754_finite sy my ey))
  = option_map (fun s => xorb s sy) (signOf x).
Proof.
  destruct x as [s|s| |s m e]; try discriminate; intros _; [reflexivity|].
  unfold fdiv, SFdiv.
  destruct (SFdiv_core_binary prec emax (Zpos m) e (Zpos my) ey)
    as [[q e'] l] eqn:E.
  cbn [signOf option_map].
  apply binary_round_aux_shape. exact (div_core_nonneg _ _ _ _ _ _ _ E).
Qed.

Lemma fmul_signOf q s sy my ey :
  signOf q = Some s ->
  signOf (fmul q (S754_finite sy my ey)) = Some (xorb s sy).
Proof.
  destruct q as [sq|sq| |sq mq eq]; cbn; try discriminate;
    intros [= <-]; try reflexivity.
  apply binary_round_aux_shape. lia.
Qed.

Lemma hundred_value : ofZ 100 = S754_finite false 7036874417766400 (-46).
Proof. vm_compute. reflexivity. Qed.

Lemma signFactor_value neg :
  signFactor neg = S754_finite neg 4503599627370496 (-52).
Proof. destruct neg; vm_compute; reflexivity. Qed.

(** ** The percentage parser *)

Lemma percent_no_space txt :
  noneOf isWhiteSpace (removeAll isPercentNoise txt) = true.
Proof.
  apply noneOf_weaken with (p := isPercentNoise); [|apply removeAll_noneOf].
  intros c H. unfold isPercentNoise. now rewrite H.
Qed.

Lemma dropLeadingMinus_noneOf p s :
  noneOf p s = true -> noneOf p (dropLeadingMinus s) = true.
Proof.
  destruct s as [|c r]; [auto|]. cbn.
  destruct (Ascii.eqb c "-"); [|auto].
  intros H. apply andb_true_iff in H as [_ H]. exact H.
Qed.

Lemma dropLeadingMinus_empty t :
  isEmpty (dropLeadingMinus t) = String.eqb t "-" || isEmpty t.
Proof.
  destruct t as [|c r]; [reflexivity|]. cbn.
  destruct (Ascii.eqb c "-") eqn:E; [|now destruct r].
  now destruct r.
Qed.

(** Multiplying the quotient by -1 or by 1 negates it or leaves it as
    it is: nothing is rounded. *)
Lemma percent_value x neg :
  isFinite x = true ->
  fmul (fdiv x (ofZ 100)) (signFactor neg) = negateIf neg (fdiv x (ofZ 100)).
Proof.
  intros H. rewrite signFactor_value, hundred_value.
  apply fmul_unit. now apply fdiv_valid.
Qed.

Lemma signOf_negateIf neg q s :
  signOf q = Some s -> signOf (negateIf neg q) = Some (xorb neg s).
Proof.
  destruct q as [b|b| |b m e], neg; cbn; intros [= <-]; now destruct b.
Qed.

Lemma parsePercent_rest txt :
  parsePercent txt =
    let rest := dropLeadingMinus (removeAll isPercentNoise txt) in
    if isEmpty rest then None
    else if isFinite (ofString rest)
         then Some (negateIf (startsWithMinus (trim txt))
                             (fdiv (ofString rest) (ofZ 100)))
         else None.
Proof.
  rewrite parsePercent_unfold. cbv zeta.
  rewrite (trim_noneOf _ (percent_no_space txt)).
  rewrite dropLeadingMinus_empty.
  destruct (_ || _); [reflexivity|].
  destruct (isFinite _) eqn:Hf; [|reflexivity].
  cbn [negb]. f_equal. exact (percent_value _ _ Hf).
Qed.

Lemma rest_trimmed txt :
  trim (dropLeadingMinus (removeAll isPercentNoise txt))
  = dropLeadingMinus (removeAll isPercentNoise txt).
Proof. apply trim_noneOf, dropLeadingMinus_noneOf, percent_no_space. Qed.

(** ** The number parser *)




(** C9, as it fails.  In ["1+2"] the [+] does not lead, yet it is
    removed, and the result is the Number 0.12 where the specification
    gives [null].  The text ["--5"] begins with ["-"], yet the result is
    the Number 0.05, which is not negative: what is left after the first
    ["-"] is converted with its own sign. *)
Lemma parsePercent_differs :
  parsePercent "1+2" = Some (literal false 12 2)
  /\ parsePercent_described "1+2" = None
  /\ startsWithMinus (trim "--5") = true
  /\ parsePercent "--5" = Some (literal false 5 2)
  /\ isNegative (literal false 5 2) = false.
Proof. repeat split; vm_compute; reflexivity. Qed.

(** C9, amended. For every text, [parsePercent] removes all white
    space, commas, [%] and [+] characters, wherever they occur, and one
    leading ["-"] of what is left.  It returns a Number exactly when the
    rest is a numeric literal with a finite value: the value of that
    literal divided by 100, negated when the trimmed original text
    begins with ["-"] and as it is when it does not (the multiplication
    by -1 or 1 rounds nothing).  So the sign bit of the result is that
    of the leading ["-"] of the original text when the rest has no ["-"]
    of its own, and the opposite when it has.  For every other text,
    among them ["-"] and the empty text, it returns [null].  Where the
    only [+] is a leading one this is the parser of the specification.
    [parsePercent("-1.23%")] is the Number -0.0123,
    [parsePercent("+2%")] is 0.02 and [parsePercent("-")] is [null]. *)
Theorem parsePercent_correct :
  (forall txt y,
     parsePercent txt = Some y <->
     exists x,
       NumericLiteral (dropLeadingMinus (removeAll isPercentNoise txt)) x
       /\ isFinite x = true
       /\ y = negateIf (startsWithMinus (trim txt)) (fdiv x (ofZ 100)))
  /\ (forall txt y,
        parsePercent txt = Some y ->
        signOf y
        = Some (xorb (startsWithMinus (trim txt))
                     (startsWithMinus
                        (dropLeadingMinus (removeAll isPercentNoise txt)))))
  /\ (forall txt,
        noneOf isPlus
          (dropLeadingPlus (removeAll isPercentNoiseDescribed txt)) = true ->
        parsePercent txt = parsePercent_described txt)
  /\ parsePercent "-1.23%" = Some (literal true 123 4)
  /\ parsePercent "+2%" = Some (literal false 2 2)
  /\ parsePercent "-" = None.
Proof.
  split.
  { intros txt y. rewrite parsePercent_rest. cbv zeta.
    pose proof (rest_trimmed txt) as Ht.
    set (rest := dropLeadingMinus (removeAll isPercentNoise txt)) in *.
    split.
    - destruct (isEmpty rest) eqn:He; [discriminate|].
      destruct (isFinite (ofString rest)) eqn:Hf; [|discriminate].
      intros [= <-]. exists (ofString rest).
      split; [now apply literal_ofString|]. split; [exact Hf | reflexivity].
    - intros (x & Hl & Hf & ->).
      now rewrite (literal_nonempty _ _ Hl), (ofString_literal rest x Ht Hl), Hf. }
  split.
  { intros txt y. rewrite parsePercent_rest. cbv zeta.
    rewrite hundred_value.
    pose proof (rest_trimmed txt) as Ht.
    set (rest := dropLeadingMinus (removeAll isPercentNoise txt)) in *.
    destruct (isEmpty rest) eqn:He; [discriminate|].
    destruct (isFinite (ofString rest)) eqn:Hf; [|discriminate].
    intros [= <-].
    pose proof (literal_sign _ _ (literal_ofString rest Ht He Hf)) as Hs.
    apply signOf_negateIf. rewrite (fdiv_signOf _ _ _ _ Hf), Hs. cbn.
    now rewrite xorb_false_r. }
  split; [|repeat split; vm_compute; reflexivity].
  intros txt H. rewrite parsePercent_unfold. unfold parsePercent_described.
  cbv zeta.
  change (removeAll isPercentNoise txt)
    with (removeAll (fun c => isPercentNoiseDescribed c || isPlus c) txt).
  rewrite removeAll_compose.
  rewrite (trim_noneOf (removeAll isPercentNoiseDescribed txt))
    by apply described_no_space.
  rewrite trim_noneOf
    by (apply noneOf_removeAll, described_no_space).
  now rewrite removeAll_plus_leading.
Qed.

(** The text ["--5"] begins with ["-"] and so does what is left after
    the first ["-"]: the sign bit of the result is not set. *)
Lemma parsePercent_correct_witness :
  signOf (literal false 5 2) = Some (xorb true true).
Proof.
  apply (proj1 (proj2 parsePercent_correct) "--5" (literal false 5 2)).
  vm_compute. reflexivity.
Defined.

End LiteralFacts.
